(* ===== verification/_CoqProject ===== *)
-Q . S2P
Prelude.v
Tensor.v
Tokenizer.v
Encoder.v
Model.v
Middleware.v
RwLock.v
Server.v
JsonScan.v
Json.v
Concurrent.v
Progress.v
Atomic.v
Http.v
Timing.v
