(* ===== verification/Prelude.v ===== *)
(** * rs-hf-serve: a verification development

    The program ([src/src/model.rs], [src/src/main.rs]) is an HTTP service
    that loads a BERT sentence encoder once and answers [POST /predict]
    with the embedding of the posted text.  [Bert::new] resolves the model
    id and revision, fetches [config.json], [tokenizer.json] and a weight
    file from the Hugging Face hub, clears the tokenizer's padding and
    truncation and builds the model; [Bert::predict] encodes a text, makes
    [1 x n] tensors of the ids and of zeros and runs the forward pass.
    [main] wraps the model in a [tokio::sync::RwLock] inside one
    [Data<AppModel>] shared by 8 actix workers; the handler takes the read
    guard, calls [Bert::predict], unwraps, converts with [to_vec3] and
    answers [Embeddings { ys }]; every request passes through
    [middleware_time_elapsed], which prints the [content-length].

    ** Files, in dependency order

    - [Prelude.v] (this file): Rust's [Result] and [?] ([result], [rbind]),
      [Option] combinators, and the logged monad [logged Ev E A], a list of
      printed lines with a result that is a value, a returned error
      ([Raise]) or a panic ([Panic]); [ltry] is [?], [lunwrap] is
      [.unwrap()], [tell] is [println!].  Notations in [hf_scope], the
      rewrite database [hf_rw] that runs a logged computation step by
      step, the hint database [hf], the tactics [logged_simpl] and
      [logged_inv], and list lemmas the components share.
    - [Tensor.v], [Module Tensor]: candle's CPU tensors as storage and
      shape; [Tensor::new], [unsqueeze], [zeros_like] (model.rs 100-101)
      and [to_vec3] (main.rs 40), their errors included.
    - [Tokenizer.v], [Module Tokenizer]: [TokenizerImpl] as the program uses
      it: [with_padding], [with_truncation] (model.rs 62-67, with the
      library's [usize] subtraction) and [encode] (model.rs 93-98):
      segmentation (abstract), truncation, special tokens, padding.
    - [Encoder.v], [Module Encoder]: [Config], [HiddenAct], and the class
      [BertBackend], the contract of [BertModel::load] and [forward] the
      rest is proved against; [EmbeddingBackend] is an instance (the
      embedding lookup) that discharges its laws and runs the examples.
    - [Model.v], [Module Model]: [Bert], [Bert::new] over an [Env] record of
      the I/O it performs (hub, file system, JSON, tokenizer and weight
      loading), and [Bert::predict], every [?] and [unwrap] kept.
    - [Middleware.v], [Module Middleware]: [HeaderMap::get],
      [HeaderValue::to_str], [usize::from_str] at 64 bits, and the
      middleware (main.rs 46-66).
    - [RwLock.v], [Module RwLock]: tokio's fair batch semaphore under
      [RwLock] (permits, FIFO wait queue, ghost holders) as a step relation.
    - [Server.v], [Module Server]: [Prompt], [Embeddings], [AppModel], the
      handler (main.rs 28-44) inside the middleware, and [main] (68-90).
    - [JsonScan.v], [Module JsonScan]: serde_json's scanner and writer on
      byte lists: whitespace, strings (escapes, surrogate pairs, UTF-8
      validation), numbers, literals, [ignore_value], and the escaping and
      compact arrays of the serializer.
    - [Json.v], [Module Json]: the [Deserialize] impl derived for [Prompt]
      (main.rs 13-16) under [serde_json::from_slice], and the [Serialize]
      impl derived for [Embeddings] (18-21).
    - [Concurrent.v], [Module Concurrent]: many requests and (optional)
      reload writers interleaved on the one shared [AppModel] and its lock,
      on 8 workers; an executable scheduler [run_step] / [run] for concrete
      runs, proved to take exactly the steps of the relation [cstep].
    - [Progress.v], [Module Progress]: a second invariant tying the lock's
      guards and queue to the tasks; no deadlock, and a completing schedule.
    - [Atomic.v], [Module Atomic]: the guard's contract of the spec as an
      atomic state machine, and the abstraction function [absr] under which
      the concurrent server refines it.
    - [Http.v], [Module Http]: the route [POST /predict] from request body
      to response body: the [Json<Prompt>] extractor (400 on a body that
      does not decode), the handler, the [Json] responder, inside the
      middleware.
    - [Timing.v], [Module Timing]: [Instant::now] and [Instant::elapsed]
      (model.rs 91, 103, 106; main.rs 59, 63) on a run's clock, a
      sequence of instants read at an index the monad [timed] threads;
      the request with its durations, and the erasure of the durations
      that gives back the request of [Server.v].

    ** What the theorems show

    - The embedding of any text has shape [1 x (tokens + specials) x
      hidden_size], with [hidden_size] the one in the fetched
      [config.json] (C1); [predict] implements the spec's contract
      encode, tensorize, forward (C17); when it succeeds or fails, and
      what it prints (C18-C20); the first artifact the hub lacks is the
      one whose error [Bert::new] returns (C15); what a successful
      [Bert::new] fetches and keeps (C21).
    - Concurrency: end to end, from [main] to every answered request, the
      answer is [serve_request] of the model [Bert::new] loaded (C2); in
      every interleaving with reloads, each finished request's result is
      [serve_request b hs p] for its own request and a complete version
      [b] (C3); a request reads one version for both of its reads (C4); no
      request is inside [predict] during a half-done write (C5).
    - Progress and refinement: a state where no task can act has every task
      finished (C6), and a completing schedule always exists (C7); the
      server refines the spec's atomic guard (C8), each request linearised
      at the start of [Bert::predict], each reload at the end of its copy.
    - The lock: its permit accounting is an invariant that [RwLock::new],
      acquiring and releasing preserve (C9); by rule induction on
      [reachable], a writer is alone, no deadlock when nobody holds a
      guard, and eventual admission (C26-C28).
    - The served program: a failing [predict] panics the request instead of
      returning an error response, against the spec (C10); an answered
      request gets [to_vec3] of the forward pass on its own prompt, of the
      expected shape (C11); [main] panics on a load failure (C16).
    - The wire: a body that does not decode is answered 400 without
      reading the model (C12); every 200 body is one well-formed JSON
      value (C13); the request body round-trips for every UTF-8 text
      (C14); unknown fields are skipped, the array form is accepted, a
      duplicate [text] is rejected (C23-C25).
    - Time: on a monotonic clock the durations a request prints never
      decrease, in every branch (C22); the timed request erases to the
      untimed one ([Timing.serve_request_timed_erase]).
    - Library behaviour the program depends on: [to_vec3] is lossless and
      row-major (C29), the payload size and its overflow to 0 (C30, C31).

    ** Widths, bounds and the examples

    [usize] is 64 bits: [Tokenizer.usize_sub] wraps modulo [2^64] and
    [Middleware.usize_max] is [2^64 - 1], with integers as [Z].  Token ids
    are [Z] (candle's [u32]); floats are Rocq's primitive floats standing
    for [f32], whose arithmetic no theorem uses.  Instants are [N]
    nanoseconds, so [Instant::elapsed] saturates at zero as Rust's does.  Two definitions run on
    fuel, both given the length of the input plus one, since every round
    consumes at least a byte: [JsonScan.skip_value] ([ignore_value], proved
    enough by [skip_value_fuel]: more fuel gives the same result) and
    [Json.visit_map] (enough by [visit_map_fuel], since every round
    consumes its key).  Every other recursion is structural, and the liveness of the lock
    ([RwLock.rwlock_eventually_admitted]) is proved by induction on
    twice the length of the queue plus the number of guards alive, which
    every release decreases.  tokio's [MAX_READS] is [2^29 - 1]
    permits ([Server.MAX_READS]); the lock theorems hold for every
    positive [max_reads], and the examples use 3 permits, 2 workers, a six
    word vocabulary, hidden size 2 and 4 positions, except the end-to-end
    example which runs with [MAX_READS] itself, reduced lazily.

    ** Not modelled

    The BERT numerics (attention, layer norm): the [BertBackend] contract
    stands for them.  The tokenizer's normaliser, pre-tokeniser and
    WordPiece model: one abstract function of the tokenizer record.  The
    network and file system behind the hub and [VarBuilder]: functions of
    [Env] the theorems quantify over, which return results and cannot
    panic.  So the panics inside the libraries [Bert::new] calls are not
    represented: hf_hub's [Api::new] expects a home directory when
    [HF_HOME] is unset, and candle's attention loader divides by
    [num_attention_heads]; no theorem claims that [Bert::new] never
    panics.  Of serde_json: the digits [ryu]
    writes for a finite [f32] (a parameter, assumed to be a JSON number),
    error positions, and the range check on a number where [text] is
    expected; of actix: [JsonConfig]'s content-type and size checks, the
    text of error responses, and the HTTP framing.  Of durations: the
    text [{:?}] prints for a [Duration], and the clock's values, which are
    any monotonic sequence.  The lock's internals and the
    reload writer are modelled from tokio's documented behaviour and the
    spec, since that code is not in this repository and the program never
    writes the model. *)

From stdpp Require Export base list option strings sets.

(** ** Rust's [Result] and the [?] operator

    [anyhow::Result<T>] and the other [Result] types of the sources are
    modelled by [result A E].  The [?] operator is [rbind]: an [Err]
    returns early, an [Ok] continues with its value. *)

Inductive result (A E : Type) : Type :=
| Ok (a : A)
| Err (e : E).
Arguments Ok {A E} a.
Arguments Err {A E} e.

Definition rbind {A B E} (m : result A E) (k : A -> result B E) : result B E :=
  match m with
  | Ok a => k a
  | Err e => Err e
  end.

(** [Result::map_err] *)
Definition map_err {A E F} (f : E -> F) (m : result A E) : result A F :=
  match m with
  | Ok a => Ok a
  | Err e => Err (f e)
  end.

(** [Result::ok] *)
Definition ok {A E} (m : result A E) : option A :=
  match m with
  | Ok a => Some a
  | Err _ => None
  end.

(** [Option::and_then] and [Option::unwrap_or] *)
Definition and_then {A B} (o : option A) (f : A -> option B) : option B :=
  match o with
  | Some a => f a
  | None => None
  end.

Definition unwrap_or {A} (o : option A) (d : A) : A :=
  match o with
  | Some a => a
  | None => d
  end.

Definition is_ok {A E} (m : result A E) : bool :=
  match m with Ok _ => true | Err _ => false end.

(** [iter().map(f).collect::<Result<Vec<_>, _>>()]: the first error stops
    the traversal. *)
Fixpoint rmap {A B E} (f : A -> result B E) (l : list A) : result (list B) E :=
  match l with
  | [] => Ok []
  | x :: l' =>
      match f x with
      | Ok y => match rmap f l' with Ok ys => Ok (y :: ys) | Err e => Err e end
      | Err e => Err e
      end
  end.

Declare Scope hf_scope.
Delimit Scope hf_scope with hf.

Notation "x <- m ;; k" := (rbind m (fun x => k))
  (at level 60, m at next level, right associativity) : hf_scope.

(** ** Logged computations, errors and panics

    The sources print progress lines ([println!]) between their steps, return
    errors early with [?], and panic with [.unwrap()].  A logged computation
    returns the events it produced, in order, with its outcome: a value, an
    error raised by [?] ([Raise]), or a panic ([Panic]).  An early exit keeps
    the events produced before it. *)

Inductive exit (E : Type) : Type :=
| Raise (e : E)
| Panic (msg : string).
Arguments Raise {E} e.
Arguments Panic {E} msg.

Definition logged (Ev E A : Type) : Type := list Ev * result A (exit E).

Definition lret {Ev E A} (a : A) : logged Ev E A := ([], Ok a).

(** [expr?] on a [Result] whose error converts into [E] by [conv]. *)
Definition ltry {Ev E E' A} (conv : E' -> E) (m : result A E') : logged Ev E A :=
  ([], match m with Ok a => Ok a | Err e => Err (Raise (conv e)) end).

(** [expr.unwrap()] *)
Definition unwrap_msg : string := "called `Result::unwrap()` on an `Err` value".

Definition lunwrap {Ev E E' A} (m : result A E') : logged Ev E A :=
  ([], match m with Ok a => Ok a | Err _ => Err (Panic unwrap_msg) end).

Definition tell {Ev E} (ev : Ev) : logged Ev E unit := ([ev], Ok tt).

Definition lbind {Ev E A B} (m : logged Ev E A) (k : A -> logged Ev E B)
  : logged Ev E B :=
  match m with
  | (l, Ok a) => let '(l', r) := k a in (l ++ l', r)
  | (l, Err e) => (l, Err e)
  end.

Notation "x <~ m ;; k" := (lbind m (fun x => k))
  (at level 60, m at next level, right associativity) : hf_scope.

Open Scope hf_scope.

(** ** Shared lemmas *)

Create HintDb hf discriminated.
Create Rewrite HintDb hf_rw.

Lemma rbind_Ok {A B E} (a : A) (k : A -> result B E) : rbind (Ok a) k = k a.
Proof. reflexivity. Qed.

Lemma rbind_Err {A B E} (e : E) (k : A -> result B E) : rbind (Err e) k = Err e.
Proof. reflexivity. Qed.

Lemma rbind_eq_Ok {A B E} (m : result A E) (k : A -> result B E) b :
  rbind m k = Ok b <-> exists a, m = Ok a /\ k a = Ok b.
Proof.
  destruct m as [a|e]; simpl; split.
  - eauto.
  - intros (? & [= ->] & ?); done.
  - done.
  - intros (? & ? & _); done.
Qed.

Lemma rbind_eq_Err {A B E} (m : result A E) (k : A -> result B E) e :
  rbind m k = Err e <-> m = Err e \/ exists a, m = Ok a /\ k a = Err e.
Proof.
  destruct m as [a|e']; simpl; split.
  - eauto.
  - intros [? | (? & [= ->] & ?)]; done.
  - intros [= ->]; auto.
  - intros [[= ->] | (? & ? & _)]; done.
Qed.

Lemma map_err_eq_Ok {A E F} (f : E -> F) (m : result A E) a :
  map_err f m = Ok a <-> m = Ok a.
Proof. destruct m; simpl; split; congruence. Qed.

Lemma ltry_Ok {Ev E E' A} (conv : E' -> E) (a : A) :
  ltry (Ev:=Ev) conv (Ok a) = ([], Ok a).
Proof. reflexivity. Qed.

Lemma ltry_Err {Ev E E' A} (conv : E' -> E) (e : E') :
  ltry (Ev:=Ev) (A:=A) conv (Err e) = ([], Err (Raise (conv e))).
Proof. reflexivity. Qed.

Lemma lunwrap_Ok {Ev E E' A} (a : A) :
  lunwrap (Ev:=Ev) (E:=E) (E':=E') (Ok a) = ([], Ok a).
Proof. reflexivity. Qed.

Lemma lunwrap_Err {Ev E E' A} (e : E') :
  lunwrap (Ev:=Ev) (E:=E) (A:=A) (Err e) = ([], Err (Panic unwrap_msg)).
Proof. reflexivity. Qed.

Lemma tell_eq {Ev E} (ev : Ev) : tell (E:=E) ev = ([ev], Ok tt).
Proof. reflexivity. Qed.

Lemma lret_eq {Ev E A} (a : A) : lret (Ev:=Ev) (E:=E) a = ([], Ok a).
Proof. reflexivity. Qed.

Lemma lbind_pair_Ok {Ev E A B} (l : list Ev) (a : A) (k : A -> logged Ev E B) :
  lbind (l, Ok a) k = (l ++ (k a).1, (k a).2).
Proof. unfold lbind. by destruct (k a). Qed.

Lemma lbind_pair_Err {Ev E A B} (l : list Ev) (e : exit E) (k : A -> logged Ev E B) :
  lbind (l, Err e) k = (l, Err e).
Proof. reflexivity. Qed.

#[export] Hint Rewrite @rbind_Ok @rbind_Err @ltry_Ok @ltry_Err @lunwrap_Ok @lunwrap_Err
  @tell_eq @lret_eq @lbind_pair_Ok @lbind_pair_Err : hf_rw.

(** Decompose the hypotheses [rbind m k = Ok b] produced by a chain of [?]. *)
Ltac result_inv :=
  repeat match goal with
  | H : rbind _ _ = Ok _ |- _ =>
      apply rbind_eq_Ok in H as (? & ? & H)
  | H : map_err _ _ = Ok _ |- _ => apply map_err_eq_Ok in H
  | H : Ok _ = Ok _ |- _ => injection H as H
  | H : Err _ = Ok _ |- _ => discriminate H
  | H : Ok _ = Err _ |- _ => discriminate H
  end; subst.

(** The list lemmas the tensor and tokenizer models share. *)

Lemma length_insert_at {A} (l : list A) (d : nat) (x : A) :
  d <= length l -> length (take d l ++ x :: drop d l) = S (length l).
Proof. intros. rewrite length_app; simpl. rewrite length_take, length_drop. lia. Qed.

Lemma foldr_mul_insert_one (l : list nat) (d : nat) :
  foldr Nat.mul 1 (take d l ++ 1 :: drop d l) = foldr Nat.mul 1 l.
Proof.
  rewrite foldr_app; simpl. rewrite Nat.add_0_r.
  rewrite <- foldr_app, take_drop. done.
Qed.

(** Reading [n] consecutive elements by index from [b] is slicing. *)
Lemma map_nth_seq {A} (l : list A) (d : A) (b n : nat) :
  b + n <= length l ->
  map (fun k => nth (b + k) l d) (seq 0 n) = take n (drop b l).
Proof.
  induction n as [|n IH]; intros Hlen; [done|].
  rewrite seq_S, map_app, IH by lia. simpl.
  destruct (nth_lookup_or_length l (b + n) d) as [Hl|Hl]; [|lia].
  rewrite (take_S_r _ _ (nth (b + n) l d)); [done|].
  by rewrite lookup_drop.
Qed.

(** Consecutive slices of width [m] concatenate to one slice. *)
Lemma concat_map_slices {A} (l : list A) (b m n : nat) :
  List.concat (map (fun j => take m (drop (b + j * m) l)) (seq 0 n)) =
  take (n * m) (drop b l).
Proof.
  induction n as [|n IH]; [done|].
  rewrite seq_S, map_app, concat_app, IH. simpl. rewrite app_nil_r.
  replace (b + (0 + n) * m) with (b + n * m) by lia.
  rewrite <- drop_drop, take_take_drop. f_equal. lia.
Qed.

Lemma rmap_Forall2 {A B E} (f : A -> result B E) l l' :
  rmap f l = Ok l' -> Forall2 (fun x y => f x = Ok y) l l'.
Proof.
  revert l'. induction l as [|x l IH]; simpl; intros l' H.
  - injection H as <-. constructor.
  - destruct (f x) eqn:Hx; [|done]. destruct (rmap f l) eqn:Hl; [|done].
    injection H as <-. constructor; auto.
Qed.

Lemma rmap_total {A B E} (f : A -> result B E) l :
  (forall x, x ∈ l -> exists y, f x = Ok y) -> exists l', rmap f l = Ok l'.
Proof.
  induction l as [|x l IH]; simpl; intros Hall; [eauto|].
  destruct (Hall x) as [y ->]; [set_solver|].
  destruct IH as [l' ->]; [intros z Hz; apply Hall; set_solver|]. eauto.
Qed.

Lemma length_concat_uniform {A} (rows : list (list A)) (h : nat) :
  Forall (fun r => length r = h) rows -> length (List.concat rows) = length rows * h.
Proof.
  induction 1 as [|r rows Hr _ IH]; simpl; [done|].
  rewrite length_app, IH. lia.
Qed.

(** Step through a logged computation in hypothesis [H]: case on the result
    of each [ltry] / [lunwrap], discarding the failing branches.  The
    combinators are kept folded so that the case analysis sees them. *)
Arguments ltry : simpl never.
Arguments lunwrap : simpl never.
Arguments tell : simpl never.

Ltac logged_simpl H := autorewrite with hf_rw in H; cbn [fst snd app] in H.

Ltac logged_inv H :=
  repeat (logged_simpl H;
    lazymatch type of H with
    | context [ltry _ ?m] =>
        lazymatch m with
        | Ok _ => fail
        | Err _ => fail
        | _ => let E := fresh "E" in destruct m eqn:E
        end
    | context [lunwrap ?m] =>
        lazymatch m with
        | Ok _ => fail
        | Err _ => fail
        | _ => let E := fresh "E" in destruct m eqn:E
        end
    end); logged_simpl H.

Lemma sum_list_app (l1 l2 : list nat) : sum_list (l1 ++ l2) = sum_list l1 + sum_list l2.
Proof. induction l1 as [|x l1 IH]; simpl; [done|]. rewrite IH. lia. Qed.

Lemma elem_of_rev {A} (x : A) (l : list A) : x ∈ rev l <-> x ∈ l.
Proof. rewrite !list_elem_of_In. symmetry. apply in_rev. Qed.

(** [f()?.unwrap()]-style: run a logged computation of another event type
    and unwrap its result; an error becomes a panic. *)
Definition lunwrap_sub {Ev Ev' E E' A} (f : Ev' -> Ev) (m : logged Ev' E' A) : logged Ev E A :=
  (map f m.1, match m.2 with
              | Ok a => Ok a
              | Err (Raise _) => Err (Panic unwrap_msg)
              | Err (Panic msg) => Err (Panic msg)
              end).

Lemma lunwrap_sub_Ok {Ev Ev' E E' A} (f : Ev' -> Ev) (l : list Ev') (a : A) :
  lunwrap_sub (E:=E) (E':=E') f (l, Ok a) = (map f l, Ok a).
Proof. reflexivity. Qed.

Lemma lunwrap_sub_Raise {Ev Ev' E E' A} (f : Ev' -> Ev) (l : list Ev') (e : E') :
  lunwrap_sub (E:=E) (A:=A) f (l, Err (Raise e)) = (map f l, Err (Panic unwrap_msg)).
Proof. reflexivity. Qed.

#[export] Hint Rewrite @lunwrap_sub_Ok @lunwrap_sub_Raise : hf_rw.

(** ** Lists updated by index *)

(** A property of every entry survives an update that establishes it for
    the updated entry. *)
Lemma lookup_insert_forall {A} (P : nat -> A -> Prop) (l : list A) (i : nat) (x : A) :
  (forall j y, l !! j = Some y -> j <> i -> P j y) -> P i x ->
  forall j y, <[i := x]> l !! j = Some y -> P j y.
Proof.
  intros Hl Hx j y Hy.
  apply list_lookup_insert_Some in Hy as [(<- & <- & _)|(Hne & Hy)]; [done|].
  apply (Hl j y Hy). congruence.
Qed.

Lemma Forall_insert_inv {A} (P : A -> Prop) (l : list A) (i : nat) (x y : A) :
  Forall P (<[i := y]> l) -> l !! i = Some x -> P x -> Forall P l.
Proof.
  rewrite !Forall_lookup. intros Hall Hi Hx j z Hj.
  destruct (decide (i = j)) as [<-|Hne]; [congruence|].
  apply (Hall j). by rewrite list_lookup_insert_ne.
Qed.

Lemma lookup_insert_here {A} (l : list A) (i : nat) (x y : A) :
  l !! i = Some x -> <[i := y]> l !! i = Some y.
Proof.
  intros Hi. apply list_lookup_insert_Some. left. split; [done|]. split; [done|].
  by eapply lookup_lt_Some.
Qed.

(** Updating one entry changes a sum over the list by the difference. *)
Lemma sum_list_map_insert {A} (f : A -> nat) (l : list A) (i : nat) (x y : A) :
  l !! i = Some x -> sum_list (map f (<[i := y]> l)) + f x = sum_list (map f l) + f y.
Proof.
  revert i. induction l as [|a l IH]; intros [|i] Hi; simpl in *; try done.
  - injection Hi as ->. lia.
  - specialize (IH i Hi). lia.
Qed.

Lemma map_insert {A B} (f : A -> B) (l : list A) (i : nat) (y : A) :
  map f (<[i := y]> l) = <[i := f y]> (map f l).
Proof.
  revert i. induction l as [|a l IH]; intros [|i]; simpl; try done. by rewrite IH.
Qed.

Lemma map_insert_lookup {A B} (f : A -> B) (l : list A) (i : nat) (x : A) :
  l !! i = Some x -> map f l !! i = Some (f x).
Proof.
  revert i. induction l as [|a l IH]; intros [|i] Hi; simpl in *;
    first [done | by injection Hi as -> | by apply IH].
Qed.
