(* ===== verification/Tensor.v ===== *)
(** * Tensors: the part of candle's [Tensor] API the server calls

    [src/src/model.rs] builds the model input with [Tensor::new],
    [unsqueeze(0)] and [zeros_like] (lines 100-101), and [src/src/main.rs]
    turns the output into nested vectors with [to_vec3] (line 40).  A tensor
    is a contiguous CPU storage with a shape; the operations follow candle's
    definitions, their errors included.  Floating-point values are Rocq's
    primitive binary64 floats standing for candle's [f32]: no theorem here
    depends on their arithmetic, only on where they are stored. *)

From S2P Require Import Prelude.
From Stdlib Require Import PrimFloat ZArith.

Module Tensor.

(** candle's [Device]: the program only ever creates [Device::Cpu]
    (model.rs line 32). *)
Inductive Device := Cpu.

Inductive DType := U32 | F32.

#[export] Instance DType_eq_dec : EqDecision DType.
Proof. solve_decision. Defined.

(** [CpuStorage], restricted to the two element types the program uses:
    token ids are [u32], embeddings are [f32]. *)
Inductive CpuStorage :=
| U32Storage (xs : list Z)
| F32Storage (xs : list float).

Record Tensor := mkTensor {
  storage : CpuStorage;
  shape : list nat;
  device : Device
}.

(** The errors of [candle_core::Error] that these operations raise. *)
Inductive CandleError :=
| UnexpectedNumberOfDims (expected got : nat) (shp : list nat)
| UnexpectedDType (msg : string) (expected got : DType)
| DimOutOfRange (shp : list nat) (dim : nat) (op : string)
| InvalidIndex (op : string) (index size : nat).

Definition dtype (t : Tensor) : DType :=
  match storage t with U32Storage _ => U32 | F32Storage _ => F32 end.

Definition storage_len (s : CpuStorage) : nat :=
  match s with U32Storage xs => length xs | F32Storage xs => length xs end.

(** [Shape::elem_count]: the product of the dimensions. *)
Definition elem_count (shp : list nat) : nat := foldr Nat.mul 1 shp.

Definition rank (t : Tensor) : nat := length (shape t).

(** A tensor is well formed when its storage holds exactly as many elements
    as its shape describes (candle's contiguous layout at offset 0). *)
Definition tensor_wf (t : Tensor) : Prop :=
  storage_len (storage t) = elem_count (shape t).

#[export] Instance tensor_wf_dec t : Decision (tensor_wf t).
Proof. unfold tensor_wf. apply _. Defined.

(** [u32] range of a token id. *)
Definition u32_range (z : Z) : Prop := (0 <= z < 2 ^ 32)%Z.

(** [Tensor::new(&tokens[..], device)] on a [u32] slice: a rank-1 tensor. *)
Definition new_u32 (data : list Z) (dev : Device) : result Tensor CandleError :=
  Ok {| storage := U32Storage data; shape := [length data]; device := dev |}.

(** [Tensor::unsqueeze(dim)]: [dim] may be at most the rank
    ([Dim::to_index_plus_one]); a dimension of size 1 is inserted there. *)
Definition unsqueeze (t : Tensor) (dim : nat) : result Tensor CandleError :=
  if decide (length (shape t) < dim)
  then Err (DimOutOfRange (shape t) dim "unsqueeze")
  else Ok {| storage := storage t;
             shape := take dim (shape t) ++ 1 :: drop dim (shape t);
             device := device t |}.

Definition zeros_storage (dt : DType) (n : nat) : CpuStorage :=
  match dt with
  | U32 => U32Storage (replicate n 0%Z)
  | F32 => F32Storage (replicate n 0%float)
  end.

(** [Tensor::zeros_like]: same shape, dtype and device, all zeros. *)
Definition zeros_like (t : Tensor) : result Tensor CandleError :=
  Ok {| storage := zeros_storage (dtype t) (elem_count (shape t));
        shape := shape t; device := device t |}.

(** [Shape::dims3] *)
Definition dims3 (t : Tensor) : result (nat * nat * nat) CandleError :=
  match shape t with
  | [d1; d2; d3] => Ok (d1, d2, d3)
  | s => Err (UnexpectedNumberOfDims 3 (length s) s)
  end.

(** The loop of [to_vec3]: rows are read in the order of the strided index
    of a contiguous layout, i.e. element [(i, j, k)] is [data[i*d2*d3 +
    j*d3 + k]]. *)
Definition vec3_of (data : list float) (d1 d2 d3 : nat) : list (list (list float)) :=
  map (fun i =>
    map (fun j =>
      map (fun k => nth (i * d2 * d3 + j * d3 + k) data 0%float) (seq 0 d3))
      (seq 0 d2))
    (seq 0 d1).

(** [Tensor::to_vec3::<f32>]: [dims3] first, then the storage must be
    [f32] ([cpu_storage_as_slice]). *)
Definition to_vec3 (t : Tensor) : result (list (list (list float))) CandleError :=
  ds <- dims3 t ;;
  let '(d1, d2, d3) := ds in
  match storage t with
  | F32Storage data => Ok (vec3_of data d1 d2 d3)
  | U32Storage _ => Err (UnexpectedDType "unexpected dtype" F32 U32)
  end.

(** The nested vectors flattened row by row, the inverse of [to_vec3]. *)
Definition flatten3 (v : list (list (list float))) : list float :=
  List.concat (map (@List.concat float) v).

(** ** Well-formedness *)

Lemma new_u32_wf data dev t : new_u32 data dev = Ok t -> tensor_wf t.
Proof. intros [= <-]. unfold tensor_wf; simpl; lia. Qed.

(** [unsqueeze] preserves well-formedness: inserting a dimension of
    size 1 leaves the element count equal to the storage length. *)
Lemma unsqueeze_wf t dim t' :
  tensor_wf t -> unsqueeze t dim = Ok t' -> tensor_wf t'.
Proof.
  unfold unsqueeze, tensor_wf, elem_count. case_decide; [done|].
  intros Hwf [= <-]; simpl. by rewrite foldr_mul_insert_one.
Qed.

Lemma zeros_like_wf t t' : zeros_like t = Ok t' -> tensor_wf t'.
Proof.
  intros [= <-]. unfold tensor_wf; simpl.
  destruct (dtype t); simpl; by rewrite length_replicate.
Qed.

#[export] Hint Resolve new_u32_wf zeros_like_wf : hf.

(** ** Shapes *)

Lemma unsqueeze_shape t dim t' :
  unsqueeze t dim = Ok t' ->
  dim <= rank t /\ shape t' = take dim (shape t) ++ 1 :: drop dim (shape t)
  /\ storage t' = storage t.
Proof. unfold unsqueeze, rank. case_decide; [done|]. intros [= <-]. simpl. split; [lia | done]. Qed.

(** ** [to_vec3] *)

(** [to_vec3] on a tensor whose rank is not 3 fails with
    [UnexpectedNumberOfDims], reporting the rank and the shape. *)
Lemma to_vec3_rank_error t :
  rank t <> 3 ->
  to_vec3 t = Err (UnexpectedNumberOfDims 3 (rank t) (shape t)).
Proof.
  unfold to_vec3, dims3, rank. intros H.
  destruct (shape t) as [|? [|? [|? [|? ?]]]]; simpl in *; congruence.
Qed.

Lemma to_vec3_dtype_error t d1 d2 d3 :
  shape t = [d1; d2; d3] -> dtype t = U32 ->
  to_vec3 t = Err (UnexpectedDType "unexpected dtype" F32 U32).
Proof.
  unfold to_vec3, dims3, dtype. intros -> Hd; simpl.
  by destruct (storage t).
Qed.

(** The index read by [to_vec3] at [(i, j, k)] stays inside a well-formed
    storage, so the Rust indexing [data[..]] never panics. *)
Lemma vec3_index_bound d1 d2 d3 i j k :
  i < d1 -> j < d2 -> k < d3 -> i * d2 * d3 + j * d3 + k < d1 * d2 * d3.
Proof.
  intros Hi Hj Hk.
  assert (j * d3 + k < d2 * d3) by nia.
  assert (S i * (d2 * d3) <= d1 * (d2 * d3)) by (apply Nat.mul_le_mono_r; lia).
  nia.
Qed.

Lemma vec3_of_slices (data : list float) d1 d2 d3 :
  length data = d1 * d2 * d3 ->
  map (List.concat (A:=float)) (vec3_of data d1 d2 d3) =
  map (fun i => take (d2 * d3) (drop (0 + i * (d2 * d3)) data)) (seq 0 d1).
Proof.
  intros Hlen. unfold vec3_of. rewrite map_map.
  apply map_ext_in. intros i Hi%in_seq.
  erewrite map_ext_in.
  2:{ intros j Hj%in_seq. apply map_nth_seq. rewrite Hlen.
       pose proof (vec3_index_bound d1 d2 d3 i j (d3 - 1)). destruct d3; lia. }
  rewrite concat_map_slices.
  by replace (0 + i * (d2 * d3)) with (i * d2 * d3) by lia.
Qed.

Lemma vec3_of_dims (data : list float) d1 d2 d3 :
  length (vec3_of data d1 d2 d3) = d1 /\
  Forall (fun rows => length rows = d2 /\ Forall (fun r => length r = d3) rows)
         (vec3_of data d1 d2 d3).
Proof.
  unfold vec3_of. split; [by rewrite length_map, length_seq|].
  apply List.Forall_forall. intros rows (i & <- & _)%in_map_iff.
  cbv beta. rewrite length_map, length_seq. split; [done|].
  apply List.Forall_forall. intros r (j & <- & _)%in_map_iff.
  cbv beta. by rewrite length_map, length_seq.
Qed.

(** A successful [to_vec3] returns [d1] blocks of [d2] rows of [d3] values. *)
Lemma to_vec3_dims t v d1 d2 d3 :
  shape t = [d1; d2; d3] -> to_vec3 t = Ok v ->
  length v = d1 /\
  Forall (fun rows => length rows = d2 /\ Forall (fun r => length r = d3) rows) v.
Proof.
  unfold to_vec3, dims3. intros ->. simpl.
  destruct (storage t); [done|]. intros [= <-]. apply vec3_of_dims.
Qed.

(** C29. [to_vec3] is lossless: on a well-formed [f32] tensor of shape
    [d1 x d2 x d3] it returns [d1] blocks of [d2] rows of [d3] values which,
    flattened row by row, are exactly the storage. *)
Lemma to_vec3_flatten t v data d1 d2 d3 :
  tensor_wf t -> storage t = F32Storage data -> shape t = [d1; d2; d3] ->
  to_vec3 t = Ok v ->
  flatten3 v = data /\ length v = d1 /\
  Forall (fun rows => length rows = d2 /\ Forall (fun r => length r = d3) rows) v.
Proof.
  unfold tensor_wf, to_vec3, dims3, elem_count.
  intros Hwf Hs Hsh. rewrite Hs, Hsh in *; simpl in *.
  rewrite Nat.mul_1_r, Nat.mul_assoc in Hwf. intros [= <-].
  split; [|apply vec3_of_dims].
  unfold flatten3. rewrite vec3_of_slices by done.
  rewrite concat_map_slices, drop_0, take_ge; [done | nia].
Qed.

(** Element [(i, j, k)] of the result of [to_vec3] is element
    [i*d2*d3 + j*d3 + k] of the storage, read in range. *)
Lemma to_vec3_lookup t v data d1 d2 d3 i j k :
  tensor_wf t -> storage t = F32Storage data -> shape t = [d1; d2; d3] ->
  to_vec3 t = Ok v -> i < d1 -> j < d2 -> k < d3 ->
  exists x rows r, data !! (i * d2 * d3 + j * d3 + k) = Some x /\
    v !! i = Some rows /\ rows !! j = Some r /\ r !! k = Some x.
Proof.
  unfold tensor_wf, to_vec3, dims3, elem_count.
  intros Hwf Hs Hsh. rewrite Hs, Hsh in *; simpl in *.
  rewrite Nat.mul_1_r, Nat.mul_assoc in Hwf. intros [= <-] Hi Hj Hk.
  destruct (nth_lookup_or_length data (i * d2 * d3 + j * d3 + k) 0%float)
    as [Hl|Hl]; [|pose proof (vec3_index_bound d1 d2 d3 i j k); lia].
  do 3 eexists; split; [exact Hl|]. unfold vec3_of.
  split; [by rewrite list_lookup_fmap, lookup_seq_lt|].
  split; [by rewrite list_lookup_fmap, lookup_seq_lt|].
  by rewrite list_lookup_fmap, lookup_seq_lt.
Qed.

Definition demo_f32 : Tensor :=
  mkTensor (F32Storage [1; 2; 3; 4; 5; 6]%float) [1; 2; 3] Cpu.

Definition demo_rows : list (list (list float)) :=
  [[[1; 2; 3]; [4; 5; 6]]]%float.

Lemma to_vec3_flatten_witness :
  tensor_wf demo_f32 /\ storage demo_f32 = F32Storage [1; 2; 3; 4; 5; 6]%float /\
  shape demo_f32 = [1; 2; 3] /\ to_vec3 demo_f32 = Ok demo_rows /\
  (flatten3 demo_rows = [1; 2; 3; 4; 5; 6]%float /\ length demo_rows = 1 /\
   Forall (fun rows => length rows = 2 /\ Forall (fun r => length r = 3) rows) demo_rows).
Proof.
  assert (H1 : tensor_wf demo_f32) by (vm_compute; reflexivity).
  assert (H2 : storage demo_f32 = F32Storage [1; 2; 3; 4; 5; 6]%float) by reflexivity.
  assert (H3 : shape demo_f32 = [1; 2; 3]) by reflexivity.
  assert (H4 : to_vec3 demo_f32 = Ok demo_rows) by (vm_compute; reflexivity).
  exact (conj H1 (conj H2 (conj H3 (conj H4 (to_vec3_flatten _ _ _ _ _ _ H1 H2 H3 H4))))).
Defined.

Lemma to_vec3_lookup_witness :
  tensor_wf demo_f32 /\ storage demo_f32 = F32Storage [1; 2; 3; 4; 5; 6]%float /\
  shape demo_f32 = [1; 2; 3] /\ to_vec3 demo_f32 = Ok demo_rows /\ 0 < 1 /\ 1 < 2 /\ 2 < 3 /\
  exists x rows r, [1; 2; 3; 4; 5; 6]%float !! (0 * 2 * 3 + 1 * 3 + 2) = Some x /\
    demo_rows !! 0 = Some rows /\ rows !! 1 = Some r /\ r !! 2 = Some x.
Proof.
  assert (H1 : tensor_wf demo_f32) by (vm_compute; reflexivity).
  assert (H2 : storage demo_f32 = F32Storage [1; 2; 3; 4; 5; 6]%float) by reflexivity.
  assert (H3 : shape demo_f32 = [1; 2; 3]) by reflexivity.
  assert (H4 : to_vec3 demo_f32 = Ok demo_rows) by (vm_compute; reflexivity).
  assert (H5 : 0 < 1) by lia. assert (H6 : 1 < 2) by lia. assert (H7 : 2 < 3) by lia.
  exact (conj H1 (conj H2 (conj H3 (conj H4 (conj H5 (conj H6 (conj H7
    (to_vec3_lookup _ _ _ _ _ _ _ _ _ H1 H2 H3 H4 H5 H6 H7)))))))).
Defined.

Lemma to_vec3_rank_error_witness :
  rank (mkTensor (F32Storage [1; 2]%float) [1; 2] Cpu) <> 3 /\
  to_vec3 (mkTensor (F32Storage [1; 2]%float) [1; 2] Cpu) =
    Err (UnexpectedNumberOfDims 3 2 [1; 2]).
Proof.
  assert (H : rank (mkTensor (F32Storage [1; 2]%float) [1; 2] Cpu) <> 3) by (vm_compute; lia).
  exact (conj H (to_vec3_rank_error _ H)).
Defined.

Lemma unsqueeze_wf_witness :
  tensor_wf (mkTensor (U32Storage [7; 8; 9]%Z) [3] Cpu) /\
  unsqueeze (mkTensor (U32Storage [7; 8; 9]%Z) [3] Cpu) 1 =
    Ok (mkTensor (U32Storage [7; 8; 9]%Z) [3; 1] Cpu) /\
  tensor_wf (mkTensor (U32Storage [7; 8; 9]%Z) [3; 1] Cpu).
Proof.
  assert (H1 : tensor_wf (mkTensor (U32Storage [7; 8; 9]%Z) [3] Cpu)) by (vm_compute; reflexivity).
  assert (H2 : unsqueeze (mkTensor (U32Storage [7; 8; 9]%Z) [3] Cpu) 1 =
               Ok (mkTensor (U32Storage [7; 8; 9]%Z) [3; 1] Cpu)) by (vm_compute; reflexivity).
  exact (conj H1 (conj H2 (unsqueeze_wf _ _ _ H1 H2))).
Defined.

End Tensor.
