(* ===== verification/Tokenizer.v ===== *)
(** * The tokenizer adapter: [tokenizers::TokenizerImpl] as the program uses it

    [Bert::new] (model.rs lines 60-69) loads a tokenizer, clears its padding
    and truncation ([with_padding(None)], [with_truncation(None)]) and keeps
    it; [Bert::predict] (model.rs lines 93-98) calls [encode(prompt, true)]
    and keeps [get_ids()].  The record [TokenizerImpl] holds the parts of the
    tokenizer those calls read or write.  The normaliser, pre-tokeniser,
    model and added vocabulary run first and are one opaque function
    [encode_single] of the record (the content of [tokenizer.json]); the
    post-processing that [encode] applies after it is written out: truncation,
    the special tokens of the post-processor, then padding, in that order
    ([TokenizerImpl::post_process]). *)

From S2P Require Import Prelude.
From Stdlib Require Import ZArith.

Module Tokenizer.

Record Encoding := mkEncoding {
  ids : list Z;
  type_ids : list Z
}.

Inductive PaddingStrategy :=
| BatchLongest
| Fixed (size : nat).

Record PaddingParams := mkPaddingParams {
  strategy : PaddingStrategy;
  pad_to_multiple_of : option nat;
  pad_id : Z;
  pad_type_id : Z
}.

Record TruncationParams := mkTruncationParams {
  max_length : nat;
  stride : nat
}.

(** The post-processors of BERT-style [tokenizer.json] files, for a single
    sequence: [BertProcessing] surrounds it with [CLS] and [SEP];
    [TemplateProcessing] with the special tokens of its [single] template
    before and after [$A]. *)
Inductive PostProcessor :=
| BertProcessing (sep cls : Z)
| TemplateProcessing (single_pre single_post : list Z).

Record TokenizerImpl := mkTokenizer {
  encode_single : string -> result (list Z) string;
  post_processor : option PostProcessor;
  truncation : option TruncationParams;
  padding : option PaddingParams
}.

(** [TokenizerImpl::get_n_added_tokens(false)] *)
Definition n_added_tokens (pp : option PostProcessor) : nat :=
  match pp with
  | Some (BertProcessing _ _) => 2
  | Some (TemplateProcessing pre post) => length pre + length post
  | None => 0
  end.

(** [usize] subtraction, which wraps modulo [2^64] in a release build. *)
Definition usize_sub (a b : nat) : Z := ((Z.of_nat a - Z.of_nat b) mod 2 ^ 64)%Z.

(** [TokenizerImpl::with_padding] *)
Definition with_padding (p : option PaddingParams) (tk : TokenizerImpl) : TokenizerImpl :=
  {| encode_single := encode_single tk; post_processor := post_processor tk;
     truncation := truncation tk; padding := p |}.

(** [TokenizerImpl::with_truncation]: [Some] parameters are rejected when the
    length left after the special tokens is below the stride. *)
Definition with_truncation (p : option TruncationParams) (tk : TokenizerImpl)
  : result TokenizerImpl string :=
  let tk' := {| encode_single := encode_single tk; post_processor := post_processor tk;
                truncation := p; padding := padding tk |} in
  match p with
  | Some tp =>
      if decide (usize_sub (max_length tp) (n_added_tokens (post_processor tk))
                 < Z.of_nat (stride tp))%Z
      then Err "tokenizer truncation: max_length too short for stride"
      else Ok tk'
  | None => Ok tk'
  end.

(** [Encoding::truncate] to the right: an encoding no longer than the limit
    is kept whole.  The limit is the wrapped [usize] difference. *)
Definition truncate (limit : Z) (e : Encoding) : Encoding :=
  if decide (Z.of_nat (length (ids e)) <= limit)%Z then e
  else mkEncoding (take (Z.to_nat limit) (ids e)) (take (Z.to_nat limit) (type_ids e)).

Definition truncate_step (tk : TokenizerImpl) (e : Encoding) (add_special : bool) : Encoding :=
  match truncation tk with
  | Some tp =>
      let n := n_added_tokens (post_processor tk) in
      if add_special && bool_decide (0 < n)
      then truncate (usize_sub (max_length tp) n) e
      else truncate (Z.of_nat (max_length tp)) e
  | None => e
  end.

(** [PostProcessor::process] for one sequence. *)
Definition process (pp : option PostProcessor) (e : Encoding) (add_special : bool) : Encoding :=
  match pp, add_special with
  | Some (BertProcessing sep cls), true =>
      mkEncoding (cls :: ids e ++ [sep]) (0%Z :: type_ids e ++ [0%Z])
  | Some (TemplateProcessing pre post), true =>
      mkEncoding (pre ++ ids e ++ post)
                 (replicate (length pre) 0%Z ++ type_ids e ++ replicate (length post) 0%Z)
  | _, _ => e
  end.

(** The target length of [pad_encodings] for one encoding of length [len]. *)
Definition pad_length (p : PaddingParams) (len : nat) : nat :=
  let base := match strategy p with BatchLongest => len | Fixed n => n end in
  match pad_to_multiple_of p with
  | Some m => if bool_decide (0 < m) && bool_decide (0 < base mod m)
              then base + (m - base mod m) else base
  | None => base
  end.

(** [Encoding::pad] to the right. *)
Definition pad (p : PaddingParams) (e : Encoding) : Encoding :=
  let target := pad_length p (length (ids e)) in
  if decide (target <= length (ids e)) then e
  else mkEncoding (ids e ++ replicate (target - length (ids e)) (pad_id p))
                  (type_ids e ++ replicate (target - length (ids e)) (pad_type_id p)).

(** [TokenizerImpl::post_process] *)
Definition post_process (tk : TokenizerImpl) (e : Encoding) (add_special : bool) : Encoding :=
  let e1 := truncate_step tk e add_special in
  let e2 := process (post_processor tk) e1 add_special in
  match padding tk with
  | Some p => pad p e2
  | None => e2
  end.

(** [TokenizerImpl::encode(input, add_special_tokens)]: the sequence gets
    type id 0 ([encode_single_sequence(sequence, 0, ..)]). *)
Definition encode (tk : TokenizerImpl) (input : string) (add_special : bool)
  : result Encoding string :=
  toks <- encode_single tk input ;;
  Ok (post_process tk (mkEncoding toks (replicate (length toks) 0%Z)) add_special).

(** ** A small concrete tokenizer

    A word-level tokenizer over a whitespace pre-tokeniser, with a BERT
    template ([CLS] = 2 before, [SEP] = 3 after, unknown words 1) and padding
    and truncation settings such as a [tokenizer.json] may carry; it makes
    the theorems below runnable on concrete text. *)

Fixpoint words_aux (s : string) (cur : list Ascii.ascii) : list string :=
  match s with
  | EmptyString =>
      match cur with [] => [] | _ => [String.string_of_list_ascii (rev cur)] end
  | String c s' =>
      if Ascii.eqb c (Ascii.ascii_of_nat 32)
      then match cur with
           | [] => words_aux s' []
           | _ => String.string_of_list_ascii (rev cur) :: words_aux s' []
           end
      else words_aux s' (c :: cur)
  end.

(** Text outside printable ASCII cannot be segmented by this vocabulary. *)
Definition printable (c : Ascii.ascii) : bool :=
  (32 <=? Ascii.N_of_ascii c)%N && (Ascii.N_of_ascii c <? 127)%N.

Definition word_level (vocab : list (string * Z)) (unk : Z) (s : string)
  : result (list Z) string :=
  if forallb printable (String.list_ascii_of_string s)
  then Ok (map (fun w => default unk (snd <$> List.find (fun p => String.eqb (fst p) w) vocab))
               (words_aux s []))
  else Err "invalid character in input".

Definition demo_vocab : list (string * Z) :=
  [("[PAD]", 0%Z); ("[UNK]", 1%Z); ("[CLS]", 2%Z); ("[SEP]", 3%Z);
   ("hello", 4%Z); ("world", 5%Z)].

Definition demo_tokenizer : TokenizerImpl :=
  {| encode_single := word_level demo_vocab 1%Z;
     post_processor := Some (TemplateProcessing [2%Z] [3%Z]);
     truncation := Some (mkTruncationParams 4 0);
     padding := Some (mkPaddingParams (Fixed 8) None 0%Z 0%Z) |}.

Definition bert_tokenizer : TokenizerImpl :=
  {| encode_single := word_level demo_vocab 1%Z;
     post_processor := Some (BertProcessing 3%Z 2%Z);
     truncation := None; padding := None |}.

(** ** Post-processing *)

Lemma process_length pp e :
  length (ids (process pp e true)) = length (ids e) + n_added_tokens pp.
Proof.
  destruct pp as [[sep cls|pre post]|]; simpl; rewrite ?length_app; simpl; lia.
Qed.

Lemma post_process_unset tk e b :
  padding tk = None -> truncation tk = None ->
  post_process tk e b = process (post_processor tk) e b.
Proof. intros Hp Ht. unfold post_process, truncate_step. by rewrite Hp, Ht. Qed.

#[export] Hint Rewrite process_length : hf_rw.

(** Without padding and truncation, [encode(text, true)] yields the model's
    tokens with the post-processor's special tokens added: the length of the
    sequence is the token count plus the fixed number of added tokens, and an
    error of the model stage is returned unchanged. *)
Lemma encode_unset_length tk s :
  padding tk = None -> truncation tk = None ->
  match encode_single tk s with
  | Ok toks => exists e, encode tk s true = Ok e /\
                 length (ids e) = length toks + n_added_tokens (post_processor tk)
  | Err m => encode tk s true = Err m
  end.
Proof.
  intros Hp Ht. unfold encode.
  destruct (encode_single tk s) as [toks|m]; simpl; [|done].
  eexists; split; [done|]. by rewrite post_process_unset, process_length.
Qed.

(** ** Padding *)

Lemma pad_ids_length p e :
  length (ids (pad p e)) = Nat.max (length (ids e)) (pad_length p (length (ids e))).
Proof.
  unfold pad. case_decide; simpl; [lia|].
  rewrite length_app, length_replicate. lia.
Qed.

(** Padding to a multiple [m > 0] yields a target length divisible by
    [m]. *)
Lemma pad_length_multiple p len m :
  pad_to_multiple_of p = Some m -> 0 < m ->
  (pad_length p len) mod m = 0.
Proof.
  intros Hm Hpos. unfold pad_length. rewrite Hm.
  set (base := match strategy p with BatchLongest => len | Fixed n => n end).
  destruct (bool_decide_reflect (0 < m)) as [_|]; [|lia]. simpl.
  destruct (bool_decide_reflect (0 < base mod m)) as [Hb|Hb].
  - pose proof (Nat.mod_upper_bound base m ltac:(lia)).
    replace (base + (m - base mod m)) with ((base / m + 1) * m).
    + apply Nat.Div0.mod_mul.
    + rewrite (Nat.div_mod_eq base m) at 2. nia.
  - lia.
Qed.

(** ** Truncation parameters and [usize] wrap-around *)

(** [with_truncation(None)] always succeeds: the [unwrap] that follows it in
    [Bert::new] cannot panic. *)
Lemma with_truncation_None tk :
  with_truncation None tk =
  Ok {| encode_single := encode_single tk; post_processor := post_processor tk;
        truncation := None; padding := padding tk |}.
Proof. reflexivity. Qed.

Lemma usize_sub_wrap a b :
  a < b -> (Z.of_nat b <= 2 ^ 64)%Z -> usize_sub a b = (2 ^ 64 + Z.of_nat a - Z.of_nat b)%Z.
Proof.
  intros Hab Hb. unfold usize_sub. symmetry.
  apply (Z.mod_unique _ _ (-1)); lia.
Qed.

(** A [max_length] below the number of special tokens is not rejected:
    [max_length - n_added_tokens] wraps around to a huge [usize], which
    exceeds any stride below [2^63]. *)
Lemma with_truncation_wraps tk tp :
  max_length tp < n_added_tokens (post_processor tk) ->
  (Z.of_nat (n_added_tokens (post_processor tk)) < 2 ^ 32)%Z ->
  (Z.of_nat (stride tp) < 2 ^ 63)%Z ->
  is_ok (with_truncation (Some tp) tk) = true.
Proof.
  intros Hlt Hn Hs. unfold with_truncation.
  rewrite usize_sub_wrap by lia.
  case_decide; [lia | done].
Qed.

Lemma with_truncation_wraps_witness :
  max_length (mkTruncationParams 1 0) < n_added_tokens (post_processor demo_tokenizer) /\
  (Z.of_nat (n_added_tokens (post_processor demo_tokenizer)) < 2 ^ 32)%Z /\
  (Z.of_nat (stride (mkTruncationParams 1 0)) < 2 ^ 63)%Z /\
  is_ok (with_truncation (Some (mkTruncationParams 1 0)) demo_tokenizer) = true.
Proof.
  assert (H1 : max_length (mkTruncationParams 1 0) < n_added_tokens (post_processor demo_tokenizer))
    by (vm_compute; lia).
  assert (H2 : (Z.of_nat (n_added_tokens (post_processor demo_tokenizer)) < 2 ^ 32)%Z)
    by (vm_compute; reflexivity).
  assert (H3 : (Z.of_nat (stride (mkTruncationParams 1 0)) < 2 ^ 63)%Z)
    by (vm_compute; reflexivity).
  exact (conj H1 (conj H2 (conj H3 (with_truncation_wraps _ _ H1 H2 H3)))).
Defined.

Lemma pad_length_multiple_witness :
  pad_to_multiple_of (mkPaddingParams BatchLongest (Some 8) 0%Z 0%Z) = Some 8 /\ 0 < 8 /\
  pad_length (mkPaddingParams BatchLongest (Some 8) 0%Z 0%Z) 5 mod 8 = 0.
Proof.
  assert (H1 : pad_to_multiple_of (mkPaddingParams BatchLongest (Some 8) 0%Z 0%Z) = Some 8)
    by reflexivity.
  assert (H2 : 0 < 8) by lia.
  exact (conj H1 (conj H2 (pad_length_multiple _ 5 8 H1 H2))).
Defined.

End Tokenizer.
