(* ===== verification/Encoder.v ===== *)
(** * The encoder model: candle-transformers' [BertModel] behind a contract

    [Bert::new] parses [config.json] into a [Config], optionally replaces its
    activation (model.rs lines 76-78) and builds the network with
    [BertModel::load(vb, &config)] (line 80); [Bert::predict] runs
    [model.forward(&token_ids, &token_type_ids, None)] (line 105).  The
    numerics of BERT are out of scope: [BertBackend] is the contract the
    server relies on (shape of the output, when [forward] succeeds, when it
    fails), stated as the laws of a type class.  Client theorems in
    [Model.v] are proved against the class; [EmbeddingBackend] is one
    instance, the word-embedding lookup that opens BERT's forward pass,
    which shows the contract is satisfiable and makes the theorems runnable. *)

From S2P Require Import Prelude Tensor.
From Stdlib Require Import PrimFloat ZArith.
Import Tensor.

Module Encoder.

(** [candle_transformers::models::bert::HiddenAct] *)
Inductive HiddenAct := Gelu | GeluApproximate | Relu.

#[export] Instance HiddenAct_eq_dec : EqDecision HiddenAct.
Proof. solve_decision. Defined.

(** [bert::Config], its integer and enumerated fields; the floating-point
    fields (dropout, initializer range, layer-norm epsilon) are not read by
    the program and are left out. *)
Record Config := mkConfig {
  vocab_size : nat;
  hidden_size : nat;
  num_hidden_layers : nat;
  num_attention_heads : nat;
  intermediate_size : nat;
  hidden_act : HiddenAct;
  max_position_embeddings : nat;
  type_vocab_size : nat;
  pad_token_id : nat
}.

(** [config.hidden_act = HiddenAct::GeluApproximate] *)
Definition set_hidden_act (c : Config) (a : HiddenAct) : Config :=
  {| vocab_size := vocab_size c; hidden_size := hidden_size c;
     num_hidden_layers := num_hidden_layers c;
     num_attention_heads := num_attention_heads c;
     intermediate_size := intermediate_size c; hidden_act := a;
     max_position_embeddings := max_position_embeddings c;
     type_vocab_size := type_vocab_size c; pad_token_id := pad_token_id c |}.

(** The values of a [u32] tensor are all below [bound]. *)
Definition ids_below (t : Tensor) (bound : nat) : Prop :=
  match storage t with
  | U32Storage xs => Forall (fun x => 0 <= x < Z.of_nat bound)%Z xs
  | F32Storage _ => False
  end.

(** The contract of [BertModel].  [Weights] is what a [VarBuilder] reads
    from the weight file. *)
Class BertBackend := {
  Weights : Type;
  BertModel : Type;
  load : Weights -> Config -> result BertModel CandleError;
  model_config : BertModel -> Config;
  forward : BertModel -> Tensor -> Tensor -> result Tensor CandleError;

  (** the model is built from the configuration it was given *)
  load_config : forall w c m, load w c = Ok m -> model_config m = c;
  (** a [b x n] input gives a well-formed [f32] output of shape
      [b x n x hidden_size] *)
  forward_shape : forall m ids tys out b n,
    shape ids = [b; n] -> tensor_wf ids ->
    forward m ids tys = Ok out ->
    shape out = [b; n; hidden_size (model_config m)] /\ dtype out = F32 /\ tensor_wf out;
  (** in-range ids and type ids, and at most [max_position_embeddings]
      positions: the forward pass succeeds *)
  forward_total : forall m ids tys b n,
    shape ids = [b; n] -> shape tys = [b; n] -> tensor_wf ids -> tensor_wf tys ->
    ids_below ids (vocab_size (model_config m)) ->
    ids_below tys (type_vocab_size (model_config m)) ->
    n <= max_position_embeddings (model_config m) ->
    exists out, forward m ids tys = Ok out;
  (** more positions than the position-embedding table: an error *)
  forward_too_long : forall m ids tys b n,
    shape ids = [b; n] -> max_position_embeddings (model_config m) < n ->
    exists e, forward m ids tys = Err e
}.

(** ** An instance: the word-embedding layer *)

Record EmbModel := mkEmbModel {
  emb_config : Config;
  emb_table : list (list float)
}.

(** [Embedding::forward]: [index_select] of one row per id. *)
Definition lookup_row (table : list (list float)) (x : Z) : result (list float) CandleError :=
  match table !! Z.to_nat x with
  | Some row => if decide (0 <= x)%Z then Ok row
                else Err (InvalidIndex "index-select" 0 (length table))
  | None => Err (InvalidIndex "index-select" (Z.to_nat x) (length table))
  end.

Definition emb_forward (m : EmbModel) (ids tys : Tensor) : result Tensor CandleError :=
  match shape ids, storage ids with
  | [b; n], U32Storage xs =>
      if decide (max_position_embeddings (emb_config m) < n)
      then Err (InvalidIndex "index-select" n (max_position_embeddings (emb_config m)))
      else rows <- rmap (lookup_row (emb_table m)) xs ;;
           Ok (mkTensor (F32Storage (List.concat rows))
                        [b; n; hidden_size (emb_config m)] Cpu)
  | [_; _], F32Storage _ => Err (UnexpectedDType "index-select" U32 F32)
  | s, _ => Err (UnexpectedNumberOfDims 2 (length s) s)
  end.

Definition emb_wf (m : EmbModel) : Prop :=
  Forall (fun r => length r = hidden_size (emb_config m)) (emb_table m) /\
  length (emb_table m) = vocab_size (emb_config m).

(** Loading checks the table against the configuration, as [VarBuilder]
    checks every tensor's shape; a loaded model carries the evidence. *)
Definition WfEmbModel : Type := { m : EmbModel | emb_wf m }.

Definition emb_load_sig (table : list (list float)) (c : Config)
  : result WfEmbModel CandleError :=
  match decide (Forall (fun r => length r = hidden_size c) table /\ length table = vocab_size c) with
  | left H => Ok (exist emb_wf (mkEmbModel c table) H)
  | right _ => Err (UnexpectedNumberOfDims 2 (length table) [vocab_size c; hidden_size c])
  end.

Lemma lookup_row_length m x row :
  Forall (fun r => length r = hidden_size (emb_config m)) (emb_table m) ->
  lookup_row (emb_table m) x = Ok row -> length row = hidden_size (emb_config m).
Proof.
  unfold lookup_row. intros Hall.
  destruct (emb_table m !! Z.to_nat x) as [r|] eqn:Hr; [|done].
  case_decide; [|done]. intros [= <-].
  exact (Forall_lookup_1 (fun r : list float => length r = hidden_size (emb_config m)) _ _ _ Hall Hr).
Qed.

Lemma lookup_row_total (table : list (list float)) x :
  (0 <= x < Z.of_nat (length table))%Z -> exists row, lookup_row table x = Ok row.
Proof.
  intros Hx. unfold lookup_row.
  destruct (lookup_lt_is_Some_2 table (Z.to_nat x)) as [r ->]; [lia|].
  case_decide; [eauto | lia].
Qed.


Lemma emb_forward_shape m ids tys out b n :
  emb_wf m -> shape ids = [b; n] -> tensor_wf ids ->
  emb_forward m ids tys = Ok out ->
  shape out = [b; n; hidden_size (emb_config m)] /\ dtype out = F32 /\ tensor_wf out.
Proof.
  intros [Hrows _] Hs Hwf. unfold emb_forward, tensor_wf, elem_count in *. rewrite Hs in *.
  destruct (storage ids) as [xs|xs]; [|done]. simpl in Hwf.
  case_decide; [done|].
  destruct (rmap _ xs) as [rows|] eqn:Hr; simpl; [|done]. intros [= <-].
  split; [done|]. split; [done|]. simpl.
  apply rmap_Forall2 in Hr.
  rewrite (length_concat_uniform _ (hidden_size (emb_config m))).
  - rewrite <- (Forall2_length _ _ _ Hr), Hwf. lia.
  - eapply Forall2_Forall_r; [exact Hr|].
    apply Forall_forall. intros x _ y. by apply lookup_row_length.
Qed.

Lemma emb_load_config w c m : emb_load_sig w c = Ok m -> emb_config (proj1_sig m) = c.
Proof. unfold emb_load_sig. case_decide; [|done]. by intros [= <-]. Qed.

Lemma emb_forward_total (m : WfEmbModel) ids tys b n :
  shape ids = [b; n] -> ids_below ids (vocab_size (emb_config (proj1_sig m))) ->
  n <= max_position_embeddings (emb_config (proj1_sig m)) ->
  exists out, emb_forward (proj1_sig m) ids tys = Ok out.
Proof.
  destruct m as [m [Hrows Hlen]]; simpl. intros Hs Hids Hn.
  unfold emb_forward, ids_below in *. rewrite Hs.
  destruct (storage ids) as [xs|xs]; [|done].
  case_decide; [lia|].
  destruct (rmap_total (lookup_row (emb_table m)) xs) as [rows ->]; [|eauto].
  intros x Hx. apply lookup_row_total.
  rewrite Forall_forall in Hids. specialize (Hids x Hx). lia.
Qed.

Lemma emb_forward_too_long (m : EmbModel) ids tys b n :
  shape ids = [b; n] -> max_position_embeddings (emb_config m) < n ->
  exists e, emb_forward m ids tys = Err e.
Proof.
  intros Hs Hn. unfold emb_forward. rewrite Hs.
  destruct (storage ids); [case_decide; [eauto | lia] | eauto].
Qed.

Definition EmbeddingBackend : BertBackend := {|
  Weights := list (list float);
  BertModel := WfEmbModel;
  load := emb_load_sig;
  model_config m := emb_config (proj1_sig m);
  forward m := emb_forward (proj1_sig m);
  load_config := emb_load_config;
  forward_shape m ids tys out b n Hs Hwf Hf :=
    emb_forward_shape (proj1_sig m) ids tys out b n (proj2_sig m) Hs Hwf Hf;
  forward_total m ids tys b n Hs _ _ _ Hids _ Hn :=
    emb_forward_total m ids tys b n Hs Hids Hn;
  forward_too_long m ids tys b n := emb_forward_too_long (proj1_sig m) ids tys b n
|}.

End Encoder.
