(* ===== verification/Model.v ===== *)
(** * The model service: [Bert::new] and [Bert::predict] (src/src/model.rs)

    [Bert] owns the encoder, the tokenizer and the device.  [new] resolves
    the model id and revision, fetches three artifacts from the Hugging Face
    hub, parses the configuration, prepares the tokenizer and the weights,
    and builds the model; [predict] encodes a prompt, turns the ids into
    tensors and runs the forward pass.  The outside world [new] reads (the
    hub cache, the file system, the JSON and weight parsers) is the record
    [Env]; every call [new] makes to the hub is an event of its log, and the
    two lines [predict] prints are events of its log.  The section is
    parametrised by the encoder contract [BertBackend] of [Encoder.v]. *)

From S2P Require Import Prelude Tensor Tokenizer Encoder.
From Stdlib Require Import ZArith PrimFloat.
Import Tensor Tokenizer Encoder.

Module Model.

(** [hf_hub::RepoType] and [hf_hub::Repo] *)
Inductive RepoType := RepoModel | RepoDataset | RepoSpace.

Record Repo := mkRepo {
  repo_id : string;
  repo_type : RepoType;
  revision : string
}.

(** [Repo::with_revision] *)
Definition with_revision (id : string) (ty : RepoType) (rev : string) : Repo :=
  mkRepo id ty rev.

(** The errors that reach [anyhow::Error] in [Bert::new] and
    [Bert::predict], by origin. *)
Inductive ApiError :=
| ApiInit (msg : string)
| NotFound (repo : Repo) (file : string).

Inductive Error :=
| HubError (e : ApiError)
| IoError (msg : string)
| JsonError (msg : string)
| TokenizerError (msg : string)
| CandleErr (e : CandleError).

(** The events of the model service: a request to the hub for one file
    ([api.get]), and the two lines [predict] prints. *)
Inductive Event :=
| Fetch (repo : Repo) (file : string)
| LoadedAndEncoded
| ForwardPassTook.

Definition default_model : string := "sentence-transformers/all-MiniLM-L6-v2".
Definition default_revision : string := "refs/pr/21".

(** model.rs lines 35-40 *)
Definition resolve (model_id revision : option string) : string * string :=
  match model_id, revision with
  | Some m, Some r => (m, r)
  | Some m, None => (m, "main")
  | None, Some r => (default_model, r)
  | None, None => (default_model, default_revision)
  end.

Definition weights_file (use_torch : bool) : string :=
  if use_torch then "pytorch_model.bin" else "model.safetensors".

Section WithBackend.
Context {BB : BertBackend}.

Record Bert := mkBert {
  model : BertModel;
  tokenizer : TokenizerImpl;
  device : Device
}.

(** What [Bert::new] reads from outside the process.  Each call returns a
    result; a panic inside one of these library calls (hf_hub's
    [Api::new] without a home directory) is not represented. *)
Record Env := mkEnv {
  api_new : result unit ApiError;
  hub_get : Repo -> string -> result string ApiError;
  read_to_string : string -> result string string;
  parse_config : string -> result Config string;
  tokenizer_from_file : string -> result TokenizerImpl string;
  vb_from_pth : string -> result Weights CandleError;
  vb_from_safetensors : list string -> result Weights CandleError
}.

(** [api.get(file)?]: the request is made, then its error is returned. *)
Definition get (env : Env) (repo : Repo) (file : string) : logged Event Error string :=
  _ <~ tell (Fetch repo file) ;;
  ltry HubError (hub_get env repo file).

(** [Bert::new] (model.rs lines 26-88) *)
Definition new (env : Env) (model_id revision : option string)
    (use_torch approximate_gelu : bool) : logged Event Error Bert :=
  let dev := Cpu in
  let '(model_id, revision) := resolve model_id revision in
  let repo := with_revision model_id RepoModel revision in
  _ <~ ltry HubError (api_new env) ;;
  config_filename <~ get env repo "config.json" ;;
  tokenizer_filename <~ get env repo "tokenizer.json" ;;
  weights_filename <~ get env repo (weights_file use_torch) ;;
  config_text <~ ltry IoError (read_to_string env config_filename) ;;
  config <~ ltry JsonError (parse_config env config_text) ;;
  tk <~ ltry TokenizerError (tokenizer_from_file env tokenizer_filename) ;;
  tk <~ lunwrap (with_truncation None (with_padding None tk)) ;;
  vb <~ ltry CandleErr (if use_torch then vb_from_pth env weights_filename
                        else vb_from_safetensors env [weights_filename]) ;;
  let config := if approximate_gelu then set_hidden_act config GeluApproximate
                else config in
  m <~ ltry CandleErr (load vb config) ;;
  lret {| model := m; tokenizer := tk; device := dev |}.

(** [Bert::predict] (model.rs lines 90-109) *)
Definition predict (b : Bert) (prompt : string) : logged Event Error Tensor :=
  enc <~ ltry TokenizerError (encode (tokenizer b) prompt true) ;;
  t <~ ltry CandleErr (new_u32 (ids enc) (device b)) ;;
  token_ids <~ ltry CandleErr (unsqueeze t 0) ;;
  token_type_ids <~ ltry CandleErr (zeros_like token_ids) ;;
  _ <~ tell LoadedAndEncoded ;;
  ys <~ ltry CandleErr (forward (model b) token_ids token_type_ids) ;;
  _ <~ tell ForwardPassTook ;;
  lret ys.

(** The tensors [predict] builds from an encoding. *)
Definition input_ids (enc : Encoding) : Tensor :=
  mkTensor (U32Storage (ids enc)) [1; length (ids enc)] Cpu.

Definition input_type_ids (enc : Encoding) : Tensor :=
  mkTensor (U32Storage (replicate (length (ids enc)) 0%Z)) [1; length (ids enc)] Cpu.

(** The contract of [predict] in section 4.3 of the spec: encode, make
    the id and type-id tensors, run the forward pass; a tokenizer failure
    and a forward failure are the two errors it returns. *)
Definition predict_spec (b : Bert) (prompt : string) : result Tensor (exit Error) :=
  match encode (tokenizer b) prompt true with
  | Err m => Err (Raise (TokenizerError m))
  | Ok enc => map_err (fun e => Raise (CandleErr e))
                (forward (model b) (input_ids enc) (input_type_ids enc))
  end.

(** ** [predict] *)

(** Once the prompt is encoded, [predict] prints its first line, runs the
    forward pass on [1 x n] tensors of the ids and of zeros, and prints its
    second line only if the pass succeeds. *)
Lemma predict_encoded b s enc :
  encode (tokenizer b) s true = Ok enc ->
  predict b s =
    match forward (model b) (input_ids enc) (input_type_ids enc) with
    | Ok ys => ([LoadedAndEncoded; ForwardPassTook], Ok ys)
    | Err e => ([LoadedAndEncoded], Err (Raise (CandleErr e)))
    end.
Proof.
  intros Henc. unfold predict. rewrite Henc. autorewrite with hf_rw.
  destruct (device b). simpl. rewrite Nat.mul_1_r, Nat.add_0_r.
  unfold input_ids, input_type_ids. by destruct (forward _ _ _).
Qed.

(** The tokenizer [Bert::new] keeps: the loaded one with padding and
    truncation cleared (model.rs lines 63-67). *)
Definition prepared (tk : TokenizerImpl) : TokenizerImpl :=
  {| encode_single := encode_single tk; post_processor := post_processor tk;
     truncation := None; padding := None |}.

(** The repository [Bert::new] reads from. *)
Definition repo_of (model_id revision : option string) : Repo :=
  with_revision (resolve model_id revision).1 RepoModel (resolve model_id revision).2.

Lemma new_Ok env mid rev ut ag log b :
  new env mid rev ut ag = (log, Ok b) ->
  exists cp tp wp text cfg tk vb,
    api_new env = Ok tt /\
    hub_get env (repo_of mid rev) "config.json" = Ok cp /\
    hub_get env (repo_of mid rev) "tokenizer.json" = Ok tp /\
    hub_get env (repo_of mid rev) (weights_file ut) = Ok wp /\
    read_to_string env cp = Ok text /\ parse_config env text = Ok cfg /\
    tokenizer_from_file env tp = Ok tk /\
    (if ut then vb_from_pth env wp else vb_from_safetensors env [wp]) = Ok vb /\
    load vb (if ag then set_hidden_act cfg GeluApproximate else cfg) = Ok (model b) /\
    tokenizer b = prepared tk /\
    log = [Fetch (repo_of mid rev) "config.json"; Fetch (repo_of mid rev) "tokenizer.json";
           Fetch (repo_of mid rev) (weights_file ut)].
Proof.
  unfold new, get, repo_of. destruct (resolve mid rev) as [id r].
  intros H. cbv beta iota zeta in H. logged_inv H; try discriminate.
  destruct a. injection H as <- <-. injection E7 as <-. simpl.
  exists a0, a1, a2, a3, a4, a5, a6. by repeat split.
Qed.

(** ** Properties of [predict] *)

Lemma predict_Ok b s log ys :
  predict b s = (log, Ok ys) ->
  exists enc, encode (tokenizer b) s true = Ok enc /\
    shape ys = [1; length (ids enc); hidden_size (model_config (model b))] /\
    dtype ys = F32 /\ tensor_wf ys.
Proof.
  intros Hpred.
  destruct (encode (tokenizer b) s true) as [enc|m] eqn:Henc;
    [|unfold predict in Hpred; rewrite Henc in Hpred; by autorewrite with hf_rw in Hpred].
  exists enc. split; [done|].
  rewrite (predict_encoded b s enc Henc) in Hpred.
  destruct (forward _ _ _) as [out|] eqn:Hf; [|done]. injection Hpred as <- <-.
  apply (forward_shape (model b) (input_ids enc) (input_type_ids enc)); [done| |done].
  unfold tensor_wf, elem_count; simpl; lia.
Qed.

(** C1. Shape of an embedding: for a tokenizer without padding or
    truncation (the one [Bert::new] keeps), a successful [predict] returns a
    well-formed [f32] tensor of shape [1 x L x H], where [L] is the number of
    tokens of the text plus the post-processor's special tokens and [H] is
    the hidden size of the loaded model, whatever the text. *)
Theorem predict_shape b s toks log ys :
  padding (tokenizer b) = None -> truncation (tokenizer b) = None ->
  encode_single (tokenizer b) s = Ok toks ->
  predict b s = (log, Ok ys) ->
  shape ys = [1; length toks + n_added_tokens (post_processor (tokenizer b));
              hidden_size (model_config (model b))] /\
  dtype ys = F32 /\ tensor_wf ys.
Proof.
  intros Hp Ht Hs Hpred.
  pose proof (encode_unset_length (tokenizer b) s Hp Ht) as Henc. rewrite Hs in Henc.
  destruct Henc as (enc & Henc & Hlen).
  destruct (predict_Ok b s log ys Hpred) as (enc' & Henc' & Hshape).
  rewrite Henc in Henc'. injection Henc' as <-. by rewrite <- Hlen.
Qed.

(** C20. [predict] returns: when every id of the encoded text is in the
    vocabulary, the text has at most [max_position_embeddings] tokens and the
    model has a token type, [predict] succeeds and prints both of its
    lines. *)
Theorem predict_succeeds b s enc :
  encode (tokenizer b) s true = Ok enc ->
  Forall (fun x => 0 <= x < Z.of_nat (vocab_size (model_config (model b))))%Z (ids enc) ->
  length (ids enc) <= max_position_embeddings (model_config (model b)) ->
  0 < type_vocab_size (model_config (model b)) ->
  exists ys, predict b s = ([LoadedAndEncoded; ForwardPassTook], Ok ys).
Proof.
  intros Henc Hids Hlen Htype. rewrite (predict_encoded b s enc Henc).
  destruct (forward_total (model b) (input_ids enc) (input_type_ids enc) 1 (length (ids enc)))
    as [out ->]; try done; eauto.
  - unfold tensor_wf, elem_count; simpl; lia.
  - unfold tensor_wf, elem_count; simpl. rewrite length_replicate. lia.
  - unfold ids_below, input_type_ids; simpl.
    apply Forall_replicate. lia.
Qed.

(** C17. [Bert::predict] implements its contract: whatever the text, its
    result (the printed lines aside) is the one of encoding, building the
    [1 x n] tensors of the ids and of zeros, and running the forward pass. *)
Theorem predict_refines_spec b s : (predict b s).2 = predict_spec b s.
Proof.
  unfold predict_spec. destruct (encode (tokenizer b) s true) as [enc|m] eqn:Henc.
  - rewrite (predict_encoded b s enc Henc). by destruct (forward _ _ _).
  - unfold predict. rewrite Henc. by autorewrite with hf_rw.
Qed.

(** C18. A tokenization error is returned as a request error before anything
    is printed or computed. *)
Theorem predict_tokenizer_error b s msg :
  encode (tokenizer b) s true = Err msg ->
  predict b s = ([], Err (Raise (TokenizerError msg))).
Proof. intros Henc. unfold predict. rewrite Henc. by autorewrite with hf_rw. Qed.

(** C19. A text longer than the position-embedding table is an inference
    error after the first line is printed: the request fails, the process
    does not. *)
Theorem predict_too_long b s enc :
  encode (tokenizer b) s true = Ok enc ->
  max_position_embeddings (model_config (model b)) < length (ids enc) ->
  exists e, predict b s = ([LoadedAndEncoded], Err (Raise (CandleErr e))).
Proof.
  intros Henc Hlen. rewrite (predict_encoded b s enc Henc).
  destruct (forward_too_long (model b) (input_ids enc) (input_type_ids enc) 1 (length (ids enc)))
    as [e ->]; eauto.
Qed.

(** ** Properties of [new] *)

(** C21. A successful [Bert::new] asks the hub for exactly the configuration,
    the tokenizer and the chosen weight file, in this order, all from the
    resolved repository, and keeps a tokenizer with padding and truncation
    cleared. *)
Theorem new_fetches_and_prepares env mid rev ut ag log b :
  new env mid rev ut ag = (log, Ok b) ->
  log = [Fetch (repo_of mid rev) "config.json"; Fetch (repo_of mid rev) "tokenizer.json";
         Fetch (repo_of mid rev) (weights_file ut)] /\
  padding (tokenizer b) = None /\ truncation (tokenizer b) = None.
Proof.
  intros H. destruct (new_Ok env mid rev ut ag log b H)
    as (cp & tp & wp & text & cfg & tk & vb & _ & _ & _ & _ & _ & _ & _ & _ & _ & Htk & Hlog).
  by rewrite Htk.
Qed.

(** The configuration a loaded model carries is the one parsed from the
    fetched [config.json], with the activation substituted on request. *)
Lemma new_config_eq env mid rev ut ag log b :
  new env mid rev ut ag = (log, Ok b) ->
  exists cp text cfg,
    hub_get env (repo_of mid rev) "config.json" = Ok cp /\
    read_to_string env cp = Ok text /\ parse_config env text = Ok cfg /\
    model_config (model b) = if ag then set_hidden_act cfg GeluApproximate else cfg.
Proof.
  intros H. destruct (new_Ok env mid rev ut ag log b H)
    as (cp & tp & wp & text & cfg & tk & vb & _ & Hcp & _ & _ & Ht & Hc & _ & _ & Hload & _).
  exists cp, text, cfg. repeat split; try done. exact (load_config _ _ _ Hload).
Qed.

(** The model is built from the parsed configuration, with the
    approximate GELU substituted for its activation exactly when
    [approximate_gelu] is set. *)
Theorem new_model_config env mid rev ut ag log b cp text cfg :
  new env mid rev ut ag = (log, Ok b) ->
  hub_get env (repo_of mid rev) "config.json" = Ok cp ->
  read_to_string env cp = Ok text -> parse_config env text = Ok cfg ->
  model_config (model b) = if ag then set_hidden_act cfg GeluApproximate else cfg.
Proof.
  intros H Hcp Ht Hc.
  destruct (new_config_eq env mid rev ut ag log b H) as (cp' & text' & cfg' & Hcp' & Ht' & Hc' & ->).
  rewrite Hcp in Hcp'. injection Hcp' as <-. rewrite Ht in Ht'. injection Ht' as <-.
  rewrite Hc in Hc'. by injection Hc' as <-.
Qed.

(** Serving shape end to end: every embedding computed by a model that
    [Bert::new] loaded has the hidden size written in the fetched
    [config.json] as its last dimension, whatever the text and whatever the
    activation flag. *)
Theorem served_hidden_size env mid rev ut ag log b cp text cfg s log' ys :
  new env mid rev ut ag = (log, Ok b) ->
  hub_get env (repo_of mid rev) "config.json" = Ok cp ->
  read_to_string env cp = Ok text -> parse_config env text = Ok cfg ->
  predict b s = (log', Ok ys) ->
  exists n, shape ys = [1; n; hidden_size cfg].
Proof.
  intros H Hcp Ht Hc Hpred.
  destruct (predict_Ok b s log' ys Hpred) as (enc & _ & Hshape & _).
  destruct (new_config_eq env mid rev ut ag log b H) as (cp' & text' & cfg' & Hcp' & Ht' & Hc' & Hcfg).
  rewrite Hcp in Hcp'. injection Hcp' as <-. rewrite Ht in Ht'. injection Ht' as <-.
  rewrite Hc in Hc'. injection Hc' as <-. rewrite Hshape, Hcfg.
  exists (length (ids enc)). by destruct ag.
Qed.

Lemma get_Ok env repo f path :
  hub_get env repo f = Ok path -> get env repo f = ([Fetch repo f], Ok path).
Proof. intros H. unfold get. by rewrite H. Qed.

Lemma get_Err env repo f e :
  hub_get env repo f = Err e -> get env repo f = ([Fetch repo f], Err (Raise (HubError e))).
Proof. intros H. unfold get. by rewrite H. Qed.

(** The three artifacts in the order [Bert::new] fetches them, each with
    the ones fetched before it. *)
Definition fetch_order (use_torch : bool) : list (list string * string) :=
  [([], "config.json"); (["config.json"], "tokenizer.json");
   (["config.json"; "tokenizer.json"], weights_file use_torch)].

(** C15. A missing artifact makes [Bert::new] return the hub's own error
    for that file: if the hub has the artifacts fetched before [f] (in the
    order configuration, tokenizer, weights) but not [f], [Bert::new]
    requests exactly those files and [f], and returns [HubError e] with the
    error [e] the hub gave for [f]; nothing is read or built after it. *)
Theorem new_missing_artifact env mid rev ut ag pre f e :
  api_new env = Ok tt ->
  (pre, f) ∈ fetch_order ut ->
  Forall (fun g => exists path, hub_get env (repo_of mid rev) g = Ok path) pre ->
  hub_get env (repo_of mid rev) f = Err e ->
  new env mid rev ut ag = (map (Fetch (repo_of mid rev)) (pre ++ [f]), Err (Raise (HubError e))).
Proof.
  intros Hapi Hin Hpre Hmiss. unfold new. unfold repo_of in *.
  destruct (resolve mid rev) as [id r]. cbv beta iota zeta. simpl in Hpre, Hmiss.
  rewrite Hapi. autorewrite with hf_rw. cbn [fst snd app].
  unfold fetch_order in Hin. rewrite !elem_of_cons, elem_of_nil in Hin.
  destruct Hin as [[= -> ->]|[[= -> ->]|[[= -> ->]|[]]]];
    repeat match goal with H : Forall _ (_ :: _) |- _ =>
             let Hg := fresh "Hg" in
             apply Forall_cons in H as [[? Hg] H]; rewrite (get_Ok _ _ _ _ Hg);
             autorewrite with hf_rw; cbn [fst snd app] end;
    rewrite (get_Err _ _ _ _ Hmiss); autorewrite with hf_rw; cbn [fst snd app]; reflexivity.
Qed.

End WithBackend.

(** ** A concrete service

    A hub that has every artifact of every repository but the PyTorch
    weights, a six-word configuration with two hidden units, the demo
    tokenizer of [Tokenizer.v] and an embedding table: [demo_bert] is what
    [Bert::new] returns on it with the arguments of [main]. *)

Definition demo_config : Config := mkConfig 6 2 1 1 4 Gelu 4 2 0.

Definition demo_table : list (list float) :=
  [[0; 0]; [1; 0]; [0; 1]; [1; 1]; [2; 0]; [0; 2]]%float.

Definition demo_env : @Env EmbeddingBackend := {|
  api_new := Ok tt;
  hub_get repo f :=
    if String.eqb f "pytorch_model.bin" then Err (NotFound repo f)
    else Ok (String.append "/cache/" f);
  read_to_string p := Ok (String.append "contents of " p);
  parse_config _ := Ok demo_config;
  tokenizer_from_file _ := Ok demo_tokenizer;
  vb_from_pth p := Err (InvalidIndex "from_pth" 0 0);
  vb_from_safetensors _ := Ok (demo_table : @Weights EmbeddingBackend)
|}.

Definition empty_config : Config := mkConfig 0 0 0 0 0 Gelu 0 0 0.

Definition fallback_bert : @Bert EmbeddingBackend :=
  @mkBert EmbeddingBackend (exist emb_wf (mkEmbModel empty_config []) (conj (List.Forall_nil _) eq_refl))
         demo_tokenizer Cpu.

Definition demo_bert : @Bert EmbeddingBackend :=
  match (new demo_env None None false false).2 with
  | Ok b => b
  | Err _ => fallback_bert
  end.

Definition fallback_tensor : Tensor := mkTensor (F32Storage []) [0] Cpu.

Definition demo_out (s : string) : Tensor :=
  match (predict demo_bert s).2 with
  | Ok ys => ys
  | Err _ => fallback_tensor
  end.

Definition demo_encoding : Encoding := mkEncoding [2; 4; 5; 3]%Z [0; 0; 0; 0]%Z.

Definition demo_long_encoding : Encoding := mkEncoding [2; 4; 5; 4; 3]%Z [0; 0; 0; 0; 0]%Z.

(** A prompt holding a control character, which the demo vocabulary cannot
    segment. *)
Definition bad_prompt : string := String (Ascii.ascii_of_nat 7) EmptyString.

(** ** Witnesses *)

Lemma predict_shape_witness :
  padding (tokenizer demo_bert) = None /\ truncation (tokenizer demo_bert) = None /\
  encode_single (tokenizer demo_bert) "hello world" = Ok [4; 5]%Z /\
  predict demo_bert "hello world" =
    ([LoadedAndEncoded; ForwardPassTook], Ok (demo_out "hello world")) /\
  (shape (demo_out "hello world") =
     [1; 2 + n_added_tokens (post_processor (tokenizer demo_bert));
      hidden_size (model_config (model demo_bert))] /\
   dtype (demo_out "hello world") = F32 /\ tensor_wf (demo_out "hello world")).
Proof.
  assert (H1 : padding (tokenizer demo_bert) = None) by (vm_compute; reflexivity).
  assert (H2 : truncation (tokenizer demo_bert) = None) by (vm_compute; reflexivity).
  assert (H3 : encode_single (tokenizer demo_bert) "hello world" = Ok [4; 5]%Z)
    by (vm_compute; reflexivity).
  assert (H4 : predict demo_bert "hello world" =
    ([LoadedAndEncoded; ForwardPassTook], Ok (demo_out "hello world")))
    by (vm_compute; reflexivity).
  refine (conj H1 (conj H2 (conj H3 (conj H4 _)))).
  exact (predict_shape demo_bert "hello world" [4; 5]%Z _ _ H1 H2 H3 H4).
Defined.

Lemma predict_succeeds_witness :
  encode (tokenizer demo_bert) "hello world" true = Ok demo_encoding /\
  Forall (fun x => 0 <= x < Z.of_nat (vocab_size (model_config (model demo_bert))))%Z
    (ids demo_encoding) /\
  length (ids demo_encoding) <= max_position_embeddings (model_config (model demo_bert)) /\
  0 < type_vocab_size (model_config (model demo_bert)) /\
  exists ys, predict demo_bert "hello world" = ([LoadedAndEncoded; ForwardPassTook], Ok ys).
Proof.
  assert (H1 : encode (tokenizer demo_bert) "hello world" true = Ok demo_encoding)
    by (vm_compute; reflexivity).
  assert (H2 : Forall (fun x => 0 <= x < Z.of_nat (vocab_size (model_config (model demo_bert))))%Z
                 (ids demo_encoding))
    by (apply (bool_decide_unpack _); vm_compute; reflexivity).
  assert (H3 : length (ids demo_encoding) <= max_position_embeddings (model_config (model demo_bert)))
    by (vm_compute; lia).
  assert (H4 : 0 < type_vocab_size (model_config (model demo_bert))) by (vm_compute; lia).
  exact (conj H1 (conj H2 (conj H3 (conj H4
    (predict_succeeds demo_bert "hello world" demo_encoding H1 H2 H3 H4))))).
Defined.

Lemma predict_tokenizer_error_witness :
  encode (tokenizer demo_bert) bad_prompt true = Err "invalid character in input" /\
  predict demo_bert bad_prompt = ([], Err (Raise (TokenizerError "invalid character in input"))).
Proof.
  assert (H : encode (tokenizer demo_bert) bad_prompt true = Err "invalid character in input")
    by (vm_compute; reflexivity).
  exact (conj H (predict_tokenizer_error demo_bert bad_prompt _ H)).
Defined.

Lemma predict_too_long_witness :
  encode (tokenizer demo_bert) "hello world hello" true = Ok demo_long_encoding /\
  max_position_embeddings (model_config (model demo_bert)) < length (ids demo_long_encoding) /\
  exists e, predict demo_bert "hello world hello" = ([LoadedAndEncoded], Err (Raise (CandleErr e))).
Proof.
  assert (H1 : encode (tokenizer demo_bert) "hello world hello" true = Ok demo_long_encoding)
    by (vm_compute; reflexivity).
  assert (H2 : max_position_embeddings (model_config (model demo_bert)) <
               length (ids demo_long_encoding)) by (vm_compute; lia).
  exact (conj H1 (conj H2 (predict_too_long demo_bert _ _ H1 H2))).
Defined.

Lemma new_fetches_and_prepares_witness :
  new demo_env None None false false = ((new demo_env None None false false).1, Ok demo_bert) /\
  ((new demo_env None None false false).1 =
     [Fetch (repo_of None None) "config.json"; Fetch (repo_of None None) "tokenizer.json";
      Fetch (repo_of None None) (weights_file false)] /\
   padding (tokenizer demo_bert) = None /\ truncation (tokenizer demo_bert) = None).
Proof.
  assert (H : new demo_env None None false false =
              ((new demo_env None None false false).1, Ok demo_bert))
    by (vm_compute; reflexivity).
  exact (conj H (new_fetches_and_prepares demo_env None None false false _ _ H)).
Defined.

Lemma new_model_config_witness :
  new demo_env None None false true = ((new demo_env None None false true).1,
    Ok (match (new demo_env None None false true).2 with Ok b => b | Err _ => fallback_bert end)) /\
  hub_get demo_env (repo_of None None) "config.json" = Ok "/cache/config.json" /\
  read_to_string demo_env "/cache/config.json" = Ok "contents of /cache/config.json" /\
  parse_config demo_env "contents of /cache/config.json" = Ok demo_config /\
  model_config (model (match (new demo_env None None false true).2 with
                       | Ok b => b | Err _ => fallback_bert end)) =
    set_hidden_act demo_config GeluApproximate.
Proof.
  assert (H1 : new demo_env None None false true = ((new demo_env None None false true).1,
    Ok (match (new demo_env None None false true).2 with Ok b => b | Err _ => fallback_bert end)))
    by (vm_compute; reflexivity).
  assert (H2 : hub_get demo_env (repo_of None None) "config.json" = Ok "/cache/config.json")
    by (vm_compute; reflexivity).
  assert (H3 : read_to_string demo_env "/cache/config.json" = Ok "contents of /cache/config.json")
    by (vm_compute; reflexivity).
  assert (H4 : parse_config demo_env "contents of /cache/config.json" = Ok demo_config)
    by (vm_compute; reflexivity).
  exact (conj H1 (conj H2 (conj H3 (conj H4
    (new_model_config demo_env None None false true _ _ _ _ _ H1 H2 H3 H4))))).
Defined.

Lemma served_hidden_size_witness :
  new demo_env None None false false = ((new demo_env None None false false).1, Ok demo_bert) /\
  hub_get demo_env (repo_of None None) "config.json" = Ok "/cache/config.json" /\
  read_to_string demo_env "/cache/config.json" = Ok "contents of /cache/config.json" /\
  parse_config demo_env "contents of /cache/config.json" = Ok demo_config /\
  predict demo_bert "hello world" =
    ([LoadedAndEncoded; ForwardPassTook], Ok (demo_out "hello world")) /\
  exists n, shape (demo_out "hello world") = [1; n; hidden_size demo_config].
Proof.
  assert (H1 : new demo_env None None false false =
              ((new demo_env None None false false).1, Ok demo_bert))
    by (vm_compute; reflexivity).
  assert (H2 : hub_get demo_env (repo_of None None) "config.json" = Ok "/cache/config.json")
    by (vm_compute; reflexivity).
  assert (H3 : read_to_string demo_env "/cache/config.json" = Ok "contents of /cache/config.json")
    by (vm_compute; reflexivity).
  assert (H4 : parse_config demo_env "contents of /cache/config.json" = Ok demo_config)
    by (vm_compute; reflexivity).
  assert (H5 : predict demo_bert "hello world" =
    ([LoadedAndEncoded; ForwardPassTook], Ok (demo_out "hello world")))
    by (vm_compute; reflexivity).
  exact (conj H1 (conj H2 (conj H3 (conj H4 (conj H5
    (served_hidden_size demo_env None None false false _ _ _ _ _ _ _ _ H1 H2 H3 H4 H5)))))).
Defined.

Lemma new_missing_artifact_witness :
  api_new demo_env = Ok tt /\
  (["config.json"; "tokenizer.json"], "pytorch_model.bin") ∈ fetch_order true /\
  Forall (fun g => exists path, hub_get demo_env (repo_of None None) g = Ok path)
    ["config.json"; "tokenizer.json"] /\
  hub_get demo_env (repo_of None None) "pytorch_model.bin" =
    Err (NotFound (repo_of None None) "pytorch_model.bin") /\
  new demo_env None None true false =
    (map (Fetch (repo_of None None)) ["config.json"; "tokenizer.json"; "pytorch_model.bin"],
     Err (Raise (HubError (NotFound (repo_of None None) "pytorch_model.bin")))).
Proof.
  assert (H1 : api_new demo_env = Ok tt) by reflexivity.
  assert (H2 : (["config.json"; "tokenizer.json"], "pytorch_model.bin") ∈ fetch_order true)
    by (apply (bool_decide_unpack _); vm_compute; reflexivity).
  assert (H3 : Forall (fun g => exists path, hub_get demo_env (repo_of None None) g = Ok path)
                 ["config.json"; "tokenizer.json"])
    by (repeat constructor; eexists; vm_compute; reflexivity).
  assert (H4 : hub_get demo_env (repo_of None None) "pytorch_model.bin" =
               Err (NotFound (repo_of None None) "pytorch_model.bin")) by (vm_compute; reflexivity).
  exact (conj H1 (conj H2 (conj H3 (conj H4
    (new_missing_artifact demo_env None None true false _ _ _ H1 H2 H3 H4))))).
Defined.

End Model.
