(* ===== verification/Middleware.v ===== *)
(** * The request-timing middleware: [middleware_time_elapsed] (main.rs lines 46-66)

    The middleware reads the request's [content-length] header
    (lines 50-55), prints it, calls the rest of the service and prints the
    time the call took.  The header read is
    [req.headers().get("content-length").and_then(|v| v.to_str().ok())
       .and_then(|v| v.parse::<usize>().ok()).unwrap_or(0)]:
    [HeaderMap::get] returns the first value stored under the name;
    [HeaderValue::to_str] accepts only visible ASCII and tab; [usize]'s
    [from_str] accepts an optional [+] and decimal digits and reports an
    overflow past [2^64 - 1].  Header values and [&str] are byte lists.
    The printed lines are events; their durations are given in
    [Timing.v]. *)

From S2P Require Import Prelude.
From Stdlib Require Import ZArith Strings.Byte.

Module Middleware.

#[export] Instance byte_eq_decision : EqDecision byte := Byte.byte_eq_dec.

(** Header names are stored lowercased by the HTTP parser; values are bytes,
    in the order the request carried them. *)
Definition Headers : Type := list (string * list byte).

(** [HeaderMap::get]: the first value under [name]. *)
Definition header_get (hs : Headers) (name : string) : option (list byte) :=
  snd <$> List.find (fun p => String.eqb (fst p) name) hs.

Definition byte_val (b : byte) : Z := Z.of_N (Byte.to_N b).

(** [is_visible_ascii] of the [http] crate *)
Definition is_visible_ascii (b : byte) : bool :=
  bool_decide (32 <= byte_val b < 127)%Z || bool_decide (byte_val b = 9)%Z.

Inductive ToStrError := ToStrErr.

(** [HeaderValue::to_str] *)
Definition to_str (v : list byte) : result (list byte) ToStrError :=
  if forallb is_visible_ascii v then Ok v else Err ToStrErr.

(** [core::num::IntErrorKind], the kinds [usize::from_str] reports. *)
Inductive IntErrorKind := Empty | InvalidDigit | PosOverflow.

Definition usize_max : Z := (2 ^ 64 - 1)%Z.

(** [char::to_digit(10)] on one byte *)
Definition to_digit (b : byte) : option Z :=
  if bool_decide (48 <= byte_val b <= 57)%Z then Some (byte_val b - 48)%Z else None.

(** The digit loop of [from_str_radix]: in each round the multiplication is
    computed, then the digit is checked, then the multiplication and the
    addition are checked for overflow. *)
Fixpoint digits_loop (bs : list byte) (acc : Z) : result Z IntErrorKind :=
  match bs with
  | [] => Ok acc
  | b :: bs' =>
      let mul := (acc * 10)%Z in
      match to_digit b with
      | None => Err InvalidDigit
      | Some d =>
          if bool_decide (usize_max < mul)%Z then Err PosOverflow
          else if bool_decide (usize_max < mul + d)%Z then Err PosOverflow
          else digits_loop bs' (mul + d)%Z
      end
  end.

(** [<usize as FromStr>::from_str]: a lone sign is an invalid digit, a
    leading [+] is skipped, a [-] is not (the type is unsigned). *)
Definition parse_usize (bs : list byte) : result Z IntErrorKind :=
  match bs with
  | [] => Err Empty
  | [b] => if bool_decide (b = "+"%byte \/ b = "-"%byte) then Err InvalidDigit
           else digits_loop bs 0
  | b :: rest => if bool_decide (b = "+"%byte) then digits_loop rest 0
                 else digits_loop bs 0
  end.

(** main.rs lines 50-55 *)
Definition payload_size (hs : Headers) : Z :=
  unwrap_or (and_then (and_then (header_get hs "content-length")
                                (fun v => ok (to_str v)))
                      (fun v => ok (parse_usize v)))
            0%Z.

(** The lines the middleware prints around the inner service. *)
Inductive Event (Inner : Type) :=
| PayloadSize (n : Z)
| InnerEvent (e : Inner)
| RequestTook.
Arguments PayloadSize {Inner} n.
Arguments InnerEvent {Inner} e.
Arguments RequestTook {Inner}.

(** [middleware_time_elapsed]: print the payload size, run [next] (whose
    own events are kept in order), print the time, return [next]'s result.
    A panic of [next] unwinds through the [await] (line 61): the second line
    is not printed. *)
Definition middleware_time_elapsed {Inner E A} (hs : Headers)
    (next : logged Inner E A) : logged (Event Inner) E A :=
  match next with
  | (evs, Err (Panic m)) => (PayloadSize (payload_size hs) :: map InnerEvent evs, Err (Panic m))
  | (evs, r) => (PayloadSize (payload_size hs) :: map InnerEvent evs ++ [RequestTook], r)
  end.

(** ** Decimal digits *)

(** The byte of a decimal digit. *)
Definition digit_byte (d : Z) : byte :=
  match Byte.of_N (Z.to_N (48 + d)) with Some b => b | None => "0"%byte end.

(** The value of a digit sequence read from [acc] on. *)
Definition horner (acc : Z) (ds : list Z) : Z :=
  fold_left (fun a d => a * 10 + d)%Z ds acc.

Lemma to_digit_digit_byte d : (0 <= d < 10)%Z -> to_digit (digit_byte d) = Some d.
Proof.
  intros Hd.
  assert (d = 0 \/ d = 1 \/ d = 2 \/ d = 3 \/ d = 4 \/ d = 5 \/ d = 6 \/ d = 7 \/ d = 8 \/ d = 9)%Z
    as Hcases by lia.
  repeat destruct Hcases as [-> | Hcases]; [..| subst d]; vm_compute; reflexivity.
Qed.

Lemma horner_cons acc d ds : horner acc (d :: ds) = horner (acc * 10 + d)%Z ds.
Proof. reflexivity. Qed.

Lemma horner_ge acc ds :
  Forall (fun d => 0 <= d < 10)%Z ds -> (0 <= acc)%Z -> (acc <= horner acc ds)%Z.
Proof.
  intros Hds. revert acc. induction Hds as [|d ds Hd _ IH]; intros acc Hacc; [done|].
  rewrite horner_cons. specialize (IH (acc * 10 + d)%Z). lia.
Qed.

(** The digit loop computes the decimal value, or reports the overflow. *)
Lemma digits_loop_spec ds acc :
  Forall (fun d => 0 <= d < 10)%Z ds -> (0 <= acc <= usize_max)%Z ->
  digits_loop (map digit_byte ds) acc =
    if bool_decide (horner acc ds <= usize_max)%Z then Ok (horner acc ds) else Err PosOverflow.
Proof.
  intros Hds. revert acc. induction Hds as [|d ds Hd Hds IH]; intros acc Hacc; simpl.
  - case_bool_decide; [done | lia].
  - rewrite to_digit_digit_byte by done.
    pose proof (horner_ge (acc * 10 + d)%Z ds Hds) as Hge.
    case_bool_decide; [case_bool_decide; [lia | done]|].
    case_bool_decide; [case_bool_decide; [lia | done]|].
    rewrite IH by lia. done.
Qed.

Lemma digit_byte_not_sign d : (0 <= d < 10)%Z -> digit_byte d <> "+"%byte /\ digit_byte d <> "-"%byte.
Proof.
  intros Hd. pose proof (to_digit_digit_byte d Hd) as H.
  split; intros E; rewrite E in H; discriminate H.
Qed.

(** A digit string has no sign: [from_str] runs the digit loop on all of it. *)
Lemma parse_usize_unsigned ds :
  ds <> [] -> Forall (fun d => 0 <= d < 10)%Z ds ->
  parse_usize (map digit_byte ds) = digits_loop (map digit_byte ds) 0.
Proof.
  intros Hne Hds.
  destruct ds as [|d [|d' ds]]; [done| |]; inversion Hds as [|? ? Hd]; subst;
    destruct (digit_byte_not_sign d Hd); simpl; by rewrite bool_decide_false by tauto.
Qed.

(** [usize::from_str] on a non-empty string of decimal digits returns
    their value when it fits in 64 bits and [PosOverflow] otherwise. *)
Theorem parse_usize_digits ds :
  ds <> [] -> Forall (fun d => 0 <= d < 10)%Z ds ->
  parse_usize (map digit_byte ds) =
    if bool_decide (horner 0 ds <= usize_max)%Z then Ok (horner 0 ds) else Err PosOverflow.
Proof.
  intros Hne Hds. rewrite parse_usize_unsigned by done.
  apply digits_loop_spec; [done | unfold usize_max; lia].
Qed.

Lemma to_str_digits ds :
  Forall (fun d => 0 <= d < 10)%Z ds -> to_str (map digit_byte ds) = Ok (map digit_byte ds).
Proof.
  intros Hds. unfold to_str.
  replace (forallb is_visible_ascii (map digit_byte ds)) with true; [done|].
  symmetry. apply forallb_forall. intros b (d & <- & Hin)%in_map_iff.
  rewrite List.Forall_forall in Hds. specialize (Hds d Hin).
  pose proof (to_digit_digit_byte d Hds) as Hdig. unfold to_digit in Hdig.
  case_bool_decide; [|done]. unfold is_visible_ascii.
  rewrite bool_decide_true by lia. done.
Qed.

(** C30. The payload size printed for a request whose [content-length]
    header holds the decimal digits of a number below [2^64] is that
    number. *)
Theorem payload_size_digits hs ds :
  header_get hs "content-length" = Some (map digit_byte ds) ->
  ds <> [] -> Forall (fun d => 0 <= d < 10)%Z ds -> (horner 0 ds <= usize_max)%Z ->
  payload_size hs = horner 0 ds.
Proof.
  intros Hget Hne Hds Hle. unfold payload_size. rewrite Hget. simpl.
  rewrite to_str_digits by done. simpl.
  rewrite parse_usize_unsigned, digits_loop_spec by (done || (unfold usize_max; lia)). by rewrite bool_decide_true.
Qed.

(** C31. A [content-length] of more than 64 bits overflows [usize]: the
    middleware prints 0, the default of [unwrap_or(0)]. *)
Theorem payload_size_overflow hs ds :
  header_get hs "content-length" = Some (map digit_byte ds) ->
  ds <> [] -> Forall (fun d => 0 <= d < 10)%Z ds -> (usize_max < horner 0 ds)%Z ->
  payload_size hs = 0%Z.
Proof.
  intros Hget Hne Hds Hgt. unfold payload_size. rewrite Hget. simpl.
  rewrite to_str_digits by done. simpl.
  rewrite parse_usize_unsigned, digits_loop_spec by (done || (unfold usize_max; lia)). by rewrite bool_decide_false by lia.
Qed.

Definition demo_headers (v : list byte) : Headers :=
  [("host", map digit_byte [1; 2; 7]%Z); ("content-length", v); ("content-length", [])].

Definition nines : list Z := repeat 9%Z 20.

Lemma parse_usize_digits_witness :
  [4; 2]%Z <> [] /\ Forall (fun d => 0 <= d < 10)%Z [4; 2]%Z /\
  parse_usize (map digit_byte [4; 2]%Z) =
    (if bool_decide (horner 0 [4; 2]%Z <= usize_max)%Z then Ok (horner 0 [4; 2]%Z)
     else Err PosOverflow).
Proof.
  assert (H1 : [4; 2]%Z <> []) by discriminate.
  assert (H2 : Forall (fun d => 0 <= d < 10)%Z [4; 2]%Z)
    by (apply (bool_decide_unpack _); vm_compute; reflexivity).
  exact (conj H1 (conj H2 (parse_usize_digits _ H1 H2))).
Defined.

Lemma payload_size_digits_witness :
  header_get (demo_headers (map digit_byte [4; 2]%Z)) "content-length" =
    Some (map digit_byte [4; 2]%Z) /\
  [4; 2]%Z <> [] /\ Forall (fun d => 0 <= d < 10)%Z [4; 2]%Z /\
  (horner 0 [4; 2]%Z <= usize_max)%Z /\
  payload_size (demo_headers (map digit_byte [4; 2]%Z)) = horner 0 [4; 2]%Z.
Proof.
  assert (H1 : header_get (demo_headers (map digit_byte [4; 2]%Z)) "content-length" =
               Some (map digit_byte [4; 2]%Z)) by (vm_compute; reflexivity).
  assert (H2 : [4; 2]%Z <> []) by discriminate.
  assert (H3 : Forall (fun d => 0 <= d < 10)%Z [4; 2]%Z)
    by (apply (bool_decide_unpack _); vm_compute; reflexivity).
  assert (H4 : (horner 0 [4; 2]%Z <= usize_max)%Z) by (vm_compute; discriminate).
  exact (conj H1 (conj H2 (conj H3 (conj H4 (payload_size_digits _ _ H1 H2 H3 H4))))).
Defined.

Lemma payload_size_overflow_witness :
  header_get (demo_headers (map digit_byte nines)) "content-length" = Some (map digit_byte nines) /\
  nines <> [] /\ Forall (fun d => 0 <= d < 10)%Z nines /\ (usize_max < horner 0 nines)%Z /\
  payload_size (demo_headers (map digit_byte nines)) = 0%Z.
Proof.
  assert (H1 : header_get (demo_headers (map digit_byte nines)) "content-length" =
               Some (map digit_byte nines)) by (vm_compute; reflexivity).
  assert (H2 : nines <> []) by discriminate.
  assert (H3 : Forall (fun d => 0 <= d < 10)%Z nines)
    by (apply (bool_decide_unpack _); vm_compute; reflexivity).
  assert (H4 : (usize_max < horner 0 nines)%Z) by (vm_compute; reflexivity).
  exact (conj H1 (conj H2 (conj H3 (conj H4 (payload_size_overflow _ _ H1 H2 H3 H4))))).
Defined.

End Middleware.
