(* ===== verification/RwLock.v ===== *)
(** * The concurrency guard: [tokio::sync::RwLock] (main.rs lines 11, 25, 33, 71)

    [AppModel] keeps the model in a [tokio::sync::RwLock]; each request
    takes a read guard ([model.bert.read().await], line 33).  tokio builds
    the lock on its fair batch semaphore with [max_reads] permits: a read
    acquires one permit, a write all [max_reads]; dropping a guard releases
    them.  An acquirer takes the permits it needs if enough are available,
    otherwise it takes what is there and joins the back of the wait queue
    with the rest outstanding; released permits go to the queue from the
    front, each waiter being woken once it has all of its permits, and only
    what is left when the queue is empty returns to the semaphore.

    The semaphore is modelled as a state machine: [permits] and [waiters]
    are the semaphore's fields; [holders], the guards alive, is ghost state
    (tokio keeps them in the threads, as [RwLockReadGuard] and
    [RwLockWriteGuard] values).  The theorems are proved for every state
    reachable from [RwLock::with_max_readers], by induction on the steps. *)

From S2P Require Import Prelude.

Module RwLock.

Inductive Kind := Read | Write.

#[export] Instance Kind_eq_dec : EqDecision Kind.
Proof. solve_decision. Defined.

(** A queued acquirer: its thread, what it asks for, and how many permits
    it still waits for. *)
Record Waiter := mkWaiter {
  w_thread : nat;
  w_kind : Kind;
  w_needed : nat
}.

Record Lock := mkLock {
  permits : nat;
  waiters : list Waiter;
  holders : list (nat * Kind)
}.

Section WithMaxReads.
Variable max_reads : nat.

(** The permits a guard of each kind holds. *)
Definition kind_permits (k : Kind) : nat :=
  match k with Read => 1 | Write => max_reads end.

(** [RwLock::with_max_readers(value, max_reads)] *)
Definition init : Lock := mkLock max_reads [] [].

(** [Semaphore::acquire(n)] as [read()] and [write()] call it: take the
    permits if there are enough, otherwise take all there are and queue. *)
Definition acquire (s : Lock) (t : nat) (k : Kind) : Lock :=
  let n := kind_permits k in
  if decide (n <= permits s)
  then mkLock (permits s - n) (waiters s) ((t, k) :: holders s)
  else mkLock 0 (waiters s ++ [mkWaiter t k (n - permits s)]) (holders s).

(** [add_permits_locked]: assign [rem] released permits to the queue from
    the front; returns the permits left over, the new queue and the woken
    waiters in the order they are woken. *)
Fixpoint assign (rem : nat) (q : list Waiter) : nat * list Waiter * list (nat * Kind) :=
  match q with
  | [] => (rem, [], [])
  | w :: q' =>
      if decide (w_needed w <= rem)
      then let '(r, q'', woken) := assign (rem - w_needed w) q' in
           (r, q'', (w_thread w, w_kind w) :: woken)
      else (0, mkWaiter (w_thread w) (w_kind w) (w_needed w - rem) :: q', [])
  end.

Fixpoint remove_first (h : nat * Kind) (l : list (nat * Kind)) : list (nat * Kind) :=
  match l with
  | [] => []
  | h' :: l' => if decide (h = h') then l' else h' :: remove_first h l'
  end.

(** Dropping a guard of thread [t]: its permits are released, the woken
    waiters become holders. *)
Definition release (s : Lock) (t : nat) (k : Kind) : Lock :=
  let '(r, q, woken) := assign (kind_permits k) (waiters s) in
  mkLock (permits s + r) q (rev woken ++ remove_first (t, k) (holders s)).

(** A thread that neither holds a guard nor waits. *)
Definition idle (s : Lock) (t : nat) : Prop :=
  (forall k, (t, k) ∉ holders s) /\ (forall w, w ∈ waiters s -> w_thread w <> t).

(** The steps of the lock: an idle thread asks for a guard, or a holder
    drops its guard. *)
Inductive step : Lock -> Lock -> Prop :=
| step_acquire s t k : idle s t -> step s (acquire s t k)
| step_release s t k : (t, k) ∈ holders s -> step s (release s t k).

Inductive reachable : Lock -> Prop :=
| reach_init : reachable init
| reach_step s s' : reachable s -> step s s' -> reachable s'.

(** ** Accounting *)

Definition partial (w : Waiter) : nat := kind_permits (w_kind w) - w_needed w.

Definition held (hs : list (nat * Kind)) : nat := sum_list (map (fun h => kind_permits h.2) hs).

Definition waiting (q : list Waiter) : nat := sum_list (map partial q).

Definition waiter_ok (w : Waiter) : Prop := 0 < w_needed w <= kind_permits (w_kind w).

(** The invariant: every permit is available, held by a guard, or assigned
    to a waiter; the queue is non-empty only when no permit is available;
    a waiter still needs at least one permit, and only the front waiter has
    been assigned some. *)
Definition lock_inv (s : Lock) : Prop :=
  permits s + held (holders s) + waiting (waiters s) = max_reads /\
  (waiters s <> [] -> permits s = 0) /\
  Forall waiter_ok (waiters s) /\
  Forall (fun w => w_needed w = kind_permits (w_kind w)) (drop 1 (waiters s)).

Definition wk (w : Waiter) : nat * Kind := (w_thread w, w_kind w).

(** Releases only: the steps by which holders drop their guards. *)
Inductive release_step : Lock -> Lock -> Prop :=
| rstep s t k : (t, k) ∈ holders s -> release_step s (release s t k).

Inductive releases : Lock -> Lock -> Prop :=
| releases_refl s : releases s s
| releases_step s s1 s2 : release_step s s1 -> releases s1 s2 -> releases s s2.

(** ** The semaphore's bookkeeping *)

Lemma held_app hs1 hs2 : held (hs1 ++ hs2) = held hs1 + held hs2.
Proof. unfold held. by rewrite map_app, sum_list_app. Qed.

Lemma held_rev hs : held (rev hs) = held hs.
Proof. induction hs as [|h hs IH]; simpl; [done|]. rewrite held_app, IH. unfold held; simpl. lia. Qed.

Lemma held_remove_first h hs :
  h ∈ hs -> held hs = kind_permits h.2 + held (remove_first h hs).
Proof.
  induction hs as [|h' hs IH]; intros Hin; [by apply not_elem_of_nil in Hin|]. simpl.
  case_decide as E; [by subst|].
  apply elem_of_cons in Hin as [->|Hin]; [done|].
  unfold held in *; simpl. rewrite (IH Hin). lia.
Qed.

Lemma assign_conserve rem q :
  Forall waiter_ok q ->
  let '(r, q', woken) := assign rem q in rem + waiting q = r + held woken + waiting q'.
Proof.
  revert rem. induction q as [|w q IH]; intros rem Hq; simpl; [unfold held, waiting; simpl; lia|].
  inversion Hq as [|? ? Hw Hq']; subst. unfold waiter_ok in Hw.
  case_decide.
  - specialize (IH (rem - w_needed w) Hq').
    destruct (assign _ q) as [[r q''] woken]. unfold held, waiting, partial in *; simpl in *. lia.
  - unfold held, waiting, partial; simpl. lia.
Qed.

Lemma assign_left rem q :
  (assign rem q).1.2 <> [] -> (assign rem q).1.1 = 0.
Proof.
  revert rem. induction q as [|w q IH]; intros rem; simpl; [done|].
  case_decide; [|done].
  specialize (IH (rem - w_needed w)). destruct (assign _ q) as [[r q''] woken]. done.
Qed.

Lemma assign_nil rem : assign rem [] = (rem, [], []).
Proof. reflexivity. Qed.

Lemma assign_waiters_ok rem q :
  Forall waiter_ok q -> Forall waiter_ok (assign rem q).1.2.
Proof.
  revert rem. induction q as [|w q IH]; intros rem Hq; simpl; [done|].
  inversion Hq as [|? ? Hw Hq']; subst. case_decide.
  - specialize (IH (rem - w_needed w) Hq'). by destruct (assign _ q) as [[r q''] woken].
  - constructor; [|done]. unfold waiter_ok in *; simpl. lia.
Qed.

Lemma assign_tail_full rem q :
  Forall (fun w => w_needed w = kind_permits (w_kind w)) (drop 1 q) ->
  Forall (fun w => w_needed w = kind_permits (w_kind w)) (drop 1 (assign rem q).1.2).
Proof.
  revert rem. induction q as [|w q IH]; intros rem Hq; simpl; [done|].
  case_decide; [|done].
  specialize (IH (rem - w_needed w)). destruct (assign _ q) as [[r q''] woken].
  apply IH. simpl in Hq. by apply Forall_drop.
Qed.

(** FIFO: a release wakes a prefix of the queue, in queue order, and
    leaves the rest queued in the same order. *)
Lemma assign_prefix rem q :
  exists n, (assign rem q).2 = map wk (take n q) /\
            map wk (assign rem q).1.2 = map wk (drop n q).
Proof.
  revert rem. induction q as [|w q IH]; intros rem; simpl; [by exists 0|].
  case_decide.
  - destruct (IH (rem - w_needed w)) as [n [H1 H2]].
    destruct (assign _ q) as [[r q''] woken]. simpl in *.
    exists (S n). simpl. by rewrite H1, H2.
  - exists 0. done.
Qed.

(** The lock's entries: the guards alive and the queued requests, as
    (thread, kind) pairs.  An acquire adds one entry, a release removes
    the dropped guard and moves woken waiters from the queue to the
    guards: the entries are permuted, not changed. *)
Definition entries (s : Lock) : list (nat * Kind) := holders s ++ map wk (waiters s).

Lemma remove_first_perm h hs : h ∈ hs -> hs ≡ₚ h :: remove_first h hs.
Proof.
  induction hs as [|h' hs IH]; intros Hin; [by apply not_elem_of_nil in Hin|]. simpl.
  case_decide as E; [by subst|].
  apply elem_of_cons in Hin as [->|Hin]; [done|].
  rewrite (IH Hin) at 1. apply perm_swap.
Qed.

Lemma entries_acquire s t k : entries (acquire s t k) ≡ₚ (t, k) :: entries s.
Proof.
  unfold entries, acquire. case_decide; simpl; [done|].
  rewrite map_app, app_assoc. simpl. symmetry. apply Permutation_cons_append.
Qed.

Lemma entries_release s t k :
  entries (release s t k) ≡ₚ remove_first (t, k) (holders s) ++ map wk (waiters s).
Proof.
  destruct (assign_prefix (kind_permits k) (waiters s)) as (n & H1 & H2).
  unfold entries, release. destruct (assign _ _) as [[r q] woken]. simpl in *.
  rewrite H2, H1, <- (take_drop n (waiters s)), map_app, (take_drop n (waiters s)).
  rewrite <- Permutation_rev, (Permutation_app_comm (map wk (take n _))), <- app_assoc.
  done.
Qed.

Section Invariant.
Hypothesis max_reads_pos : 0 < max_reads.

Lemma kind_permits_pos k : 0 < kind_permits k.
Proof. destruct k; simpl; lia. Qed.

Lemma lock_inv_init : lock_inv init.
Proof. unfold lock_inv, init, held, waiting; simpl. repeat split; try done; lia. Qed.

Lemma lock_inv_acquire s t k : lock_inv s -> lock_inv (acquire s t k).
Proof.
  intros (Hsum & Hq & Hok & Htail). pose proof (kind_permits_pos k).
  unfold acquire. case_decide as Hn; unfold lock_inv; simpl.
  - repeat split; [|intros Hne; rewrite (Hq Hne) in Hn; lia|done|done].
    unfold held in *; simpl. lia.
  - split; [|split; [intros _; done|split]].
    + unfold waiting, partial in *. rewrite map_app, sum_list_app. simpl. lia.
    + apply Forall_app; split; [done|]. constructor; [|done]. unfold waiter_ok; simpl; lia.
    + destruct (waiters s) as [|w q] eqn:Ew; simpl; [done|].
      rewrite (Hq ltac:(done)), Nat.sub_0_r.
      apply Forall_app; split; [done|]. by constructor.
Qed.

Lemma lock_inv_release s t k :
  lock_inv s -> (t, k) ∈ holders s -> lock_inv (release s t k).
Proof.
  intros (Hsum & Hq & Hok & Htail) Hin. unfold release.
  pose proof (assign_conserve (kind_permits k) (waiters s) Hok) as Hc.
  pose proof (assign_left (kind_permits k) (waiters s)) as Hl.
  pose proof (assign_waiters_ok (kind_permits k) (waiters s) Hok) as Hok'.
  pose proof (assign_tail_full (kind_permits k) (waiters s) Htail) as Htail'.
  pose proof (held_remove_first (t, k) (holders s) Hin) as Hr.
  destruct (waiters s) as [|w q] eqn:Ew.
  - rewrite assign_nil in *. unfold lock_inv; simpl in *.
    split; [|split; [done|split; done]].
    rewrite ?held_app, ?held_rev. unfold held, waiting in *; simpl in *. lia.
  - destruct (assign _ (w :: q)) as [[r q'] woken] eqn:Ea. simpl in *.
    unfold lock_inv; simpl. split; [|split; [|split; done]].
    + rewrite held_app, held_rev. pose proof (Hq ltac:(done)). simpl in *. lia.
    + intros Hne. rewrite (Hl Hne), (Hq ltac:(done)). done.
Qed.

Lemma reachable_inv s : reachable s -> lock_inv s.
Proof.
  induction 1 as [|s s' _ IH Hstep]; [apply lock_inv_init|].
  destruct Hstep; [by apply lock_inv_acquire | by apply lock_inv_release].
Qed.

(** C9. The semaphore's accounting is an invariant of the lock, preserved
    by each of its operations: [lock_inv] holds for
    [RwLock::with_max_readers], and [Semaphore::acquire] (as [read()] and
    [write()] call it) and the release of a guard's permits on drop keep
    it.  So every one of the [max_reads] permits is always available, held
    by an alive guard or assigned to the front waiter; a task waits only
    when no permit is left; and only the front waiter holds part of its
    permits. *)
Theorem rwlock_inv_preserved :
  lock_inv init /\
  (forall s t k, lock_inv s -> lock_inv (acquire s t k)) /\
  (forall s t k, lock_inv s -> (t, k) ∈ holders s -> lock_inv (release s t k)).
Proof.
  split; [apply lock_inv_init|].
  split; [apply lock_inv_acquire | apply lock_inv_release].
Qed.

Lemma held_ge_length hs : length hs <= held hs.
Proof.
  induction hs as [|h hs IH]; simpl; [lia|].
  unfold held in *; simpl. pose proof (kind_permits_pos h.2). lia.
Qed.

Lemma remove_first_nil h hs : h ∈ hs -> remove_first h hs = [] -> hs = [h].
Proof.
  destruct hs as [|h' [|h'' hs]]; simpl; intros Hin;
    [by apply not_elem_of_nil in Hin| |]; case_decide; subst; done.
Qed.

Lemma length_remove_first h hs : h ∈ hs -> S (length (remove_first h hs)) = length hs.
Proof.
  induction hs as [|h' hs IH]; intros Hin; [by apply not_elem_of_nil in Hin|]. simpl.
  case_decide as E; [done|].
  apply elem_of_cons in Hin as [->|Hin]; [done|]. simpl. by rewrite (IH Hin).
Qed.

Lemma waiting_full q :
  Forall (fun w => w_needed w = kind_permits (w_kind w)) q -> waiting q = 0.
Proof.
  induction 1 as [|w q Hw _ IH]; [done|].
  unfold waiting, partial in *; simpl. rewrite Hw, Nat.sub_diag. simpl. done.
Qed.

Lemma no_holders_no_waiters s : lock_inv s -> holders s = [] -> waiters s = [].
Proof.
  intros (Hsum & Hq & Hok & Htail) Hh. rewrite Hh in Hsum.
  destruct (waiters s) as [|w q] eqn:Ew; [done|]. exfalso.
  rewrite (Hq ltac:(done)) in Hsum. simpl in Htail. rewrite drop_0 in Htail.
  inversion Hok as [|? ? Hw _]; subst. unfold waiter_ok in Hw.
  assert (waiting q = 0) as Hq0 by (by apply waiting_full).
  unfold waiting, held, partial in *; simpl in *. fold (waiting q) in Hsum.
  destruct (w_kind w); simpl in *; lia.
Qed.

(** A write guard holds every permit, so it is the only guard. *)
Lemma write_alone s t :
  lock_inv s -> (t, Write) ∈ holders s -> holders s = [(t, Write)].
Proof.
  intros (Hsum & _) Hin.
  pose proof (held_remove_first (t, Write) (holders s) Hin) as Hh. simpl in Hh.
  pose proof (held_ge_length (remove_first (t, Write) (holders s))).
  apply remove_first_nil; [done|].
  destruct (remove_first _ _); [done|]. simpl in *. lia.
Qed.

(** Guards other than the dropped one survive a release, and an acquire
    keeps every guard. *)
Lemma elem_of_remove_first x h hs : x <> h -> x ∈ hs -> x ∈ remove_first h hs.
Proof.
  induction hs as [|h' hs IH]; simpl; intros Hne Hin; [by apply not_elem_of_nil in Hin|].
  case_decide; subst; apply elem_of_cons in Hin as [->|Hin]; try done.
  - by left.
  - right. by apply IH.
Qed.

Lemma release_keeps x s t k : x <> (t, k) -> x ∈ holders s -> x ∈ holders (release s t k).
Proof.
  intros Hne Hin. unfold release. destruct (assign _ _) as [[r q] woken]. simpl.
  apply elem_of_app. right. by apply elem_of_remove_first.
Qed.

Lemma acquire_keeps x s t k : x ∈ holders s -> x ∈ holders (acquire s t k).
Proof. intros Hin. unfold acquire. case_decide; simpl; [by right | done]. Qed.

(** C26. Mutual exclusion: in every reachable state, a thread holding the
    write guard is the only holder of any guard. *)
Theorem rwlock_write_exclusive s t :
  reachable s -> (t, Write) ∈ holders s -> holders s = [(t, Write)].
Proof. intros Hr. apply write_alone. by apply reachable_inv. Qed.

(** At most [max_reads] guards are alive at once: every guard holds at
    least one of the semaphore's permits. *)
Theorem rwlock_holders_bound s : reachable s -> length (holders s) <= max_reads.
Proof.
  intros Hr. destruct (reachable_inv s Hr) as (Hsum & _).
  pose proof (held_ge_length (holders s)). lia.
Qed.

(** C27. No deadlock: in a reachable state where no guard is alive, nobody
    waits and all [max_reads] permits are available. *)
Theorem rwlock_no_deadlock s :
  reachable s -> holders s = [] -> waiters s = [] /\ permits s = max_reads.
Proof.
  intros Hr Hh. pose proof (reachable_inv s Hr) as Hinv.
  pose proof (no_holders_no_waiters s Hinv Hh) as Hw. split; [done|].
  destruct Hinv as (Hsum & _). rewrite Hh, Hw in Hsum. unfold held, waiting in Hsum. simpl in Hsum. lia.
Qed.

(** Fairness: dropping a guard wakes a prefix of the wait queue, in
    queue order; the woken waiters become holders and the others stay
    queued in their order, so no later acquirer overtakes an earlier one. *)
Theorem rwlock_release_fifo s t k :
  exists n,
    holders (release s t k) = rev (map wk (take n (waiters s))) ++ remove_first (t, k) (holders s) /\
    map wk (waiters (release s t k)) = map wk (drop n (waiters s)).
Proof.
  destruct (assign_prefix (kind_permits k) (waiters s)) as (n & H1 & H2).
  exists n. unfold release.
  destruct (assign _ (waiters s)) as [[r q] woken]. simpl in *. by subst.
Qed.

Lemma admitted_measure n s t k :
  2 * length (waiters s) + length (holders s) < n ->
  reachable s -> (t, k) ∈ map wk (waiters s) ->
  exists s', releases s s' /\ (t, k) ∈ holders s'.
Proof.
  revert s. induction n as [|n IH]; intros s Hm Hr Hin; [lia|].
  destruct (holders s) as [|h hs] eqn:Eh.
  { rewrite (no_holders_no_waiters s (reachable_inv s Hr) Eh) in Hin.
    by apply not_elem_of_nil in Hin. }
  assert (Hh : h ∈ holders s) by (rewrite Eh; left).
  set (s1 := release s h.1 h.2).
  assert (Hstep : release_step s s1) by (destruct h; by constructor).
  assert (Hr1 : reachable s1) by (eapply reach_step; [done|]; destruct h; by constructor).
  destruct (assign_prefix (kind_permits h.2) (waiters s)) as (m & Hw & Hq).
  assert (Hs1 : holders s1 = rev (map wk (take m (waiters s))) ++ remove_first h (holders s) /\
                waiters s1 = (assign (kind_permits h.2) (waiters s)).1.2).
  { unfold s1, release. destruct (assign _ _) as [[r q] woken]. simpl in *. subst.
    by destruct h. }
  destruct Hs1 as [Hh1 Hq1].
  rewrite <- (take_drop m (waiters s)), map_app in Hin.
  apply elem_of_app in Hin as [Hin|Hin].
  - exists s1. split; [econstructor; [done | constructor]|].
    rewrite Hh1. apply elem_of_app. left. by apply elem_of_rev.
  - rewrite <- Hq, <- Hq1 in Hin.
    destruct (IH s1) as (s' & Hs' & Hin'); [|done|done|].
    + pose proof (length_remove_first h (holders s) Hh).
      apply (f_equal length) in Hq. rewrite !length_map in Hq.
      rewrite Hh1, Hq1, Hq, length_app, length_rev, length_map.
      pose proof (length_take (waiters s) m). pose proof (length_drop (waiters s) m).
      rewrite Eh in *. simpl in *. lia.
    + exists s'. split; [econstructor; eauto | done].
Qed.

(** C28. Every waiter is eventually admitted: from any reachable state in
    which a thread waits for a guard, the holders dropping their guards
    leads to a state in which that thread holds it. *)
Theorem rwlock_eventually_admitted s t k :
  reachable s -> (t, k) ∈ map wk (waiters s) ->
  exists s', releases s s' /\ (t, k) ∈ holders s'.
Proof. apply (admitted_measure (S (2 * length (waiters s) + length (holders s)))). lia. Qed.

End Invariant.

End WithMaxReads.

(** ** A run with three permits

    Thread 1 reads; thread 2 asks to write and waits for thread 1; thread 3
    asks to read and queues behind the writer instead of sharing thread 1's
    read access. *)

Definition s_read1 : Lock := acquire 3 (init 3) 1 Read.
Definition s_write2 : Lock := acquire 3 s_read1 2 Write.
Definition s_read3 : Lock := acquire 3 s_write2 3 Read.
Definition s_released : Lock := release 3 s_read1 1 Read.
Definition s_writer : Lock := acquire 3 (init 3) 5 Write.

Lemma three_pos : 0 < 3.
Proof. lia. Qed.

Ltac solve_idle :=
  split;
  [ intros k; apply (bool_decide_unpack _); destruct k; vm_compute; reflexivity
  | apply Forall_forall; apply (bool_decide_unpack _); vm_compute; reflexivity ].

Lemma reachable_s_read1 : reachable 3 s_read1.
Proof. eapply reach_step; [constructor|]. constructor. solve_idle. Defined.

Lemma reachable_s_write2 : reachable 3 s_write2.
Proof. eapply reach_step; [exact reachable_s_read1|]. constructor. solve_idle. Defined.

Lemma reachable_s_read3 : reachable 3 s_read3.
Proof. eapply reach_step; [exact reachable_s_write2|]. constructor. solve_idle. Defined.

Lemma reachable_s_released : reachable 3 s_released.
Proof.
  eapply reach_step; [exact reachable_s_read1|].
  constructor. apply (bool_decide_unpack _); vm_compute; reflexivity.
Defined.

Lemma reachable_s_writer : reachable 3 s_writer.
Proof. eapply reach_step; [constructor|]. constructor. solve_idle. Defined.

Lemma rwlock_write_exclusive_witness :
  reachable 3 s_writer /\ (5, Write) ∈ holders s_writer /\ holders s_writer = [(5, Write)].
Proof.
  assert (H : (5, Write) ∈ holders s_writer) by (apply (bool_decide_unpack _); vm_compute; reflexivity).
  exact (conj reachable_s_writer (conj H
    (rwlock_write_exclusive 3 three_pos s_writer 5 reachable_s_writer H))).
Defined.

Lemma rwlock_inv_preserved_witness :
  0 < 3 /\ lock_inv 3 (init 3) /\ lock_inv 3 s_read1 /\ lock_inv 3 s_write2.
Proof.
  destruct (rwlock_inv_preserved 3 three_pos) as (H0 & Hacq & _).
  exact (conj three_pos (conj H0 (conj (Hacq _ 1 Read H0) (Hacq _ 2 Write (Hacq _ 1 Read H0))))).
Defined.

Lemma rwlock_holders_bound_witness :
  0 < 3 /\ reachable 3 s_read3 /\ length (holders s_read3) <= 3.
Proof.
  exact (conj three_pos (conj reachable_s_read3
    (rwlock_holders_bound 3 three_pos s_read3 reachable_s_read3))).
Defined.

Lemma rwlock_no_deadlock_witness :
  reachable 3 s_released /\ holders s_released = [] /\
  waiters s_released = [] /\ permits s_released = 3.
Proof.
  assert (H : holders s_released = []) by (vm_compute; reflexivity).
  exact (conj reachable_s_released (conj H
    (rwlock_no_deadlock 3 three_pos s_released reachable_s_released H))).
Defined.

Lemma rwlock_eventually_admitted_witness :
  reachable 3 s_read3 /\ (2, Write) ∈ map wk (waiters s_read3) /\
  exists s', releases 3 s_read3 s' /\ (2, Write) ∈ holders s'.
Proof.
  assert (H : (2, Write) ∈ map wk (waiters s_read3))
    by (apply (bool_decide_unpack _); vm_compute; reflexivity).
  exact (conj reachable_s_read3 (conj H
    (rwlock_eventually_admitted 3 three_pos s_read3 2 Write reachable_s_read3 H))).
Defined.

End RwLock.
