(* ===== verification/Server.v ===== *)
(** * The HTTP service: the [/predict] handler and [main] (src/src/main.rs)

    [predict] (main.rs lines 28-44) takes the read guard of the shared
    model, prints the prompt, calls [Bert::predict], unwraps its result,
    converts the tensor with [to_vec3] and unwraps again, and answers with
    [Embeddings { ys }].  Every request goes through [middleware_time_elapsed]
    ([Middleware.v]).  [main] (lines 68-90) loads the model with
    [Bert::new(None, None, false, false).unwrap()], wraps it in a
    [tokio::sync::RwLock], shares one [Data<AppModel>] with every worker's
    [App] and serves on [127.0.0.1:8080] with 8 workers.  This file models
    one request and [main]; [Concurrent.v] models the interleaving of many
    requests on the shared lock. *)

From S2P Require Import Prelude Tensor Tokenizer Encoder Model Middleware RwLock.
From Stdlib Require Import ZArith PrimFloat.
Import Tensor Tokenizer Encoder Model Middleware.

Module Server.

(** [struct Prompt { text: String }] *)
Record Prompt := mkPrompt { text : string }.

(** [struct Embeddings { ys: Vec<Vec<Vec<f32>>> }] *)
Record Embeddings := mkEmbeddings { ys : list (list (list float)) }.

(** The lines the handler prints, with those of [Bert::predict]. *)
Inductive HandlerEvent :=
| Predicting (text : string)
| ModelEvent (e : Model.Event).

(** The lines [main] prints or the calls it makes, in order. *)
Inductive MainEvent :=
| LoadEvent (e : Model.Event)
| CurrentPid
| Serving (workers : nat) (addr : string) (port : Z).

(** tokio's [MAX_READS], the permits of [RwLock::new]: [u32::MAX >> 3]. *)
Definition MAX_READS : nat := Nat.pow 2 29 - 1.

Section WithBackend.
Context {BB : BertBackend}.

(** [struct AppModel { bert: RwLock<model::Bert> }]: the lock's state and
    the value it protects. *)
Record AppModel := mkAppModel {
  lock : RwLock.Lock;
  bert : Bert
}.

(** What [main] starts: the shared application data and the server's
    settings. *)
Record ServerConfig := mkServerConfig {
  app_data : AppModel;
  workers : nat;
  bind_addr : string;
  bind_port : Z
}.

(** The body of [predict] once the read guard is held (main.rs lines 35-43). *)
Definition predict_body (b : Bert) (p : Prompt) : logged HandlerEvent Model.Error Embeddings :=
  _ <~ tell (Predicting (text p)) ;;
  t <~ lunwrap_sub ModelEvent (Model.predict b (text p)) ;;
  v <~ lunwrap (to_vec3 t) ;;
  lret (mkEmbeddings v).

(** One request through the middleware, with the model [b] read under the
    guard. *)
Definition serve_request (b : Bert) (hs : Headers) (p : Prompt)
  : logged (Middleware.Event HandlerEvent) Model.Error Embeddings :=
  middleware_time_elapsed hs (predict_body b p).

(** [main] (main.rs lines 68-90): a failure of [Bert::new] panics before the
    server is built; a failure to bind is the [io::Error] [main] returns. *)
Definition main (env : Env) (bind : string -> Z -> result unit string)
  : logged MainEvent string ServerConfig :=
  b <~ lunwrap_sub LoadEvent (Model.new env None None false false) ;;
  let app := mkAppModel (RwLock.init MAX_READS) b in
  _ <~ tell CurrentPid ;;
  _ <~ ltry (fun e => e) (bind "127.0.0.1" 8080%Z) ;;
  _ <~ tell (Serving 8 "127.0.0.1" 8080%Z) ;;
  lret (mkServerConfig app 8 "127.0.0.1" 8080%Z).

(** ** One request *)

Lemma serve_request_Ok b hs p log e :
  serve_request b hs p = (log, Ok e) ->
  exists l t v, Model.predict b (text p) = (l, Ok t) /\ to_vec3 t = Ok v /\
    e = mkEmbeddings v /\
    log = PayloadSize (payload_size hs) ::
            map InnerEvent (Predicting (text p) :: map ModelEvent l) ++ [RequestTook].
Proof.
  unfold serve_request, predict_body. autorewrite with hf_rw. cbn [fst snd app].
  destruct (Model.predict b (text p)) as [l [t|[x|m]]] eqn:Hp;
    unfold lunwrap_sub; cbn [fst snd]; autorewrite with hf_rw; cbn [fst snd app];
    [|done|done].
  destruct (to_vec3 t) as [v|x] eqn:Hv; autorewrite with hf_rw; cbn [fst snd app]; [|done].
  intros [= <- <-]. exists l, t, v. repeat split; [done|].
  by rewrite !app_nil_r.
Qed.

(** C10. A failing [Bert::predict] panics the request at the [unwrap] of
    main.rs line 39: the prompt and the model's lines are printed, no
    response is built, and the middleware never prints the request time.
    The spec asks for an error response instead (sections 4.5 and 7). *)
Theorem serve_request_panics_on_error b hs p l e :
  Model.predict b (text p) = (l, Err (Raise e)) ->
  serve_request b hs p =
    (PayloadSize (payload_size hs) :: map InnerEvent (Predicting (text p) :: map ModelEvent l),
     Err (Panic unwrap_msg)).
Proof.
  intros Hp. unfold serve_request, predict_body. autorewrite with hf_rw. cbn [fst snd app].
  rewrite Hp. autorewrite with hf_rw. cbn [fst snd app]. simpl. done.
Qed.

(** C11. A request that is answered gets the embedding of its own prompt:
    its [ys] is [to_vec3] of the forward pass on the encoding of the
    request's text (ids and zero type ids), a [1 x L x H] nested array,
    [L] the prompt's tokens plus the special tokens and [H] the model's
    hidden size, and the lines of the request are
    printed in the order: payload size, prompt, encoding, forward pass,
    request time. *)
Theorem serve_request_response b hs p log e toks :
  padding (tokenizer b) = None -> truncation (tokenizer b) = None ->
  encode_single (tokenizer b) (text p) = Ok toks ->
  serve_request b hs p = (log, Ok e) ->
  (exists enc out, encode (tokenizer b) (text p) true = Ok enc /\
     forward (model b) (input_ids enc) (input_type_ids enc) = Ok out /\
     to_vec3 out = Ok (ys e)) /\
  log = [PayloadSize (payload_size hs); InnerEvent (Predicting (text p));
         InnerEvent (ModelEvent LoadedAndEncoded); InnerEvent (ModelEvent ForwardPassTook);
         RequestTook] /\
  length (ys e) = 1 /\
  Forall (fun rows => length rows = length toks + n_added_tokens (post_processor (tokenizer b)) /\
            Forall (fun r => length r = hidden_size (model_config (model b))) rows) (ys e).
Proof.
  intros Hpad Htr Hs Hserve.
  destruct (serve_request_Ok b hs p log e Hserve) as (l & t & v & Hp & Hv & -> & ->).
  pose proof (encode_unset_length (tokenizer b) (text p) Hpad Htr) as Henc.
  rewrite Hs in Henc. destruct Henc as (enc & Henc & Hlen).
  rewrite (predict_encoded b (text p) enc Henc) in Hp.
  destruct (forward _ _ _) as [out|] eqn:Hf; [|done]. injection Hp as <- <-.
  destruct (forward_shape (model b) (input_ids enc) (input_type_ids enc) out 1 (length (ids enc)))
    as (Hsh & _); [done| unfold tensor_wf, elem_count; simpl; lia | done |].
  rewrite Hlen in Hsh.
  destruct (to_vec3_dims out v _ _ _ Hsh Hv) as [H1 H2].
  split; [by exists enc, out|]. by split.
Qed.

(** ** [main] *)

(** C16. A model that fails to load stops the process before it serves:
    [main] panics at the [unwrap] of line 71 after the hub requests, without
    printing its PID or binding the port. *)
Theorem main_load_failure env bind l x :
  Model.new env None None false false = (l, Err (Raise x)) ->
  main env bind = (map LoadEvent l, Err (Panic unwrap_msg)).
Proof.
  intros Hn. unfold main. rewrite Hn. autorewrite with hf_rw. done.
Qed.

(** When the model loads and the port binds, [main] serves with 8
    workers on [127.0.0.1:8080], sharing one [AppModel] whose lock is the
    unlocked [RwLock::new] with [MAX_READS] permits around the fully loaded
    model: construction happens before any request can read it. *)
Theorem main_serves env bind l b :
  Model.new env None None false false = (l, Ok b) ->
  bind "127.0.0.1" 8080%Z = Ok tt ->
  main env bind =
    (map LoadEvent l ++ [CurrentPid; Serving 8 "127.0.0.1" 8080%Z],
     Ok (mkServerConfig (mkAppModel (RwLock.init MAX_READS) b) 8 "127.0.0.1" 8080%Z)).
Proof.
  intros Hn Hb. unfold main. rewrite Hn. autorewrite with hf_rw. cbn [fst snd app].
  rewrite Hb. autorewrite with hf_rw. cbn [fst snd app]. rewrite ?app_nil_r. done.
Qed.

(** A [main] that returns has loaded its model with [Bert::new(None, None,
    false, false)] and built the server around it. *)
Lemma main_Ok env bind l cfg :
  main env bind = (l, Ok cfg) ->
  exists l' b, Model.new env None None false false = (l', Ok b) /\
    cfg = mkServerConfig (mkAppModel (RwLock.init MAX_READS) b) 8 "127.0.0.1" 8080%Z.
Proof.
  unfold main. destruct (Model.new env None None false false) as [l' [b|[x|m]]];
    unfold lunwrap_sub; cbn [fst snd]; autorewrite with hf_rw; cbn [fst snd app]; try done.
  destruct (bind _ _) as [[]|e]; autorewrite with hf_rw; cbn [fst snd app]; [|done].
  intros [= _ <-]. eauto.
Qed.

End WithBackend.

(** ** Concrete runs on the demo service of [Model.v] *)

Definition empty_env : @Env EmbeddingBackend := {|
  api_new := Ok tt;
  hub_get repo f := Err (NotFound repo f);
  read_to_string := read_to_string demo_env;
  parse_config := parse_config demo_env;
  tokenizer_from_file := tokenizer_from_file demo_env;
  vb_from_pth := vb_from_pth demo_env;
  vb_from_safetensors := vb_from_safetensors demo_env
|}.

Definition bind_ok (addr : string) (port : Z) : result unit string := Ok tt.

Definition hello : Prompt := mkPrompt "hello world".
Definition too_long : Prompt := mkPrompt "hello world hello".
Definition req_headers : Headers := [("content-length", map digit_byte [2; 4]%Z)].

Definition fallback_embeddings : Embeddings := mkEmbeddings [].

Definition hello_response : Embeddings :=
  match (serve_request demo_bert req_headers hello).2 with
  | Ok e => e
  | Err _ => fallback_embeddings
  end.

Lemma serve_request_panics_on_error_witness :
  Model.predict demo_bert (text too_long) =
    ([LoadedAndEncoded], Err (Raise (CandleErr (InvalidIndex "index-select" 5 4)))) /\
  serve_request demo_bert req_headers too_long =
    (PayloadSize (payload_size req_headers) ::
       map InnerEvent (Predicting (text too_long) :: map ModelEvent [LoadedAndEncoded]),
     Err (Panic unwrap_msg)).
Proof.
  assert (H : Model.predict demo_bert (text too_long) =
    ([LoadedAndEncoded], Err (Raise (CandleErr (InvalidIndex "index-select" 5 4)))))
    by (vm_compute; reflexivity).
  exact (conj H (serve_request_panics_on_error demo_bert req_headers too_long _ _ H)).
Defined.

Lemma serve_request_response_witness :
  padding (tokenizer demo_bert) = None /\ truncation (tokenizer demo_bert) = None /\
  encode_single (tokenizer demo_bert) (text hello) = Ok [4; 5]%Z /\
  serve_request demo_bert req_headers hello =
    ((serve_request demo_bert req_headers hello).1, Ok hello_response) /\
  ((exists enc out, encode (tokenizer demo_bert) (text hello) true = Ok enc /\
      forward (model demo_bert) (input_ids enc) (input_type_ids enc) = Ok out /\
      to_vec3 out = Ok (ys hello_response)) /\
   (serve_request demo_bert req_headers hello).1 =
     [PayloadSize (payload_size req_headers); InnerEvent (Predicting (text hello));
      InnerEvent (ModelEvent LoadedAndEncoded); InnerEvent (ModelEvent ForwardPassTook);
      RequestTook] /\
   length (ys hello_response) = 1 /\
   Forall (fun rows => length rows = 2 + n_added_tokens (post_processor (tokenizer demo_bert)) /\
             Forall (fun r => length r = hidden_size (model_config (model demo_bert))) rows)
          (ys hello_response)).
Proof.
  assert (H1 : padding (tokenizer demo_bert) = None) by (vm_compute; reflexivity).
  assert (H2 : truncation (tokenizer demo_bert) = None) by (vm_compute; reflexivity).
  assert (H3 : encode_single (tokenizer demo_bert) (text hello) = Ok [4; 5]%Z)
    by (vm_compute; reflexivity).
  assert (H4 : serve_request demo_bert req_headers hello =
    ((serve_request demo_bert req_headers hello).1, Ok hello_response))
    by (vm_compute; reflexivity).
  exact (conj H1 (conj H2 (conj H3 (conj H4
    (serve_request_response demo_bert req_headers hello _ _ [4; 5]%Z H1 H2 H3 H4))))).
Defined.

Lemma main_load_failure_witness :
  Model.new empty_env None None false false =
    ([Fetch (repo_of None None) "config.json"],
     Err (Raise (HubError (NotFound (repo_of None None) "config.json")))) /\
  main empty_env bind_ok = (map LoadEvent [Fetch (repo_of None None) "config.json"],
                            Err (Panic unwrap_msg)).
Proof.
  assert (H : Model.new empty_env None None false false =
    ([Fetch (repo_of None None) "config.json"],
     Err (Raise (HubError (NotFound (repo_of None None) "config.json")))))
    by (vm_compute; reflexivity).
  exact (conj H (main_load_failure empty_env bind_ok _ _ H)).
Defined.

Lemma main_serves_witness :
  Model.new demo_env None None false false =
    ((Model.new demo_env None None false false).1, Ok demo_bert) /\
  bind_ok "127.0.0.1" 8080%Z = Ok tt /\
  main demo_env bind_ok =
    (map LoadEvent (Model.new demo_env None None false false).1 ++
       [CurrentPid; Serving 8 "127.0.0.1" 8080%Z],
     Ok (mkServerConfig (mkAppModel (RwLock.init MAX_READS) demo_bert) 8 "127.0.0.1" 8080%Z)).
Proof.
  assert (H1 : Model.new demo_env None None false false =
    ((Model.new demo_env None None false false).1, Ok demo_bert)) by (vm_compute; reflexivity).
  assert (H2 : bind_ok "127.0.0.1" 8080%Z = Ok tt) by reflexivity.
  exact (conj H1 (conj H2 (main_serves demo_env bind_ok _ _ H1 H2))).
Defined.

End Server.
