(* ===== verification/JsonScan.v ===== *)
(** * JSON on the wire, part 1: serde_json's scanner and writer

    The pieces of [serde_json] (its [Deserializer] over a [SliceRead] and
    its [Serializer] with the [CompactFormatter]) that the request body and
    the response of [POST /predict] go through; [Json.v] puts them together
    into the [Deserialize] impl of [Prompt] and the [Serialize] impl of
    [Embeddings] (main.rs lines 13-21).  The input is a list of bytes; each
    scanner returns the input after what it read, or the error code
    serde_json reports (error positions are not modelled).

    - [skip_ws] is [parse_whitespace]; [scan_str] and [parse_string] are
      [parse_str] with its escapes, the UTF-16 surrogate pairs of [\u]
      escapes and [str::from_utf8] ([utf8_valid], the well-formed sequences
      of the Unicode standard) on the decoded bytes; [ignore_str] is the
      scan of a string that is skipped.
    - [ignore_integer], [ignore_decimal], [ignore_exponent] and
      [parse_ident] scan numbers and the literals [null], [true], [false].
    - [skip_value] is [ignore_value], which skips any JSON value; serde_json
      keeps an explicit stack of open brackets, the model recurses.  It
      runs on fuel, and [skip_value_fuel] shows that [length + 1] is
      enough: more fuel gives the same result.
    - [escape_str] is [format_escaped_str_contents] with serde_json's
      [ESCAPE] table, [serialize_seq] its compact arrays.

    The lemmas show that each scanner consumes input, that what follows a
    value does not change how it is scanned (for a number: as long as no
    digit, dot or exponent follows), and that an escaped string scans back
    to its bytes. *)

From S2P Require Import Prelude Middleware.
From Stdlib Require Import ZArith Strings.Byte.
Import Middleware.

Module JsonScan.

(** [serde_json::error::ErrorCode]: the syntax errors of the scanner. *)
Inductive ErrorCode :=
| EofWhileParsingList | EofWhileParsingObject | EofWhileParsingString
| EofWhileParsingValue | ExpectedColon | ExpectedListCommaOrEnd
| ExpectedObjectCommaOrEnd | ExpectedSomeIdent | ExpectedSomeValue
| InvalidEscape | InvalidNumber | InvalidUnicodeCodePoint
| ControlCharacterWhileParsingString | KeyMustBeAString
| LoneLeadingSurrogateInHexEscape | TrailingCharacters | TrailingComma
| UnexpectedEndOfHexEscape.

(** [serde_json::Error]: a syntax error, or one of the errors of
    [serde::de::Error] that the derived visitor raises. *)
Inductive JsonError :=
| Syntax (c : ErrorCode)
| InvalidType
| InvalidLength (n : nat)
| MissingField (field : string)
| DuplicateField (field : string).

(** ** Bytes *)

Definition in_range (lo hi : Z) (c : byte) : bool := bool_decide (lo <= byte_val c <= hi)%Z.

Definition is_digit : byte -> bool := in_range 48 57.

(** The bytes [skip_to_escape] stops at: [0x00 ..= 0x1F]. *)
Definition is_control : byte -> bool := in_range 0 31.

Definition byte_of_Z (z : Z) : byte :=
  match Byte.of_N (Z.to_N z) with Some b => b | None => x00 end.

(** [parse_whitespace]: space, line feed, tab, carriage return. *)
Definition is_ws (c : byte) : bool :=
  match c with " "%byte | x0a | x09 | x0d => true | _ => false end.

Fixpoint skip_ws (inp : list byte) : list byte :=
  match inp with
  | c :: r => if is_ws c then skip_ws r else inp
  | [] => []
  end.

(** One hexadecimal digit, either case, and [decode_four_hex_digits]. *)
Definition hex_val (c : byte) : option Z :=
  if in_range 48 57 c then Some (byte_val c - 48)%Z
  else if in_range 97 102 c then Some (byte_val c - 87)%Z
  else if in_range 65 70 c then Some (byte_val c - 55)%Z
  else None.

Definition decode_hex4 (a b c d : byte) : option Z :=
  match hex_val a, hex_val b, hex_val c, hex_val d with
  | Some a', Some b', Some c', Some d' =>
      Some (Z.lor (Z.shiftl a' 12) (Z.lor (Z.shiftl b' 8) (Z.lor (Z.shiftl c' 4) d')))
  | _, _, _, _ => None
  end.

(** [char::encode_utf8] of a code point (serde_json's [push_wtf8_codepoint]
    on a scalar value). *)
Definition encode_utf8 (n : Z) : list byte :=
  if bool_decide (n < 0x80)%Z then [byte_of_Z n]
  else if bool_decide (n < 0x800)%Z then
    [byte_of_Z (Z.lor 0xC0 (Z.shiftr n 6)); byte_of_Z (Z.lor 0x80 (Z.land n 0x3F))]
  else if bool_decide (n < 0x10000)%Z then
    [byte_of_Z (Z.lor 0xE0 (Z.shiftr n 12)); byte_of_Z (Z.lor 0x80 (Z.land (Z.shiftr n 6) 0x3F));
     byte_of_Z (Z.lor 0x80 (Z.land n 0x3F))]
  else
    [byte_of_Z (Z.lor 0xF0 (Z.shiftr n 18)); byte_of_Z (Z.lor 0x80 (Z.land (Z.shiftr n 12) 0x3F));
     byte_of_Z (Z.lor 0x80 (Z.land (Z.shiftr n 6) 0x3F)); byte_of_Z (Z.lor 0x80 (Z.land n 0x3F))].

(** [str::from_utf8] accepts exactly the well-formed sequences of the
    Unicode standard (table 3-7): no overlong forms, no surrogates, nothing
    above [U+10FFFF]. *)
Fixpoint utf8_valid (bs : list byte) : bool :=
  match bs with
  | [] => true
  | c :: r =>
      if in_range 0x00 0x7F c then utf8_valid r
      else if in_range 0xC2 0xDF c then
        match r with c1 :: r1 => in_range 0x80 0xBF c1 && utf8_valid r1 | [] => false end
      else if in_range 0xE0 0xEF c then
        match r with
        | c1 :: c2 :: r2 =>
            in_range (if bool_decide (c = xe0) then 0xA0 else 0x80)
                     (if bool_decide (c = xed) then 0x9F else 0xBF) c1 &&
            in_range 0x80 0xBF c2 && utf8_valid r2
        | _ => false
        end
      else if in_range 0xF0 0xF4 c then
        match r with
        | c1 :: c2 :: c3 :: r3 =>
            in_range (if bool_decide (c = xf0) then 0x90 else 0x80)
                     (if bool_decide (c = xf4) then 0x8F else 0xBF) c1 &&
            in_range 0x80 0xBF c2 && in_range 0x80 0xBF c3 && utf8_valid r3
        | _ => false
        end
      else false
  end.

(** ** Strings *)

Definition cons_ok (pre : list byte) (m : result (list byte * list byte) JsonError)
  : result (list byte * list byte) JsonError :=
  match m with Ok (bs, r) => Ok (pre ++ bs, r) | Err e => Err e end.

Definition is_lead_surrogate (n : Z) : bool := bool_decide (0xD800 <= n <= 0xDBFF)%Z.
Definition is_trail_surrogate (n : Z) : bool := bool_decide (0xDC00 <= n <= 0xDFFF)%Z.

(** The code point of a surrogate pair. *)
Definition surrogate_pair (n1 n2 : Z) : Z :=
  (Z.lor (Z.shiftl (n1 - 0xD800) 10) (n2 - 0xDC00) + 0x10000)%Z.

(** [SliceRead::parse_str_bytes] with [validate = true], after the opening
    quote: the bytes of the string with its escapes decoded ([parse_escape],
    [parse_unicode_escape]), and the input after the closing quote.  A
    [\u] escape reads four bytes ([decode_hex_escape]); a leading surrogate
    must be followed by [\u] and a trailing one. *)
Fixpoint scan_str (inp : list byte) : result (list byte * list byte) JsonError :=
  match inp with
  | [] => Err (Syntax EofWhileParsingString)
  | x22 :: r => Ok ([], r)
  | "\"%byte :: [] => Err (Syntax EofWhileParsingString)
  | "\"%byte :: e :: r =>
      match e with
      | x22 => cons_ok [x22] (scan_str r)
      | "\"%byte => cons_ok ["\"%byte] (scan_str r)
      | "/"%byte => cons_ok ["/"%byte] (scan_str r)
      | "b"%byte => cons_ok [x08] (scan_str r)
      | "f"%byte => cons_ok [x0c] (scan_str r)
      | "n"%byte => cons_ok [x0a] (scan_str r)
      | "r"%byte => cons_ok [x0d] (scan_str r)
      | "t"%byte => cons_ok [x09] (scan_str r)
      | "u"%byte =>
          match r with
          | a :: b :: c :: d :: r1 =>
              match decode_hex4 a b c d with
              | None => Err (Syntax InvalidEscape)
              | Some n =>
                  if is_trail_surrogate n then Err (Syntax LoneLeadingSurrogateInHexEscape)
                  else if is_lead_surrogate n then
                    match r1 with
                    | "\"%byte :: "u"%byte :: a2 :: b2 :: c2 :: d2 :: r2 =>
                        match decode_hex4 a2 b2 c2 d2 with
                        | None => Err (Syntax InvalidEscape)
                        | Some n2 =>
                            if is_trail_surrogate n2
                            then cons_ok (encode_utf8 (surrogate_pair n n2)) (scan_str r2)
                            else Err (Syntax LoneLeadingSurrogateInHexEscape)
                        end
                    | "\"%byte :: "u"%byte :: _ => Err (Syntax EofWhileParsingString)
                    | "\"%byte :: [] => Err (Syntax EofWhileParsingString)
                    | [] => Err (Syntax EofWhileParsingString)
                    | _ => Err (Syntax UnexpectedEndOfHexEscape)
                    end
                  else cons_ok (encode_utf8 n) (scan_str r1)
              end
          | _ => Err (Syntax EofWhileParsingString)
          end
      | _ => Err (Syntax InvalidEscape)
      end
  | c :: r =>
      if is_control c then Err (Syntax ControlCharacterWhileParsingString)
      else cons_ok [c] (scan_str r)
  end.

(** [Read::parse_str]: the decoded bytes must be UTF-8 ([as_str]). *)
Definition parse_string (inp : list byte) : result (list byte * list byte) JsonError :=
  match scan_str inp with
  | Ok (bs, r) => if utf8_valid bs then Ok (bs, r) else Err (Syntax InvalidUnicodeCodePoint)
  | Err e => Err e
  end.

(** [SliceRead::ignore_str]: the same scan without decoding; a [\u]
    escape only needs four hexadecimal digits and the bytes are not
    checked for UTF-8. *)
Fixpoint ignore_str (inp : list byte) : result (list byte) JsonError :=
  match inp with
  | [] => Err (Syntax EofWhileParsingString)
  | x22 :: r => Ok r
  | "\"%byte :: [] => Err (Syntax EofWhileParsingString)
  | "\"%byte :: e :: r =>
      match e with
      | x22 | "\"%byte | "/"%byte | "b"%byte | "f"%byte | "n"%byte | "r"%byte | "t"%byte =>
          ignore_str r
      | "u"%byte =>
          match r with
          | a :: b :: c :: d :: r1 =>
              match decode_hex4 a b c d with
              | Some _ => ignore_str r1
              | None => Err (Syntax InvalidEscape)
              end
          | _ => Err (Syntax EofWhileParsingString)
          end
      | _ => Err (Syntax InvalidEscape)
      end
  | c :: r =>
      if is_control c then Err (Syntax ControlCharacterWhileParsingString) else ignore_str r
  end.

(** ** Numbers and literals *)

Fixpoint skip_digits (inp : list byte) : list byte :=
  match inp with
  | c :: r => if is_digit c then skip_digits r else inp
  | [] => []
  end.

(** The optional sign of an exponent. *)
Definition skip_sign (inp : list byte) : list byte :=
  match inp with ("+"%byte | "-"%byte) :: r => r | _ => inp end.

(** [ignore_exponent], after the [e]: an optional sign and at least one
    digit. *)
Definition ignore_exponent (inp : list byte) : result (list byte) JsonError :=
  match skip_sign inp with
  | c :: r' => if is_digit c then Ok (skip_digits r') else Err (Syntax InvalidNumber)
  | [] => Err (Syntax InvalidNumber)
  end.

(** After the digits of a fraction, or of an integer without one: an
    optional exponent. *)
Definition after_fraction (inp : list byte) : result (list byte) JsonError :=
  match inp with
  | ("e"%byte | "E"%byte) :: r => ignore_exponent r
  | _ => Ok inp
  end.

(** [ignore_decimal], after the [.]: at least one digit. *)
Definition ignore_decimal (inp : list byte) : result (list byte) JsonError :=
  match inp with
  | c :: r => if is_digit c then after_fraction (skip_digits r) else Err (Syntax InvalidNumber)
  | [] => Err (Syntax InvalidNumber)
  end.

Definition after_integer (inp : list byte) : result (list byte) JsonError :=
  match inp with
  | "."%byte :: r => ignore_decimal r
  | _ => after_fraction inp
  end.

(** [ignore_integer], after an optional [-]: one [0], or a digit [1-9]
    and more digits; then the fraction and the exponent. *)
Definition ignore_integer (inp : list byte) : result (list byte) JsonError :=
  match inp with
  | "0"%byte :: r =>
      match r with
      | c :: _ => if is_digit c then Err (Syntax InvalidNumber) else after_integer r
      | [] => after_integer r
      end
  | c :: r => if in_range 49 57 c then after_integer (skip_digits r) else Err (Syntax InvalidNumber)
  | [] => Err (Syntax InvalidNumber)
  end.

(** [parse_ident]: the rest of [null], [true] or [false]. *)
Fixpoint parse_ident (ident inp : list byte) : result (list byte) JsonError :=
  match ident, inp with
  | [], _ => Ok inp
  | _ :: _, [] => Err (Syntax EofWhileParsingValue)
  | e :: ident', c :: r =>
      if bool_decide (c = e) then parse_ident ident' r else Err (Syntax ExpectedSomeIdent)
  end.

(** ** Skipping a value: [ignore_value] *)

(** One member of an object being skipped: the key, the colon, and the
    value, skipped by [skip]. *)
Definition skip_member (skip : list byte -> result (list byte) JsonError) (inp : list byte)
  : result (list byte) JsonError :=
  match skip_ws inp with
  | x22 :: r =>
      r1 <- ignore_str r ;;
      match skip_ws r1 with
      | ":"%byte :: r2 => skip r2
      | [] => Err (Syntax EofWhileParsingObject)
      | _ => Err (Syntax ExpectedColon)
      end
  | [] => Err (Syntax EofWhileParsingObject)
  | _ => Err (Syntax KeyMustBeAString)
  end.

(** [Deserializer::ignore_value] keeps a stack of the open arrays and
    objects; here the stack is the recursion.  [skip_elems] and
    [skip_members] are its loop after a value inside an array or an
    object.  Every call consumes input, so [length inp + 1] is enough fuel
    ([skip_value_fuel]); the case of no fuel is never reached. *)
Fixpoint skip_value (fuel : nat) (inp : list byte) : result (list byte) JsonError :=
  match fuel with
  | O => Err (Syntax EofWhileParsingValue)
  | S f =>
      match skip_ws inp with
      | [] => Err (Syntax EofWhileParsingValue)
      | "n"%byte :: r => parse_ident (String.list_byte_of_string "ull") r
      | "t"%byte :: r => parse_ident (String.list_byte_of_string "rue") r
      | "f"%byte :: r => parse_ident (String.list_byte_of_string "alse") r
      | "-"%byte :: r => ignore_integer r
      | x22 :: r => ignore_str r
      | "["%byte :: r =>
          match skip_ws r with
          | "]"%byte :: r' => Ok r'
          | [] => Err (Syntax EofWhileParsingList)
          | _ => r1 <- skip_value f r ;; skip_elems f r1
          end
      | "{"%byte :: r =>
          match skip_ws r with
          | "}"%byte :: r' => Ok r'
          | [] => Err (Syntax EofWhileParsingObject)
          | _ => r1 <- skip_member (skip_value f) r ;; skip_members f r1
          end
      | c :: r => if is_digit c then ignore_integer (c :: r) else Err (Syntax ExpectedSomeValue)
      end
  end
with skip_elems (fuel : nat) (inp : list byte) : result (list byte) JsonError :=
  match fuel with
  | O => Err (Syntax EofWhileParsingList)
  | S f =>
      match skip_ws inp with
      | ","%byte :: r => r1 <- skip_value f r ;; skip_elems f r1
      | "]"%byte :: r => Ok r
      | [] => Err (Syntax EofWhileParsingList)
      | _ => Err (Syntax ExpectedListCommaOrEnd)
      end
  end
with skip_members (fuel : nat) (inp : list byte) : result (list byte) JsonError :=
  match fuel with
  | O => Err (Syntax EofWhileParsingObject)
  | S f =>
      match skip_ws inp with
      | ","%byte :: r => r1 <- skip_member (skip_value f) r ;; skip_members f r1
      | "}"%byte :: r => Ok r
      | [] => Err (Syntax EofWhileParsingObject)
      | _ => Err (Syntax ExpectedObjectCommaOrEnd)
      end
  end.

Definition ignore_value (inp : list byte) : result (list byte) JsonError :=
  skip_value (S (length inp)) inp.

(** ** Writing *)

Definition hex_digit (n : Z) : byte := byte_of_Z (if bool_decide (n < 10)%Z then 48 + n else 87 + n)%Z.

(** serde_json's [ESCAPE] table in [format_escaped_str_contents]: the
    quote, the backslash and the control characters are escaped, by the
    short forms JSON has or as [\u00XX] with lowercase digits; every other
    byte is copied. *)
Definition escape_byte (c : byte) : list byte :=
  match c with
  | x22 => ["\"%byte; x22]
  | "\"%byte => ["\"%byte; "\"%byte]
  | x08 => ["\"%byte; "b"%byte]
  | x0c => ["\"%byte; "f"%byte]
  | x0a => ["\"%byte; "n"%byte]
  | x0d => ["\"%byte; "r"%byte]
  | x09 => ["\"%byte; "t"%byte]
  | _ =>
      if is_control c
      then ["\"%byte; "u"%byte; "0"%byte; "0"%byte;
            hex_digit (byte_val c / 16)%Z; hex_digit (byte_val c mod 16)%Z]
      else [c]
  end.

Definition escape_str (s : list byte) : list byte := concat (map escape_byte s).

(** [format_escaped_str] *)
Definition format_escaped_str (s : list byte) : list byte := x22 :: escape_str s ++ [x22].

Fixpoint comma_sep (items : list (list byte)) : list byte :=
  match items with
  | [] => []
  | [x] => x
  | x :: r => x ++ ","%byte :: comma_sep r
  end.

(** [collect_seq] with the [CompactFormatter]: the elements between
    brackets, separated by commas. *)
Definition serialize_seq {A} (ser : A -> list byte) (l : list A) : list byte :=
  "["%byte :: comma_sep (map ser l) ++ ["]"%byte].

(** ** Unfolding equations: the byte cases of each scanner, once *)

Lemma skip_value_eq f inp :
  skip_value (S f) inp =
  match skip_ws inp with
  | [] => Err (Syntax EofWhileParsingValue)
  | c :: r =>
      if bool_decide (c = "n"%byte) then parse_ident (String.list_byte_of_string "ull") r
      else if bool_decide (c = "t"%byte) then parse_ident (String.list_byte_of_string "rue") r
      else if bool_decide (c = "f"%byte) then parse_ident (String.list_byte_of_string "alse") r
      else if bool_decide (c = "-"%byte) then ignore_integer r
      else if bool_decide (c = x22) then ignore_str r
      else if bool_decide (c = "["%byte) then
        match skip_ws r with
        | [] => Err (Syntax EofWhileParsingList)
        | c' :: r' =>
            if bool_decide (c' = "]"%byte) then Ok r' else r1 <- skip_value f r ;; skip_elems f r1
        end
      else if bool_decide (c = "{"%byte) then
        match skip_ws r with
        | [] => Err (Syntax EofWhileParsingObject)
        | c' :: r' =>
            if bool_decide (c' = "}"%byte) then Ok r'
            else r1 <- skip_member (skip_value f) r ;; skip_members f r1
        end
      else if is_digit c then ignore_integer (c :: r) else Err (Syntax ExpectedSomeValue)
  end.
Proof.
  cbn [skip_value]. destruct (skip_ws inp) as [|c r]; [done|].
  destruct c; try reflexivity.
  all: destruct (skip_ws r) as [|c' r']; [done|]; destruct c'; reflexivity.
Qed.

Lemma skip_elems_eq f inp :
  skip_elems (S f) inp =
  match skip_ws inp with
  | [] => Err (Syntax EofWhileParsingList)
  | c :: r =>
      if bool_decide (c = ","%byte) then r1 <- skip_value f r ;; skip_elems f r1
      else if bool_decide (c = "]"%byte) then Ok r
      else Err (Syntax ExpectedListCommaOrEnd)
  end.
Proof. cbn [skip_elems]. destruct (skip_ws inp) as [|c r]; [done|]. destruct c; reflexivity. Qed.

Lemma skip_members_eq f inp :
  skip_members (S f) inp =
  match skip_ws inp with
  | [] => Err (Syntax EofWhileParsingObject)
  | c :: r =>
      if bool_decide (c = ","%byte) then r1 <- skip_member (skip_value f) r ;; skip_members f r1
      else if bool_decide (c = "}"%byte) then Ok r
      else Err (Syntax ExpectedObjectCommaOrEnd)
  end.
Proof. cbn [skip_members]. destruct (skip_ws inp) as [|c r]; [done|]. destruct c; reflexivity. Qed.

Lemma skip_member_eq skip inp :
  skip_member skip inp =
  match skip_ws inp with
  | [] => Err (Syntax EofWhileParsingObject)
  | c :: r =>
      if bool_decide (c = x22) then
        r1 <- ignore_str r ;;
        match skip_ws r1 with
        | [] => Err (Syntax EofWhileParsingObject)
        | c' :: r2 => if bool_decide (c' = ":"%byte) then skip r2 else Err (Syntax ExpectedColon)
        end
      else Err (Syntax KeyMustBeAString)
  end.
Proof.
  unfold skip_member. destruct (skip_ws inp) as [|c r]; [done|].
  destruct c; try reflexivity. cbn. destruct (ignore_str r) as [r1|]; [|done]. simpl.
  destruct (skip_ws r1) as [|c' r2]; [done|]. destruct c'; reflexivity.
Qed.

Lemma after_fraction_eq inp :
  after_fraction inp =
  match inp with
  | c :: r => if bool_decide (c = "e"%byte \/ c = "E"%byte) then ignore_exponent r else Ok inp
  | [] => Ok []
  end.
Proof. destruct inp as [|c r]; [done|]. destruct c; reflexivity. Qed.

Lemma after_integer_eq inp :
  after_integer inp =
  match inp with
  | c :: r => if bool_decide (c = "."%byte) then ignore_decimal r else after_fraction inp
  | [] => Ok []
  end.
Proof. destruct inp as [|c r]; [done|]. destruct c; reflexivity. Qed.

Lemma ignore_integer_eq inp :
  ignore_integer inp =
  match inp with
  | c :: r =>
      if bool_decide (c = "0"%byte) then
        match r with
        | d :: _ => if is_digit d then Err (Syntax InvalidNumber) else after_integer r
        | [] => after_integer r
        end
      else if in_range 49 57 c then after_integer (skip_digits r) else Err (Syntax InvalidNumber)
  | [] => Err (Syntax InvalidNumber)
  end.
Proof. destruct inp as [|c r]; [done|]. destruct c; reflexivity. Qed.

Lemma skip_sign_eq inp :
  skip_sign inp = match inp with
                  | c :: r => if bool_decide (c = "+"%byte \/ c = "-"%byte) then r else inp
                  | [] => [] end.
Proof. destruct inp as [|c r]; [done|]. destruct c; reflexivity. Qed.

(** ** Scanners consume input, and what follows does not change them *)

Lemma skip_ws_length inp : length (skip_ws inp) <= length inp.
Proof. induction inp as [|c r IH]; simpl; [lia|]. destruct (is_ws c); simpl; lia. Qed.

Lemma skip_ws_app inp l c r : skip_ws inp = c :: r -> skip_ws (inp ++ l) = c :: r ++ l.
Proof.
  induction inp as [|c' inp IH]; simpl; [done|].
  destruct (is_ws c'); [apply IH | by intros [= -> ->]].
Qed.

Lemma ignore_str_spec inp r :
  ignore_str inp = Ok r -> length r < length inp /\ forall l, ignore_str (inp ++ l) = Ok (r ++ l).
Proof.
  revert r. induction inp as [inp IH] using (induction_ltof1 _ (@length _)); unfold ltof in IH.
  intros r0 H. destruct inp as [|c r]; [discriminate|].
  destruct c; cbn [ignore_str] in H; try discriminate H;
    try (destruct (IH r ltac:(simpl; lia) r0 H) as [Hl Ha]; split; [simpl; lia | intros l; exact (Ha l)]);
    try (injection H as <-; split; [simpl; lia | done]).
  destruct r as [|e r]; [discriminate|].
  destruct e; try discriminate H;
    try (destruct (IH r ltac:(simpl; lia) r0 H) as [Hl Ha]; split; [simpl; lia | intros l; exact (Ha l)]).
  destruct r as [|a [|b [|c [|d r1]]]]; try discriminate H.
  destruct (decode_hex4 a b c d) eqn:Hd; [|discriminate H].
  destruct (IH r1 ltac:(simpl; lia) r0 H) as [Hl Ha]. split; [simpl; lia|].
  intros l. cbn. rewrite Hd. apply Ha.
Qed.

Lemma parse_ident_spec ident inp r :
  parse_ident ident inp = Ok r ->
  length r <= length inp /\ forall l, parse_ident ident (inp ++ l) = Ok (r ++ l).
Proof.
  revert inp. induction ident as [|e ident IH]; intros inp H.
  - injection H as <-. done.
  - destruct inp as [|c inp]; [discriminate|]. simpl in *.
    case_bool_decide; [|discriminate]. destruct (IH inp H) as [Hl Ha]. split; [lia | done].
Qed.

(** What may follow a number without extending it. *)
Definition num_delim (l : list byte) : Prop :=
  match l with
  | [] => True
  | c :: _ => is_digit c = false /\ c <> "."%byte /\ c <> "e"%byte /\ c <> "E"%byte
  end.

Definition digit_free (l : list byte) : Prop :=
  match l with [] => True | c :: _ => is_digit c = false end.

Lemma num_delim_digit_free l : num_delim l -> digit_free l.
Proof. destruct l; simpl; tauto. Qed.

Lemma skip_digits_spec x l :
  length (skip_digits x) <= length x /\
  ((skip_digits x = [] -> digit_free l) -> skip_digits (x ++ l) = skip_digits x ++ l).
Proof.
  induction x as [|c x [IHl IHa]]; simpl.
  - split; [lia|]. intros H. specialize (H eq_refl).
    destruct l as [|c l]; [done|]. simpl in *. by rewrite H.
  - destruct (is_digit c); simpl; [split; [lia | exact IHa] | split; [lia | intros _; reflexivity]].
Qed.

Lemma skip_digits_length x : length (skip_digits x) <= length x.
Proof. exact (proj1 (skip_digits_spec x [])). Qed.

Lemma skip_sign_app x l : x <> [] -> skip_sign (x ++ l) = skip_sign x ++ l.
Proof. destruct x as [|c x]; [done|]. intros _. rewrite !skip_sign_eq. simpl. by case_bool_decide. Qed.

Lemma skip_sign_length x : length (skip_sign x) <= length x.
Proof. rewrite skip_sign_eq. destruct x as [|c x]; [done|]. case_bool_decide; simpl; lia. Qed.

Lemma ignore_exponent_spec x r :
  ignore_exponent x = Ok r -> length r < length x /\
  forall l, (r = [] -> digit_free l) -> ignore_exponent (x ++ l) = Ok (r ++ l).
Proof.
  unfold ignore_exponent. intros H.
  destruct (skip_sign x) as [|d y] eqn:E; [discriminate|].
  destruct (is_digit d) eqn:Hd; [|discriminate]. injection H as <-.
  pose proof (skip_sign_length x) as Hs. rewrite E in Hs. simpl in Hs.
  split; [pose proof (skip_digits_length y); lia|].
  intros l Hl. rewrite skip_sign_app by (intros ->; discriminate).
  rewrite E. simpl. rewrite Hd. f_equal. by apply skip_digits_spec.
Qed.

Lemma after_fraction_spec x r :
  after_fraction x = Ok r -> length r <= length x /\
  forall l, (r = [] -> num_delim l) -> after_fraction (x ++ l) = Ok (r ++ l).
Proof.
  rewrite after_fraction_eq. intros H. destruct x as [|c x].
  - injection H as <-. split; [done|]. intros l Hl. specialize (Hl eq_refl).
    rewrite after_fraction_eq. destruct l as [|d l]; [done|].
    destruct Hl as (_ & _ & He & HE). simpl. by rewrite bool_decide_false by tauto.
  - case_bool_decide.
    + destruct (ignore_exponent_spec x r H) as [Hl Ha]. split; [simpl; lia|].
      intros l Hr. rewrite after_fraction_eq. simpl. rewrite bool_decide_true by done.
      apply Ha. intros ->. by apply num_delim_digit_free, Hr.
    + injection H as <-. split; [done|]. intros l _.
      rewrite after_fraction_eq. simpl. by rewrite bool_decide_false.
Qed.

Lemma ignore_decimal_spec x r :
  ignore_decimal x = Ok r -> length r < length x /\
  forall l, (r = [] -> num_delim l) -> ignore_decimal (x ++ l) = Ok (r ++ l).
Proof.
  unfold ignore_decimal. intros H. destruct x as [|c x]; [discriminate|].
  destruct (is_digit c) eqn:Hc; [|discriminate]. cbn [app]. rewrite Hc.
  destruct (after_fraction_spec _ _ H) as [Hl Ha]. pose proof (skip_digits_length x).
  split; [simpl; lia|]. intros l Hr.
  rewrite (proj2 (skip_digits_spec x l)); [by apply Ha|].
  intros E. rewrite E in H. injection H as <-. by apply num_delim_digit_free, Hr.
Qed.

Lemma after_integer_spec x r :
  after_integer x = Ok r -> length r <= length x /\
  forall l, (r = [] -> num_delim l) -> after_integer (x ++ l) = Ok (r ++ l).
Proof.
  rewrite after_integer_eq. intros H. destruct x as [|c x].
  - injection H as <-. split; [done|]. intros l Hl.
    rewrite after_integer_eq. destruct l as [|d l]; [done|].
    destruct (Hl eq_refl) as (_ & Hd & _). simpl. rewrite bool_decide_false by done.
    change (after_fraction ([] ++ d :: l) = Ok ([] ++ d :: l)).
    by apply (after_fraction_spec [] []).
  - case_bool_decide.
    + destruct (ignore_decimal_spec x r H) as [Hl Ha]. split; [simpl; lia|].
      intros l Hr. rewrite after_integer_eq. simpl. rewrite bool_decide_true by done. by apply Ha.
    + destruct (after_fraction_spec (c :: x) r H) as [Hl Ha]. split; [done|].
      intros l Hr. rewrite after_integer_eq. simpl. rewrite bool_decide_false by done. by apply Ha.
Qed.

Lemma ignore_integer_spec x r :
  ignore_integer x = Ok r -> length r < length x /\
  forall l, (r = [] -> num_delim l) -> ignore_integer (x ++ l) = Ok (r ++ l).
Proof.
  rewrite ignore_integer_eq. intros H. destruct x as [|c x]; [discriminate|].
  case_bool_decide as Hc.
  - destruct x as [|d x].
    + destruct (after_integer_spec [] r H) as [Hl Ha]. cbn [length] in Hl.
      assert (r = []) as -> by (destruct r; [done | cbn [length] in Hl; lia]).
      split; [cbn [length]; lia|]. intros l Hr.
      rewrite ignore_integer_eq. cbn [app]. rewrite bool_decide_true by done.
      destruct l as [|d l]; [exact (Ha [] Hr)|].
      destruct (Hr eq_refl) as (Hd & _). rewrite Hd. exact (Ha _ Hr).
    + destruct (is_digit d) eqn:Hd; [discriminate|].
      destruct (after_integer_spec _ r H) as [Hl Ha]. split; [cbn [length] in *; lia|].
      intros l Hr. rewrite ignore_integer_eq. cbn [app].
      rewrite bool_decide_true by done. rewrite Hd. exact (Ha l Hr).
  - destruct (in_range 49 57 c) eqn:H9; [|discriminate].
    destruct (after_integer_spec _ r H) as [Hl Ha]. pose proof (skip_digits_length x).
    split; [cbn [length] in *; lia|]. intros l Hr.
    rewrite ignore_integer_eq. cbn [app]. rewrite bool_decide_false by done. rewrite H9.
    rewrite (proj2 (skip_digits_spec x l)); [exact (Ha l Hr)|].
    intros E. rewrite E in H. apply num_delim_digit_free, Hr.
    rewrite after_integer_eq in H. by injection H as <-.
Qed.

(** ** [skip_member], by the text after the colon *)

Lemma skip_member_inv skip inp r :
  skip_member skip inp = Ok r ->
  exists y, length y < length inp /\ skip y = Ok r /\
    forall skip' l, skip_member skip' (inp ++ l) = skip' (y ++ l).
Proof.
  rewrite skip_member_eq. intros H. pose proof (skip_ws_length inp) as Hw.
  destruct (skip_ws inp) as [|c r0] eqn:E; [discriminate|].
  case_bool_decide; [subst c|discriminate].
  destruct (ignore_str r0) as [r1|] eqn:Hs; [|discriminate]. cbn [rbind] in H.
  destruct (ignore_str_spec _ _ Hs) as [Hl1 Ha1]. pose proof (skip_ws_length r1) as Hw1.
  destruct (skip_ws r1) as [|c' r2] eqn:E1; [discriminate|].
  case_bool_decide; [subst c'|discriminate].
  exists r2. split; [cbn [length] in *; lia|]. split; [done|].
  intros skip' l. rewrite skip_member_eq, (skip_ws_app _ _ _ _ E), bool_decide_true by done.
  rewrite Ha1. cbn [rbind]. by rewrite (skip_ws_app _ _ _ _ E1), bool_decide_true.
Qed.

Lemma skip_member_ext skip1 skip2 inp :
  (forall y, length y < length inp -> skip1 y = skip2 y) ->
  skip_member skip1 inp = skip_member skip2 inp.
Proof.
  intros Hext. rewrite !skip_member_eq. pose proof (skip_ws_length inp) as Hw.
  destruct (skip_ws inp) as [|c r0]; [done|]. case_bool_decide; [|done].
  destruct (ignore_str r0) as [r1|] eqn:Hs; [|done]. cbn [rbind].
  destruct (ignore_str_spec _ _ Hs) as [Hl1 _]. pose proof (skip_ws_length r1) as Hw1.
  destruct (skip_ws r1) as [|c' r2]; [done|]. case_bool_decide; [|done].
  apply Hext. cbn [length] in *. lia.
Qed.

Lemma skip_elems_nil f r : skip_elems f [] <> Ok r.
Proof. by destruct f. Qed.

Lemma skip_members_nil f r : skip_members f [] <> Ok r.
Proof. by destruct f. Qed.

Ltac scan_leaf H :=
  first [ destruct (parse_ident_spec _ _ _ H) as [?Hl ?Ha]
        | destruct (ignore_integer_spec _ _ H) as [?Hl ?Ha]
        | destruct (ignore_str_spec _ _ H) as [?Hl ?Ha] ].

(** Every value, and every rest of an array or object, consumes input. *)
Lemma skip_consumes f :
  (forall inp r, skip_value f inp = Ok r -> length r < length inp) /\
  (forall inp r, skip_elems f inp = Ok r -> length r < length inp) /\
  (forall inp r, skip_members f inp = Ok r -> length r < length inp).
Proof.
  induction f as [|f (IHv & IHe & IHm)]; [split_and!; discriminate|].
  split_and!; intros inp r H.
  - rewrite skip_value_eq in H. pose proof (skip_ws_length inp) as Hw.
    destruct (skip_ws inp) as [|c r0]; [discriminate|]. cbn [length] in Hw.
    repeat case_bool_decide; try (scan_leaf H; cbn [length] in *; lia).
    + pose proof (skip_ws_length r0). destruct (skip_ws r0) as [|c' r'] eqn:E; [discriminate|].
      case_bool_decide; [injection H as <-; cbn [length] in *; lia|].
      destruct (skip_value f r0) as [r1|] eqn:Hv; [|discriminate]. cbn [rbind] in H.
      apply IHe in H. apply IHv in Hv. lia.
    + pose proof (skip_ws_length r0). destruct (skip_ws r0) as [|c' r'] eqn:E; [discriminate|].
      case_bool_decide; [injection H as <-; cbn [length] in *; lia|].
      destruct (skip_member (skip_value f) r0) as [r1|] eqn:Hv; [|discriminate]. cbn [rbind] in H.
      destruct (skip_member_inv _ _ _ Hv) as (y & Hy & Hsy & _).
      apply IHm in H. apply IHv in Hsy. lia.
    + destruct (is_digit c); [|discriminate]. scan_leaf H. cbn [length] in *. lia.
  - rewrite skip_elems_eq in H. pose proof (skip_ws_length inp) as Hw.
    destruct (skip_ws inp) as [|c r0]; [discriminate|]. cbn [length] in Hw.
    case_bool_decide; [|case_bool_decide; [injection H as <-; lia | discriminate]].
    destruct (skip_value f r0) as [r1|] eqn:Hv; [|discriminate]. cbn [rbind] in H.
    apply IHe in H. apply IHv in Hv. lia.
  - rewrite skip_members_eq in H. pose proof (skip_ws_length inp) as Hw.
    destruct (skip_ws inp) as [|c r0]; [discriminate|]. cbn [length] in Hw.
    case_bool_decide; [|case_bool_decide; [injection H as <-; lia | discriminate]].
    destruct (skip_member (skip_value f) r0) as [r1|] eqn:Hv; [|discriminate]. cbn [rbind] in H.
    destruct (skip_member_inv _ _ _ Hv) as (y & Hy & Hsy & _).
    apply IHm in H. apply IHv in Hsy. lia.
Qed.

(** What follows a value does not change how it is skipped; after a number
    it must not extend the number. *)
Lemma skip_app f :
  (forall inp r l, skip_value f inp = Ok r -> (r = [] -> num_delim l) ->
     skip_value f (inp ++ l) = Ok (r ++ l)) /\
  (forall inp r l, skip_elems f inp = Ok r -> skip_elems f (inp ++ l) = Ok (r ++ l)) /\
  (forall inp r l, skip_members f inp = Ok r -> skip_members f (inp ++ l) = Ok (r ++ l)).
Proof.
  induction f as [|f (IHv & IHe & IHm)]; [split_and!; discriminate|].
  split_and!; intros inp r l H.
  - intros Hr. rewrite skip_value_eq in H |- *.
    destruct (skip_ws inp) as [|c r0] eqn:E; [discriminate|]. rewrite (skip_ws_app _ _ _ _ E).
    repeat case_bool_decide; try (scan_leaf H; by apply Ha).
    + destruct (skip_ws r0) as [|c' r'] eqn:E2; [discriminate|]. rewrite (skip_ws_app _ _ _ _ E2).
      case_bool_decide; [by injection H as <-|].
      destruct (skip_value f r0) as [r1|] eqn:Hv; [|discriminate]. cbn [rbind] in H.
      rewrite (IHv _ _ _ Hv) by (intros ->; by apply skip_elems_nil in H). cbn [rbind].
      by apply IHe.
    + destruct (skip_ws r0) as [|c' r'] eqn:E2; [discriminate|]. rewrite (skip_ws_app _ _ _ _ E2).
      case_bool_decide; [by injection H as <-|].
      destruct (skip_member (skip_value f) r0) as [r1|] eqn:Hv; [|discriminate]. cbn [rbind] in H.
      destruct (skip_member_inv _ _ _ Hv) as (y & _ & Hsy & Hy). rewrite Hy.
      rewrite (IHv _ _ _ Hsy) by (intros ->; by apply skip_members_nil in H). cbn [rbind].
      by apply IHm.
    + destruct (is_digit c); [|discriminate]. scan_leaf H. by apply (Ha l).
  - rewrite skip_elems_eq in H |- *.
    destruct (skip_ws inp) as [|c r0] eqn:E; [discriminate|]. rewrite (skip_ws_app _ _ _ _ E).
    case_bool_decide; [|case_bool_decide; [by injection H as <- | discriminate]].
    destruct (skip_value f r0) as [r1|] eqn:Hv; [|discriminate]. cbn [rbind] in H.
    rewrite (IHv _ _ _ Hv) by (intros ->; by apply skip_elems_nil in H). cbn [rbind].
    by apply IHe.
  - rewrite skip_members_eq in H |- *.
    destruct (skip_ws inp) as [|c r0] eqn:E; [discriminate|]. rewrite (skip_ws_app _ _ _ _ E).
    case_bool_decide; [|case_bool_decide; [by injection H as <- | discriminate]].
    destruct (skip_member (skip_value f) r0) as [r1|] eqn:Hv; [|discriminate]. cbn [rbind] in H.
    destruct (skip_member_inv _ _ _ Hv) as (y & _ & Hsy & Hy). rewrite Hy.
    rewrite (IHv _ _ _ Hsy) by (intros ->; by apply skip_members_nil in H). cbn [rbind].
    by apply IHm.
Qed.

(** Fuel above the length of the input is never exhausted: any two such
    fuels give the same result. *)
Lemma skip_fuel f :
  (forall g inp, length inp < f -> f <= g -> skip_value f inp = skip_value g inp) /\
  (forall g inp, length inp < f -> f <= g -> skip_elems f inp = skip_elems g inp) /\
  (forall g inp, length inp < f -> f <= g -> skip_members f inp = skip_members g inp).
Proof.
  induction f as [|f (IHv & IHe & IHm)]; [split_and!; intros; lia|].
  split_and!; intros [|g] inp Hl Hg; try lia; pose proof (skip_ws_length inp) as Hw.
  - rewrite !skip_value_eq. destruct (skip_ws inp) as [|c r0]; [done|]. cbn [length] in Hw.
    repeat case_bool_decide; try done.
    + pose proof (skip_ws_length r0). destruct (skip_ws r0) as [|c' r']; [done|].
      case_bool_decide; [done|]. rewrite (IHv g r0) by lia.
      destruct (skip_value g r0) as [r1|] eqn:Hv; [|done]. cbn [rbind].
      apply (proj1 (skip_consumes g)) in Hv. apply IHe; lia.
    + pose proof (skip_ws_length r0). destruct (skip_ws r0) as [|c' r']; [done|].
      case_bool_decide; [done|].
      rewrite (skip_member_ext (skip_value f) (skip_value g)) by (intros y Hy; apply IHv; lia).
      destruct (skip_member (skip_value g) r0) as [r1|] eqn:Hv; [|done]. cbn [rbind].
      destruct (skip_member_inv _ _ _ Hv) as (y & Hy & Hsy & _).
      apply (proj1 (skip_consumes g)) in Hsy. apply IHm; lia.
  - rewrite !skip_elems_eq. destruct (skip_ws inp) as [|c r0]; [done|]. cbn [length] in Hw.
    case_bool_decide; [|done]. rewrite (IHv g r0) by lia.
    destruct (skip_value g r0) as [r1|] eqn:Hv; [|done]. cbn [rbind].
    apply (proj1 (skip_consumes g)) in Hv. apply IHe; lia.
  - rewrite !skip_members_eq. destruct (skip_ws inp) as [|c r0]; [done|]. cbn [length] in Hw.
    case_bool_decide; [|done].
    rewrite (skip_member_ext (skip_value f) (skip_value g)) by (intros y Hy; apply IHv; lia).
    destruct (skip_member (skip_value g) r0) as [r1|] eqn:Hv; [|done]. cbn [rbind].
    destruct (skip_member_inv _ _ _ Hv) as (y & Hy & Hsy & _).
    apply (proj1 (skip_consumes g)) in Hsy. apply IHm; lia.
Qed.

(** Termination of [ignore_value]: the fuel it is given, the length of
    the input plus one, is never exhausted; every larger fuel gives the
    same result, so the scan stands for serde_json's loop, which stops on
    every input. *)
Lemma skip_value_fuel f inp : length inp < f -> skip_value f inp = ignore_value inp.
Proof.
  intros Hf. unfold ignore_value. symmetry. apply (proj1 (skip_fuel (S (length inp)))); lia.
Qed.

(** A complete value followed by a delimiter is skipped up to the
    delimiter, with any fuel that suffices for the whole input. *)
Lemma ignore_value_app v l f :
  ignore_value v = Ok [] -> num_delim l -> length (v ++ l) < f -> skip_value f (v ++ l) = Ok l.
Proof.
  intros Hv Hl Hf. unfold ignore_value in Hv.
  rewrite <- (proj1 (skip_fuel (S (length (v ++ l)))) f) by lia.
  rewrite (proj1 (skip_app _) v []); [done| |done].
  rewrite <- (proj1 (skip_fuel (S (length v))) (S (length (v ++ l)))) by (rewrite ?length_app; lia).
  exact Hv.
Qed.

(** ** Escaped strings scan back to their bytes *)

Lemma cons_ok_Ok pre m bs r : cons_ok pre m = Ok (bs, r) -> exists bs', m = Ok (bs', r).
Proof. destruct m as [[??]|]; simpl; [intros [= _ <-]; eauto | discriminate]. Qed.

(** The string scanner consumes at least the closing quote. *)
Lemma scan_str_consumes inp bs r : scan_str inp = Ok (bs, r) -> length r < length inp.
Proof.
  revert bs r. induction inp as [inp IH] using (induction_ltof1 _ (@length byte)).
  unfold ltof in IH. intros bs r H.
  destruct inp as [|c r0]; [discriminate|].
  destruct c; cbn [scan_str] in H;
    repeat match type of H with
    | cons_ok _ (scan_str ?x) = Ok _ =>
        let H' := fresh in apply cons_ok_Ok in H as [? H'];
        apply IH in H'; simpl in *; lia
    | Ok _ = Ok _ => injection H as <- <-; simpl; lia
    | Err _ = Ok _ => discriminate H
    | _ => case_match
    end.
Qed.

Lemma parse_string_consumes inp bs r : parse_string inp = Ok (bs, r) -> length r < length inp.
Proof.
  unfold parse_string. destruct (scan_str inp) as [[bs' r']|] eqn:Hs; [|discriminate].
  case_match; [intros [= <- <-] | discriminate]. by eapply scan_str_consumes.
Qed.

Lemma scan_str_escape_byte c l : scan_str (escape_byte c ++ l) = cons_ok [c] (scan_str l).
Proof. destruct c; reflexivity. Qed.

Lemma scan_str_escape s rest : scan_str (escape_str s ++ x22 :: rest) = Ok (s, rest).
Proof.
  induction s as [|c s IH]; [done|].
  unfold escape_str in *. cbn [map concat]. rewrite <- app_assoc, scan_str_escape_byte, IH. done.
Qed.

Lemma parse_string_escape s rest :
  utf8_valid s = true -> parse_string (escape_str s ++ x22 :: rest) = Ok (s, rest).
Proof. intros Hv. unfold parse_string. by rewrite scan_str_escape, Hv. Qed.

Lemma ignore_str_escape s rest : ignore_str (escape_str s ++ x22 :: rest) = Ok rest.
Proof.
  induction s as [|c s IH]; [done|].
  unfold escape_str in *. cbn [map concat]. rewrite <- app_assoc.
  destruct c; exact IH.
Qed.

(** A value starts with a byte that is neither closing bracket. *)
Lemma skip_value_head f x r :
  skip_value f x = Ok r -> exists c y, skip_ws x = c :: y /\ c <> "]"%byte /\ c <> "}"%byte.
Proof.
  destruct f as [|f]; [discriminate|]. rewrite skip_value_eq.
  destruct (skip_ws x) as [|c y]; [discriminate|]. intros H. exists c, y.
  split; [done|]. split; intros ->; revert H; by rewrite !bool_decide_false.
Qed.


(** ** A concrete scan *)

(** An array of a number, an object with an escaped key, a literal and a
    string. *)
Definition json_sample : list byte :=
  ["["; "-"; "2"; "."; "5"; "e"; "3"; ","; " "; "{"; x22; "k"; "\"; "n"; x22; ":"; "["; "]";
   "}"; ","; "n"; "u"; "l"; "l"; ","; x22; "a"; x22; "]"]%byte.

End JsonScan.
