(* ===== verification/Json.v ===== *)
(** * JSON on the wire, part 2: [Prompt] in, [Embeddings] out

    The handler's argument [prompt: actix_web::web::Json<Prompt>] (main.rs
    line 30) is the request body read by [serde_json::from_slice::<Prompt>]
    with the [Deserialize] impl that [#[derive(Deserialize)]] generates for
    [struct Prompt { text: String }] (lines 13-16); the answer
    [actix_web::web::Json(Embeddings { ys })] (line 43) is written by
    [serde_json::to_string] with the derived [Serialize] impl of
    [struct Embeddings { ys: Vec<Vec<Vec<f32>>> }] (lines 18-21).  The
    scanner and writer are those of [JsonScan.v].

    [deserialize_prompt] is [deserialize_struct]: an object, read by the
    derived [visit_map] (fields in any order, unknown fields skipped as
    [IgnoredAny], [text] at most once and required), or an array, read by
    the derived [visit_seq] (its one element is [text]).  [from_slice]
    then allows only whitespace.  Where [text] holds another kind of value,
    serde_json reads that value to name it in the error; the range check it
    makes on a number there ([NumberOutOfRange] past [f64]) is not
    modelled.  [embeddings_to_vec] is the derived [serialize] with the
    compact formatter; the digits of a finite [f32] come from [ryu], a
    parameter here, and NaN and the infinities are written as [null]. *)

From S2P Require Import Prelude Middleware Server JsonScan.
From Stdlib Require Import ZArith PrimFloat Strings.Byte.
Import Middleware Server JsonScan.

Module Json.

(** ** The derived [Deserialize] impl of [Prompt] *)

(** [Deserializer::peek_invalid_type] for a value that is not the one the
    visitor expects: serde_json reads the value to name it in the message,
    so a malformed literal, number or string is reported as its syntax
    error, and any other byte as [ExpectedSomeValue]. *)
Definition peek_invalid_type (inp : list byte) : JsonError :=
  let named (m : result (list byte) JsonError) := match m with Ok _ => InvalidType | Err e => e end in
  match inp with
  | "n"%byte :: r => named (parse_ident (String.list_byte_of_string "ull") r)
  | "t"%byte :: r => named (parse_ident (String.list_byte_of_string "rue") r)
  | "f"%byte :: r => named (parse_ident (String.list_byte_of_string "alse") r)
  | "-"%byte :: r => named (ignore_integer r)
  | x22 :: r => match parse_string r with Ok _ => InvalidType | Err e => e end
  | "["%byte :: _ | "{"%byte :: _ => InvalidType
  | c :: _ => if is_digit c then named (ignore_integer inp) else Syntax ExpectedSomeValue
  | [] => Syntax ExpectedSomeValue
  end.

(** [<String as Deserialize>::deserialize], i.e. [deserialize_str]. *)
Definition deserialize_string (inp : list byte) : result (list byte * list byte) JsonError :=
  match skip_ws inp with
  | x22 :: r => parse_string r
  | [] => Err (Syntax EofWhileParsingValue)
  | p => Err (peek_invalid_type p)
  end.

(** [parse_object_colon] *)
Definition parse_object_colon (inp : list byte) : result (list byte) JsonError :=
  match skip_ws inp with
  | ":"%byte :: r => Ok r
  | [] => Err (Syntax EofWhileParsingObject)
  | _ => Err (Syntax ExpectedColon)
  end.

(** The key read by [MapKey]'s [deserialize_any] once the whitespace is
    skipped: a string, or the error serde_json reports for what is there. *)
Definition map_key (p : list byte) : result (option (list byte * list byte)) JsonError :=
  match p with
  | x22 :: r => kr <- parse_string r ;; Ok (Some kr)
  | "}"%byte :: _ => Err (Syntax TrailingComma)
  | [] => Err (Syntax EofWhileParsingValue)
  | _ => Err (Syntax KeyMustBeAString)
  end.

(** [MapAccess::next_key_seed]: [None] at the closing brace (not consumed),
    otherwise the key, read as a string, and the input after it.  A comma
    is expected before every key but the first. *)
Definition next_key (first : bool) (inp : list byte)
  : result (option (list byte * list byte)) JsonError :=
  match skip_ws inp with
  | "}"%byte :: _ => Ok None
  | [] => Err (Syntax EofWhileParsingObject)
  | c :: r =>
      if first then map_key (c :: r)
      else if bool_decide (c = ","%byte) then map_key (skip_ws r)
      else Err (Syntax ExpectedObjectCommaOrEnd)
  end.

Definition text_field : list byte := String.list_byte_of_string "text".

(** The derived [visit_map]: [while let Some(key) = map.next_key()?], with
    [text] read as a [String] (once: a second one is [duplicate_field]),
    any other key's value skipped as [IgnoredAny], and [missing_field] at
    the end when [text] was not seen.  Each round consumes a key, so the
    fuel [from_slice] gives, the input's length plus one, is enough
    ([visit_map_fuel]). *)
Fixpoint visit_map (fuel : nat) (text : option (list byte)) (first : bool) (inp : list byte)
  : result (Prompt * list byte) JsonError :=
  match fuel with
  | O => Err (Syntax EofWhileParsingObject)
  | S f =>
      key <- next_key first inp ;;
      match key with
      | None =>
          match text with
          | Some t => Ok (mkPrompt (String.string_of_list_byte t), inp)
          | None => Err (MissingField "text")
          end
      | Some (k, r) =>
          if bool_decide (k = text_field) then
            match text with
            | Some _ => Err (DuplicateField "text")
            | None =>
                r1 <- parse_object_colon r ;;
                v <- deserialize_string r1 ;;
                visit_map f (Some v.1) false v.2
            end
          else
            r1 <- parse_object_colon r ;;
            r2 <- ignore_value r1 ;;
            visit_map f text false r2
      end
  end.

(** The derived [visit_seq]: the first element is [text];
    [invalid_length(0)] for an empty array. *)
Definition visit_seq (inp : list byte) : result (Prompt * list byte) JsonError :=
  match skip_ws inp with
  | "]"%byte :: _ => Err (InvalidLength 0)
  | [] => Err (Syntax EofWhileParsingList)
  | _ => v <- deserialize_string inp ;; Ok (mkPrompt (String.string_of_list_byte v.1), v.2)
  end.

(** [end_map] and [end_seq]: the closing bracket after the visitor. *)
Definition end_map (inp : list byte) : result (list byte) JsonError :=
  match skip_ws inp with
  | "}"%byte :: r => Ok r
  | ","%byte :: _ => Err (Syntax TrailingComma)
  | [] => Err (Syntax EofWhileParsingObject)
  | _ => Err (Syntax TrailingCharacters)
  end.

Definition end_seq (inp : list byte) : result (list byte) JsonError :=
  match skip_ws inp with
  | "]"%byte :: r => Ok r
  | ","%byte :: r =>
      match skip_ws r with
      | "]"%byte :: _ => Err (Syntax TrailingComma)
      | _ => Err (Syntax TrailingCharacters)
      end
  | [] => Err (Syntax EofWhileParsingList)
  | _ => Err (Syntax TrailingCharacters)
  end.

(** [Deserializer::deserialize_struct] for [Prompt]: an array or an
    object; the visitor's error comes before the one of the closing
    bracket. *)
Definition deserialize_prompt (inp : list byte) : result (Prompt * list byte) JsonError :=
  match skip_ws inp with
  | [] => Err (Syntax EofWhileParsingValue)
  | "["%byte :: r => pr <- visit_seq r ;; r' <- end_seq pr.2 ;; Ok (pr.1, r')
  | "{"%byte :: r => pr <- visit_map (S (length r)) None true r ;; r' <- end_map pr.2 ;; Ok (pr.1, r')
  | p => Err (peek_invalid_type p)
  end.

(** [serde_json::from_slice::<Prompt>]: the value, then only whitespace
    ([Deserializer::end]). *)
Definition from_slice (body : list byte) : result Prompt JsonError :=
  pr <- deserialize_prompt body ;;
  match skip_ws pr.2 with
  | [] => Ok pr.1
  | _ => Err (Syntax TrailingCharacters)
  end.

(** ** The derived [Serialize] impl of [Embeddings] *)

Section Serialize.

(** [ryu::Buffer::format_finite], the digits serde_json writes for a
    finite [f32]. *)
Variable write_f32 : float -> list byte.

(** [Serializer::serialize_f32]: NaN and the infinities are written as
    [null]. *)
Definition serialize_f32 (x : float) : list byte :=
  if PrimFloat.is_finite x then write_f32 x else String.list_byte_of_string "null".

(** The derived [serialize] of [Embeddings]: [serialize_struct] with its
    one field [ys], a [Vec<Vec<Vec<f32>>>]. *)
Definition embeddings_to_vec (e : Embeddings) : list byte :=
  "{"%byte :: format_escaped_str (String.list_byte_of_string "ys") ++
  ":"%byte :: serialize_seq (serialize_seq (serialize_seq serialize_f32)) (ys e) ++ ["}"%byte].

End Serialize.

(** The name of the request's one field as clients write it (section 6 of
    the spec; the [curl] body of main.rs line 92). *)
Definition text_key : list byte := String.list_byte_of_string "text".

(** A request body as a client writes it with serde_json (or any compact
    JSON writer): the object with the one field of section 6. *)
Definition prompt_json (s : list byte) : list byte :=
  "{"%byte :: format_escaped_str text_key ++ ":"%byte :: format_escaped_str s ++ ["}"%byte].

(** ** The visitor, branch by branch *)

Lemma format_escaped_str_app s l : format_escaped_str s ++ l = x22 :: escape_str s ++ x22 :: l.
Proof. unfold format_escaped_str. cbn [app]. by rewrite <- app_assoc. Qed.

Lemma deserialize_string_escape s rest :
  utf8_valid s = true -> deserialize_string (x22 :: escape_str s ++ x22 :: rest) = Ok (s, rest).
Proof. intros Hv. exact (parse_string_escape s rest Hv). Qed.

Lemma next_key_first inp r kr :
  skip_ws inp = x22 :: r -> parse_string r = Ok kr -> next_key true inp = Ok (Some kr).
Proof. intros Hw Hk. unfold next_key. rewrite Hw. cbn -[parse_string]. unfold map_key. by rewrite Hk. Qed.

Lemma next_key_comma inp r r' kr :
  skip_ws inp = ","%byte :: r -> skip_ws r = x22 :: r' -> parse_string r' = Ok kr ->
  next_key false inp = Ok (Some kr).
Proof.
  intros Hw Hw' Hk. unfold next_key. rewrite Hw. cbn -[parse_string skip_ws map_key].
  unfold map_key. by rewrite Hw', Hk.
Qed.

Lemma next_key_close b inp r : skip_ws inp = "}"%byte :: r -> next_key b inp = Ok None.
Proof. intros Hw. unfold next_key. by rewrite Hw. Qed.

Lemma visit_map_text f first inp r r1 v r2 :
  next_key first inp = Ok (Some (text_field, r)) -> parse_object_colon r = Ok r1 ->
  deserialize_string r1 = Ok (v, r2) ->
  visit_map (S f) None first inp = visit_map f (Some v) false r2.
Proof.
  intros Hk Hc Hs. cbn [visit_map]. rewrite Hk. cbn [rbind].
  rewrite bool_decide_true by done. by rewrite Hc; cbn [rbind]; rewrite Hs.
Qed.

Lemma visit_map_other f txt first inp k r r1 r2 :
  next_key first inp = Ok (Some (k, r)) -> k <> text_field -> parse_object_colon r = Ok r1 ->
  ignore_value r1 = Ok r2 ->
  visit_map (S f) txt first inp = visit_map f txt false r2.
Proof.
  intros Hk Hne Hc Hs. cbn [visit_map]. rewrite Hk. cbn [rbind].
  rewrite bool_decide_false by done. by rewrite Hc; cbn [rbind]; rewrite Hs.
Qed.

Lemma visit_map_dup f first inp r t :
  next_key first inp = Ok (Some (text_field, r)) ->
  visit_map (S f) (Some t) first inp = Err (DuplicateField "text").
Proof. intros Hk. cbn [visit_map]. rewrite Hk. cbn [rbind]. by rewrite bool_decide_true. Qed.

Lemma visit_map_close f txt first inp :
  next_key first inp = Ok None ->
  visit_map (S f) txt first inp =
    match txt with
    | Some t => Ok (mkPrompt (String.string_of_list_byte t), inp)
    | None => Err (MissingField "text")
    end.
Proof. intros Hk. cbn [visit_map]. by rewrite Hk. Qed.

(** ** The fuel of [visit_map] is enough *)

(** Each round of [visit_map] consumes its key, so the input shrinks. *)
Lemma map_key_consumes p k r : map_key p = Ok (Some (k, r)) -> length r < length p.
Proof.
  destruct p as [|c p]; [discriminate|].
  destruct (decide (c = x22)) as [->|Hne].
  - cbn. destruct (parse_string p) as [[k' r']|] eqn:Hp; [|discriminate].
    intros [= <- <-]. apply parse_string_consumes in Hp. lia.
  - destruct c; try (by destruct Hne); discriminate.
Qed.

Lemma next_key_consumes b inp k r : next_key b inp = Ok (Some (k, r)) -> length r < length inp.
Proof.
  unfold next_key. pose proof (skip_ws_length inp) as Hl.
  destruct (skip_ws inp) as [|c r0]; [discriminate|]. cbn [length] in Hl.
  assert (Hk : forall p, length p <= length r0 -> map_key p = Ok (Some (k, r)) -> length r < length inp).
  { intros p Hp Hm. apply map_key_consumes in Hm. lia. }
  assert (Hk' : map_key (c :: r0) = Ok (Some (k, r)) -> length r < length inp).
  { intros Hm. apply map_key_consumes in Hm. cbn [length] in Hm. lia. }
  pose proof (skip_ws_length r0).
  destruct c; cbn -[map_key skip_ws]; try discriminate;
    (destruct b; [exact Hk' | case_bool_decide; [apply Hk; lia | discriminate]]).
Qed.

Lemma parse_object_colon_consumes inp r : parse_object_colon inp = Ok r -> length r < length inp.
Proof.
  unfold parse_object_colon. pose proof (skip_ws_length inp) as Hl.
  destruct (skip_ws inp) as [|c r0]; [discriminate|]. cbn [length] in Hl.
  destruct c; try discriminate. intros [= <-]. lia.
Qed.

Lemma deserialize_string_consumes inp v : deserialize_string inp = Ok v -> length v.2 < length inp.
Proof.
  unfold deserialize_string. pose proof (skip_ws_length inp) as Hl.
  destruct (skip_ws inp) as [|c r0]; [discriminate|]. cbn [length] in Hl.
  destruct (decide (c = x22)) as [->|Hne].
  - destruct v as [k r]. intros Hp. apply parse_string_consumes in Hp. cbn. lia.
  - destruct c; try (by destruct Hne); cbn; intros H; discriminate.
Qed.

Lemma ignore_value_consumes inp r : ignore_value inp = Ok r -> length r < length inp.
Proof. apply (proj1 (skip_consumes _)). Qed.

(** [visit_map] gives the same result on any fuel above the input's
    length: the fuel [deserialize_prompt] passes never runs out, and the
    [EofWhileParsingObject] of the empty fuel is never returned. *)
Lemma visit_map_fuel f f' txt first inp :
  length inp < f -> length inp < f' -> visit_map f txt first inp = visit_map f' txt first inp.
Proof.
  revert f' txt first inp. induction f as [|f IH]; intros f' txt first inp Hf Hf'; [lia|].
  destruct f' as [|f']; [lia|]. cbn [visit_map].
  destruct (next_key first inp) as [[[k r]|]|e] eqn:Hk; cbn [rbind]; [|done|done].
  apply next_key_consumes in Hk.
  destruct (parse_object_colon r) as [r1|e] eqn:Hc; cbn [rbind];
    [apply parse_object_colon_consumes in Hc|by case_bool_decide; [destruct txt|]].
  case_bool_decide; [destruct txt; [done|]|]; cbn [rbind].
  - destruct (deserialize_string r1) as [v|e] eqn:Hs; cbn [rbind]; [|done].
    apply deserialize_string_consumes in Hs. apply IH; lia.
  - destruct (ignore_value r1) as [r2|e] eqn:Hs; cbn [rbind]; [|done].
    apply ignore_value_consumes in Hs. apply IH; lia.
Qed.

Ltac fuel_S := rewrite ?length_app; cbn [length]; rewrite ?Nat.add_succ_r.

(** ** Reading a [Prompt] *)

(** C14. Round trip of the request body: for every text that is valid UTF-8
    (every Rust [String]), the body [{"text": ...}] a client writes with
    serde_json's escaping is read back by [from_slice] as that text. *)
Theorem prompt_roundtrip t :
  utf8_valid (String.list_byte_of_string t) = true ->
  from_slice (prompt_json (String.list_byte_of_string t)) = Ok (mkPrompt t).
Proof.
  intros Hv. set (s := String.list_byte_of_string t) in *.
  unfold from_slice, deserialize_prompt, prompt_json. rewrite !format_escaped_str_app.
  cbn [skip_ws is_ws length].
  rewrite (visit_map_text _ _ _ (":"%byte :: x22 :: escape_str s ++ x22 :: ["}"%byte])
             (x22 :: escape_str s ++ x22 :: ["}"%byte]) s ["}"%byte]).
  - fuel_S. rewrite visit_map_close by (apply (next_key_close _ _ []); done).
    cbn. subst s. by rewrite String.string_of_list_byte_of_string.
  - eapply next_key_first; [reflexivity|]. apply parse_string_escape. reflexivity.
  - done.
  - by apply deserialize_string_escape.
Qed.

(** C23. The derived visitor skips a field it does not know: whatever JSON
    value an unknown key holds, the body is read as the [text] that follows
    it. *)
Theorem prompt_unknown_field k v t :
  utf8_valid k = true -> k <> text_key -> ignore_value v = Ok [] ->
  utf8_valid (String.list_byte_of_string t) = true ->
  from_slice ("{"%byte :: format_escaped_str k ++ ":"%byte :: v ++ ","%byte ::
              format_escaped_str text_key ++ ":"%byte ::
              format_escaped_str (String.list_byte_of_string t) ++ ["}"%byte]) = Ok (mkPrompt t).
Proof.
  intros Hk Hne Hval Hv. set (s := String.list_byte_of_string t) in *.
  unfold from_slice, deserialize_prompt. rewrite !format_escaped_str_app.
  cbn [skip_ws is_ws length].
  set (rest := ","%byte :: x22 :: escape_str text_key ++ x22 :: ":"%byte :: x22 ::
               escape_str s ++ x22 :: ["}"%byte]).
  rewrite (visit_map_other _ _ _ _ k (":"%byte :: v ++ rest) (v ++ rest) rest).
  - fuel_S.
    rewrite (visit_map_text _ _ _ (":"%byte :: x22 :: escape_str s ++ x22 :: ["}"%byte])
               (x22 :: escape_str s ++ x22 :: ["}"%byte]) s ["}"%byte]).
    + fuel_S. rewrite visit_map_close by (apply (next_key_close _ _ []); done).
      cbn. subst s. by rewrite String.string_of_list_byte_of_string.
    + eapply next_key_comma; [reflexivity | reflexivity|]. apply parse_string_escape. reflexivity.
    + done.
    + by apply deserialize_string_escape.
  - eapply next_key_first; [reflexivity|]. by apply parse_string_escape.
  - done.
  - done.
  - unfold ignore_value. apply ignore_value_app; [done | cbn; repeat split; discriminate | lia].
Qed.

(** C24. serde's derive also reads [Prompt] from an array: the body
    [["..."]] is accepted as the prompt, a form the spec's request format
    (section 6, one named field) does not mention. *)
Theorem prompt_array_form t :
  utf8_valid (String.list_byte_of_string t) = true ->
  from_slice ("["%byte :: format_escaped_str (String.list_byte_of_string t) ++ ["]"%byte]) =
    Ok (mkPrompt t).
Proof.
  intros Hv. unfold from_slice, deserialize_prompt. rewrite format_escaped_str_app.
  cbn [skip_ws is_ws]. unfold visit_seq. cbn [skip_ws is_ws].
  rewrite deserialize_string_escape by done. cbn [rbind fst snd].
  by rewrite String.string_of_list_byte_of_string.
Qed.

(** C25. A second [text] field is rejected with [duplicate field], whatever
    follows it: the visitor stops at the repeated key before reading its
    value. *)
Theorem prompt_duplicate_field s v :
  utf8_valid s = true ->
  from_slice ("{"%byte :: format_escaped_str text_key ++ ":"%byte :: format_escaped_str s ++
              ","%byte :: format_escaped_str text_key ++ ":"%byte :: v) =
    Err (DuplicateField "text").
Proof.
  intros Hv. unfold from_slice, deserialize_prompt. rewrite !format_escaped_str_app.
  cbn [skip_ws is_ws length].
  set (rest := ","%byte :: x22 :: escape_str text_key ++ x22 :: ":"%byte :: v).
  rewrite (visit_map_text _ _ _ (":"%byte :: x22 :: escape_str s ++ x22 :: rest)
             (x22 :: escape_str s ++ x22 :: rest) s rest).
  - fuel_S. rewrite (visit_map_dup _ _ _ (":"%byte :: v)); [done|].
    eapply next_key_comma; [reflexivity | reflexivity|]. apply parse_string_escape. reflexivity.
  - eapply next_key_first; [reflexivity|]. apply parse_string_escape. reflexivity.
  - done.
  - by apply deserialize_string_escape.
Qed.

(** ** Writing [Embeddings] *)

Lemma comma_sep_cons x r : comma_sep (x :: r) = x ++ concat (map (fun it => ","%byte :: it) r).
Proof.
  revert x. induction r as [|y r IH]; intros x; [by rewrite app_nil_r|].
  change (comma_sep (x :: y :: r)) with (x ++ ","%byte :: comma_sep (y :: r)). by rewrite IH.
Qed.

Lemma num_delim_sep items l :
  num_delim (concat (map (fun it => ","%byte :: it) items) ++ "]"%byte :: l).
Proof. destruct items; cbn; repeat split; discriminate. Qed.

Lemma skip_elems_tail items l f :
  Forall (fun it => ignore_value it = Ok []) items ->
  length (concat (map (fun it => ","%byte :: it) items) ++ "]"%byte :: l) < f ->
  skip_elems f (concat (map (fun it => ","%byte :: it) items) ++ "]"%byte :: l) = Ok l.
Proof.
  intros Hall. revert f. induction Hall as [|it r Hit Hr IH]; intros [|f] Hf; cbn in Hf; try lia.
  - done.
  - rewrite skip_elems_eq. cbn [map concat]. rewrite <- !app_assoc. cbn [app skip_ws is_ws].
    rewrite bool_decide_true by done.
    rewrite ignore_value_app; [| done | apply num_delim_sep | rewrite !length_app in *; lia].
    cbn [rbind]. apply IH. rewrite !length_app in *. lia.
Qed.

Lemma skip_array items rest f :
  Forall (fun it => ignore_value it = Ok []) items ->
  length ("["%byte :: comma_sep items ++ "]"%byte :: rest) < f ->
  skip_value f ("["%byte :: comma_sep items ++ "]"%byte :: rest) = Ok rest.
Proof.
  intros Hall Hf. destruct f as [|f]; [cbn in Hf; lia|]. rewrite skip_value_eq. cbn [skip_ws is_ws].
  rewrite !bool_decide_false, bool_decide_true by done.
  destruct Hall as [|it r Hit Hr]; [done|].
  rewrite comma_sep_cons, <- app_assoc in *.
  destruct (skip_value_head _ _ _ Hit) as (c & y & Hc & Hne & _).
  rewrite (skip_ws_app _ _ _ _ Hc), bool_decide_false by done.
  rewrite ignore_value_app; [| done | apply num_delim_sep | cbn in Hf; lia].
  cbn [rbind]. apply skip_elems_tail; [done|]. cbn in Hf. rewrite !length_app in *. lia.
Qed.

Lemma serialize_seq_value {A} (ser : A -> list byte) (l : list A) :
  Forall (fun x => ignore_value (ser x) = Ok []) l -> ignore_value (serialize_seq ser l) = Ok [].
Proof.
  intros Hall. unfold ignore_value, serialize_seq. apply skip_array; [|lia].
  by apply Forall_map.
Qed.

Section ValidJson.

Variable write_f32 : float -> list byte.

(** [ryu] writes a finite [f32] as a JSON number. *)
Hypothesis write_f32_value : forall x, PrimFloat.is_finite x = true -> ignore_value (write_f32 x) = Ok [].

Lemma serialize_f32_value x : ignore_value (serialize_f32 write_f32 x) = Ok [].
Proof.
  unfold serialize_f32. destruct (PrimFloat.is_finite x) eqn:Hx; [by apply write_f32_value | done].
Qed.

(** The serialised embeddings are one well-formed JSON value. *)
Lemma embeddings_json_valid e : ignore_value (embeddings_to_vec write_f32 e) = Ok [].
Proof.
  assert (Hys : ignore_value (serialize_seq (serialize_seq (serialize_seq (serialize_f32 write_f32))) (ys e)) = Ok []).
  { do 3 (apply serialize_seq_value, Forall_forall; intros ? _). apply serialize_f32_value. }
  unfold ignore_value, embeddings_to_vec. rewrite format_escaped_str_app.
  set (arr := serialize_seq _ (ys e)) in *.
  rewrite skip_value_eq. cbn [skip_ws is_ws]. rewrite !bool_decide_false, bool_decide_true by done.
  cbn [skip_ws is_ws]. rewrite bool_decide_false by done.
  rewrite skip_member_eq. cbn [skip_ws is_ws]. rewrite bool_decide_true by done.
  rewrite ignore_str_escape. cbn [rbind skip_ws is_ws]. rewrite bool_decide_true by done.
  rewrite ignore_value_app;
    [| done | cbn; repeat split; discriminate | cbn [length]; rewrite !length_app; cbn [length]; rewrite !length_app; lia].
  cbn [rbind length]. reflexivity.
Qed.

End ValidJson.

(** ** Concrete bodies *)

Definition hello_text : string := "hello world".

Definition lang_key : list byte := String.list_byte_of_string "lang".

(** [[1,-2.5e3,null,{}]] *)
Definition lang_value : list byte :=
  ["["; "1"; ","; "-"; "2"; "."; "5"; "e"; "3"; ","; "n"; "u"; "l"; "l"; ","; "{"; "}"; "]"]%byte.

Lemma prompt_roundtrip_witness :
  utf8_valid (String.list_byte_of_string hello_text) = true /\
  from_slice (prompt_json (String.list_byte_of_string hello_text)) = Ok (mkPrompt hello_text).
Proof.
  assert (H : utf8_valid (String.list_byte_of_string hello_text) = true) by reflexivity.
  exact (conj H (prompt_roundtrip hello_text H)).
Defined.

Lemma prompt_unknown_field_witness :
  utf8_valid lang_key = true /\ lang_key <> text_key /\ ignore_value lang_value = Ok [] /\
  utf8_valid (String.list_byte_of_string hello_text) = true /\
  from_slice ("{"%byte :: format_escaped_str lang_key ++ ":"%byte :: lang_value ++ ","%byte ::
              format_escaped_str text_key ++ ":"%byte ::
              format_escaped_str (String.list_byte_of_string hello_text) ++ ["}"%byte]) =
    Ok (mkPrompt hello_text).
Proof.
  assert (H1 : utf8_valid lang_key = true) by reflexivity.
  assert (H2 : lang_key <> text_key) by discriminate.
  assert (H3 : ignore_value lang_value = Ok []) by (vm_compute; reflexivity).
  assert (H4 : utf8_valid (String.list_byte_of_string hello_text) = true) by reflexivity.
  exact (conj H1 (conj H2 (conj H3 (conj H4 (prompt_unknown_field _ _ _ H1 H2 H3 H4))))).
Defined.

Lemma prompt_array_form_witness :
  utf8_valid (String.list_byte_of_string hello_text) = true /\
  from_slice ("["%byte :: format_escaped_str (String.list_byte_of_string hello_text) ++ ["]"%byte]) =
    Ok (mkPrompt hello_text).
Proof.
  assert (H : utf8_valid (String.list_byte_of_string hello_text) = true) by reflexivity.
  exact (conj H (prompt_array_form hello_text H)).
Defined.

Lemma prompt_duplicate_field_witness :
  utf8_valid (String.list_byte_of_string "a") = true /\
  from_slice ("{"%byte :: format_escaped_str text_key ++ ":"%byte ::
              format_escaped_str (String.list_byte_of_string "a") ++ ","%byte ::
              format_escaped_str text_key ++ ":"%byte :: String.list_byte_of_string "oops") =
    Err (DuplicateField "text").
Proof.
  assert (H : utf8_valid (String.list_byte_of_string "a") = true) by reflexivity.
  exact (conj H (prompt_duplicate_field _ (String.list_byte_of_string "oops") H)).
Defined.

End Json.
