(* ===== verification/Concurrent.v ===== *)
(** * Many requests at once: the workers, the shared [AppModel] and its lock

    [main] (main.rs lines 70-86) creates one [Data<AppModel>], an [Arc],
    and every worker's [App] gets a clone of it: all requests share the
    same [RwLock<Bert>].  actix runs 8 workers; each is a single-threaded
    runtime, and a request's handler runs on one of them.  The handler
    ([predict], main.rs lines 28-44) awaits the read guard, which may
    suspend it; [Bert::predict] is synchronous, so from the moment it starts
    until the handler returns and drops its guard, the worker runs nothing
    else.  [Bert::predict] reads [self.tokenizer] first (model.rs line 95)
    and [self.device] and [self.model] afterwards (lines 100 and 105).

    The world is the shared [AppModel] (the lock's state and the [Bert] it
    protects), the list of request and writer tasks, and, as ghost state,
    the list of the values the cell has held completely.  A request task is
    [ReqNew] (its middleware has run up to [read()]), [ReqWaiting] (it
    called [read()]: it holds the guard or is queued), [ReqBusy] (it is
    inside [Bert::predict]: it has encoded with the tokenizer it read) and
    [ReqDone] (it returned or panicked, and dropped its guard).  A step of
    [cstep] is one task doing its next action, in any interleaving.  The
    program never writes the model; a writer task ([WrNew] ... [WrDone]),
    which replaces the [Bert] field by field under the write guard, is the
    reload the lock allows and the spec asks to be safe (sections 4.4
    and 5).  The theorems: a request uses one complete version of the model
    for both of its reads; every finished request's result is
    [serve_request b hs p] for its own headers and prompt and a complete
    version [b]; with no writer, that version is the one [main] loaded; no
    request reads while a write is half done; at most one request per
    worker is inside [Bert::predict]; the executable scheduler [run_step]
    takes exactly the steps of [cstep]. *)

From S2P Require Import Prelude Tensor Tokenizer Encoder Model Middleware RwLock Server.
From Stdlib Require Import ZArith PrimFloat.
Import Tensor Tokenizer Encoder Model Middleware RwLock Server.

Module Concurrent.

Section WithBackend.
Context {BB : BertBackend}.

(** ** A request split at its reads of the shared [Bert] *)

(** [Bert::predict] after [self.tokenizer.encode(prompt, true)]: the
    encoding's result, then [self.device] and [self.model] (model.rs lines
    96-108). *)
Definition predict_from (enc : result Encoding string) (m : BertModel) (dev : Device)
  : logged Model.Event Model.Error Tensor :=
  enc <~ ltry TokenizerError enc ;;
  t <~ ltry CandleErr (new_u32 (ids enc) dev) ;;
  token_ids <~ ltry CandleErr (unsqueeze t 0) ;;
  token_type_ids <~ ltry CandleErr (zeros_like token_ids) ;;
  _ <~ tell LoadedAndEncoded ;;
  ys <~ ltry CandleErr (forward m token_ids token_type_ids) ;;
  _ <~ tell ForwardPassTook ;;
  lret ys.

(** The handler body and the middleware around it, with [Bert::predict]
    split as above (main.rs lines 35-43 and 46-66). *)
Definition request_from (hs : Headers) (p : Prompt) (enc : result Encoding string)
    (m : BertModel) (dev : Device) : logged (Middleware.Event HandlerEvent) Model.Error Embeddings :=
  middleware_time_elapsed hs
    (_ <~ tell (Predicting (text p)) ;;
     t <~ lunwrap_sub ModelEvent (predict_from enc m dev) ;;
     v <~ lunwrap (to_vec3 t) ;;
     lret (mkEmbeddings v)).

(** ** Tasks and the world *)

Inductive Thread :=
| ReqNew (hs : Headers) (p : Prompt) (worker : nat)
| ReqWaiting (hs : Headers) (p : Prompt) (worker : nat)
| ReqBusy (hs : Headers) (p : Prompt) (worker : nat) (enc : result Encoding string) (b : Bert)
| ReqDone (hs : Headers) (p : Prompt) (worker : nat)
    (out : logged (Middleware.Event HandlerEvent) Model.Error Embeddings)
| WrNew (nb : Bert)
| WrWaiting (nb : Bert)
| WrHalf (nb : Bert)
| WrDone (nb : Bert).

Record World := mkWorld {
  app : AppModel;
  versions : list Bert;
  threads : list Thread
}.

(** A write of [nb] over [b] that has copied the model and not yet the
    tokenizer and the device. *)
Definition half_written (b nb : Bert) : Bert :=
  mkBert (model nb) (tokenizer b) (device b).

Definition busy_on (k : nat) (th : Thread) : bool :=
  match th with ReqBusy _ _ k' _ _ => bool_decide (k = k') | _ => false end.

(** No task of worker [k] is inside [Bert::predict]. *)
Definition worker_free (k : nat) (ths : list Thread) : bool :=
  forallb (fun th => negb (busy_on k th)) ths.

Section Steps.
Variable max_reads : nat.

Definition set_threads (w : World) (ths : list Thread) : World :=
  mkWorld (app w) (versions w) ths.

Definition with_lock (w : World) (l : Lock) (b : Bert) (ths : list Thread) : World :=
  mkWorld (mkAppModel l b) (versions w) ths.

(** The actions of the tasks.  [do_read]: [model.bert.read().await] is
    called (main.rs line 33); [do_encode]: once the guard is held and the
    worker is free, [Bert::predict] starts and encodes with the tokenizer in
    the cell (model.rs line 95); [do_finish]: it reads the device and the
    model, the handler finishes or panics, and the guard is dropped (line
    44, or unwinding from line 39 or 41).  The writer: [write()], the copy
    of the model field, the copy of the rest and the drop of the guard. *)
Definition do_read (w : World) (t : nat) (hs : Headers) (p : Prompt) (k : nat) : World :=
  with_lock w (acquire max_reads (lock (app w)) t Read) (bert (app w))
    (<[t := ReqWaiting hs p k]> (threads w)).

Definition do_encode (w : World) (t : nat) (hs : Headers) (p : Prompt) (k : nat) : World :=
  set_threads w (<[t := ReqBusy hs p k (encode (tokenizer (bert (app w))) (text p) true)
                          (bert (app w))]> (threads w)).

Definition do_finish (w : World) (t : nat) (hs : Headers) (p : Prompt) (k : nat)
    (enc : result Encoding string) : World :=
  with_lock w (release max_reads (lock (app w)) t Read) (bert (app w))
    (<[t := ReqDone hs p k (request_from hs p enc (model (bert (app w))) (device (bert (app w))))]>
       (threads w)).

Definition do_write (w : World) (t : nat) (nb : Bert) : World :=
  with_lock w (acquire max_reads (lock (app w)) t Write) (bert (app w))
    (<[t := WrWaiting nb]> (threads w)).

Definition do_write_half (w : World) (t : nat) (nb : Bert) : World :=
  with_lock w (lock (app w)) (half_written (bert (app w)) nb) (<[t := WrHalf nb]> (threads w)).

Definition do_write_done (w : World) (t : nat) (nb : Bert) : World :=
  mkWorld (mkAppModel (release max_reads (lock (app w)) t Write) nb)
    (nb :: versions w) (<[t := WrDone nb]> (threads w)).

(** One action of one task, in any interleaving, guarded by what the task
    waits for: its guard, and for [Bert::predict] a free worker. *)
Inductive cstep : World -> World -> Prop :=
| cs_read w t hs p k :
    threads w !! t = Some (ReqNew hs p k) -> cstep w (do_read w t hs p k)
| cs_encode w t hs p k :
    threads w !! t = Some (ReqWaiting hs p k) ->
    (t, Read) ∈ holders (lock (app w)) -> worker_free k (threads w) = true ->
    cstep w (do_encode w t hs p k)
| cs_finish w t hs p k enc b :
    threads w !! t = Some (ReqBusy hs p k enc b) -> cstep w (do_finish w t hs p k enc)
| cs_write w t nb :
    threads w !! t = Some (WrNew nb) -> cstep w (do_write w t nb)
| cs_write_half w t nb :
    threads w !! t = Some (WrWaiting nb) -> (t, Write) ∈ holders (lock (app w)) ->
    cstep w (do_write_half w t nb)
| cs_write_done w t nb :
    threads w !! t = Some (WrHalf nb) -> cstep w (do_write_done w t nb).

(** The scheduler's choice of task [t]: its next action if it can take
    one. *)
Definition run_step (w : World) (t : nat) : option World :=
  match threads w !! t with
  | Some (ReqNew hs p k) => Some (do_read w t hs p k)
  | Some (ReqWaiting hs p k) =>
      if bool_decide ((t, Read) ∈ holders (lock (app w))) && worker_free k (threads w)
      then Some (do_encode w t hs p k) else None
  | Some (ReqBusy hs p k enc _) => Some (do_finish w t hs p k enc)
  | Some (WrNew nb) => Some (do_write w t nb)
  | Some (WrWaiting nb) =>
      if bool_decide ((t, Write) ∈ holders (lock (app w))) then Some (do_write_half w t nb) else None
  | Some (WrHalf nb) => Some (do_write_done w t nb)
  | _ => None
  end.

(** A schedule: the tasks to run, in order; a task that cannot move is
    skipped. *)
Definition run (w : World) (sched : list nat) : World :=
  fold_left (fun w t => default w (run_step w t)) sched w.

Inductive creach (w0 : World) : World -> Prop :=
| cr_refl : creach w0 w0
| cr_step w w' : creach w0 w -> cstep w w' -> creach w0 w'.

End Steps.

(** The tasks a run starts with: requests assigned to one of [workers]
    workers, and writers. *)
Definition fresh (workers : nat) (th : Thread) : bool :=
  match th with
  | ReqNew _ _ k => bool_decide (k < workers)
  | WrNew _ => true
  | _ => false
  end.

(** The state [main] leaves: [RwLock::new(bert)] shared by all tasks. *)
Definition initial (max_reads workers : nat) (w : World) : Prop :=
  lock (app w) = init max_reads /\ versions w = [bert (app w)] /\
  Forall (fun th => fresh workers th = true) (threads w).

(** ** The split is [serve_request] *)

Lemma request_from_serve b hs p :
  request_from hs p (encode (tokenizer b) (text p) true) (model b) (device b) =
  serve_request b hs p.
Proof. reflexivity. Qed.

(** ** The invariant *)

Definition busy_worker (th : Thread) : option nat :=
  match th with ReqBusy _ _ k _ _ => Some k | _ => None end.

Definition is_half (th : Thread) : bool :=
  match th with WrHalf _ => true | _ => false end.

Section Invariant.
Variables max_reads workers : nat.
Hypothesis max_reads_pos : 0 < max_reads.

(** What each task knows of the shared state [l], [b] and of the complete
    versions [vs]: a request inside [Bert::predict] holds a read guard and
    has encoded with the tokenizer of the cell, which is a complete
    version; a finished request's result is the one of a complete version;
    a writer in the middle of its copy holds the write guard. *)
Definition thread_ok (l : Lock) (b : Bert) (vs : list Bert) (t : nat) (th : Thread) : Prop :=
  match th with
  | ReqNew _ _ k | ReqWaiting _ _ k => k < workers
  | ReqBusy hs p k enc b' =>
      k < workers /\ (t, Read) ∈ holders l /\ b' = b /\
      enc = encode (tokenizer b') (text p) true /\ b' ∈ vs
  | ReqDone hs p k out => k < workers /\ exists b', b' ∈ vs /\ out = serve_request b' hs p
  | WrHalf _ => (t, Write) ∈ holders l
  | WrNew _ | WrWaiting _ | WrDone _ => True
  end.

Record Inv (w : World) : Prop := {
  inv_lock : lock_inv max_reads (lock (app w));
  inv_threads : forall t th, threads w !! t = Some th ->
    thread_ok (lock (app w)) (bert (app w)) (versions w) t th;
  inv_cell : Forall (fun th => is_half th = false) (threads w) -> bert (app w) ∈ versions w;
  inv_worker : forall t1 t2 th1 th2 k, threads w !! t1 = Some th1 -> threads w !! t2 = Some th2 ->
    busy_worker th1 = Some k -> busy_worker th2 = Some k -> t1 = t2
}.

(** A task's facts survive a change of the shared state that keeps its
    guards and the complete versions, and, if it is inside
    [Bert::predict], the cell. *)
Lemma thread_ok_mono l l' b b' vs vs' t th :
  thread_ok l b vs t th ->
  (forall k, (t, k) ∈ holders l -> (t, k) ∈ holders l') ->
  (forall x, x ∈ vs -> x ∈ vs') ->
  (is_Some (busy_worker th) -> b = b') ->
  thread_ok l' b' vs' t th.
Proof.
  intros Hok Hl Hvs Hb. destruct th; simpl in *; try done.
  - destruct Hok as (? & ? & -> & ? & ?). rewrite <- Hb by eauto. naive_solver.
  - destruct Hok as (? & b1 & ? & ?). eauto.
  - auto.
Qed.

Lemma writer_excludes_reader l t t' :
  lock_inv max_reads l -> (t, Write) ∈ holders l -> (t', Read) ∈ holders l -> False.
Proof.
  intros Hinv Hw Hr. rewrite (write_alone max_reads max_reads_pos l t Hinv Hw) in Hr.
  apply list_elem_of_singleton in Hr. discriminate.
Qed.

(** While a writer holds its guard, no request is inside [Bert::predict]. *)
Lemma writer_no_busy w t t' th :
  Inv w -> (t, Write) ∈ holders (lock (app w)) -> threads w !! t' = Some th ->
  busy_worker th = None.
Proof.
  intros Hinv Hw Hth. pose proof (inv_threads w Hinv t' th Hth) as Hok.
  destruct th; try done. destruct Hok as (_ & Hr & _).
  destruct (writer_excludes_reader _ t t' (inv_lock w Hinv) Hw Hr).
Qed.

Lemma reader_no_half w t :
  Inv w -> (t, Read) ∈ holders (lock (app w)) ->
  Forall (fun th => is_half th = false) (threads w).
Proof.
  intros Hinv Hr. apply Forall_lookup. intros t' th Hth.
  pose proof (inv_threads w Hinv t' th Hth) as Hok.
  destruct th; try done. destruct (writer_excludes_reader _ t' t (inv_lock w Hinv) Hok Hr).
Qed.

(** The worker facts survive an update by a task outside [Bert::predict]. *)
Lemma inv_worker_insert (ths : list Thread) t y :
  (forall t1 t2 th1 th2 k, ths !! t1 = Some th1 -> ths !! t2 = Some th2 ->
     busy_worker th1 = Some k -> busy_worker th2 = Some k -> t1 = t2) ->
  busy_worker y = None ->
  forall t1 t2 th1 th2 k, <[t := y]> ths !! t1 = Some th1 -> <[t := y]> ths !! t2 = Some th2 ->
    busy_worker th1 = Some k -> busy_worker th2 = Some k -> t1 = t2.
Proof.
  intros Hw Hy t1 t2 th1 th2 k H1 H2 B1 B2.
  apply list_lookup_insert_Some in H1 as [(<- & <- & _)|(_ & H1)]; [congruence|].
  apply list_lookup_insert_Some in H2 as [(<- & <- & _)|(_ & H2)]; [congruence|].
  eauto.
Qed.

Lemma worker_free_spec k ths t th :
  worker_free k ths = true -> ths !! t = Some th -> busy_worker th <> Some k.
Proof.
  unfold worker_free. rewrite forallb_forall. intros Hfree Hth Hb.
  specialize (Hfree th (proj1 (list_elem_of_In _ _) (list_elem_of_lookup_2 _ _ _ Hth))).
  unfold busy_on in Hfree. destruct th; try done. simpl in Hb. injection Hb as ->.
  by rewrite bool_decide_true in Hfree.
Qed.

(** ** Every step keeps the invariant *)

Lemma inv_initial w0 : initial max_reads workers w0 -> Inv w0.
Proof.
  intros (Hl & Hv & Hfresh). rewrite Forall_lookup in Hfresh. split.
  - rewrite Hl. by apply lock_inv_init.
  - intros t th Hth. specialize (Hfresh t th Hth).
    destruct th; simpl in *; try done. by apply bool_decide_eq_true in Hfresh.
  - intros _. rewrite Hv. by left.
  - intros t1 t2 th1 th2 k H1 _ B1 _. specialize (Hfresh t1 th1 H1). by destruct th1.
Qed.

(** An update of one task outside [Bert::predict] and outside a write,
    with a lock state that keeps the other tasks' guards. *)
Lemma inv_update w l' t x y :
  Inv w -> threads w !! t = Some x -> is_half x = false ->
  lock_inv max_reads l' ->
  (forall j k, j <> t -> (j, k) ∈ holders (lock (app w)) -> (j, k) ∈ holders l') ->
  thread_ok l' (bert (app w)) (versions w) t y -> busy_worker y = None ->
  Inv (with_lock w l' (bert (app w)) (<[t := y]> (threads w))).
Proof.
  intros Hinv Hx Hhalf Hl Hkeep Hy By. split; simpl; [done| | |].
  - apply lookup_insert_forall; [|done]. intros j th Hj Hne.
    apply (thread_ok_mono (lock (app w)) _ (bert (app w)) _ (versions w));
      [by apply (inv_threads w Hinv) | auto | done | done].
  - intros Hall. apply (inv_cell w Hinv). by apply (Forall_insert_inv _ _ t x y).
  - apply inv_worker_insert; [apply (inv_worker w Hinv) | done].
Qed.

Lemma inv_read w t hs p k :
  Inv w -> threads w !! t = Some (ReqNew hs p k) ->
  Inv (do_read max_reads w t hs p k).
Proof.
  intros Hinv Ht. eapply inv_update; eauto.
  - apply lock_inv_acquire; [done | apply (inv_lock w Hinv)].
  - intros j k' _. apply acquire_keeps.
  - exact (inv_threads w Hinv t _ Ht).
Qed.

Lemma inv_write w t nb :
  Inv w -> threads w !! t = Some (WrNew nb) ->
  Inv (do_write max_reads w t nb).
Proof.
  intros Hinv Ht. eapply inv_update; eauto; [|by intros; apply acquire_keeps|done].
  apply lock_inv_acquire; [done | apply (inv_lock w Hinv)].
Qed.

(** A request leaves [Bert::predict] with the result of the version it
    encoded with, and drops its guard: the result is [serve_request] of
    that version, also when it is a panic. *)
Lemma inv_finish w t hs p k enc b :
  Inv w -> threads w !! t = Some (ReqBusy hs p k enc b) ->
  Inv (do_finish max_reads w t hs p k enc).
Proof.
  intros Hinv Ht. pose proof (inv_threads w Hinv t _ Ht) as (Hk & Hr & -> & -> & Hb).
  eapply inv_update; eauto.
  - by apply lock_inv_release; [|apply (inv_lock w Hinv)|].
  - intros j k' Hne. apply release_keeps. congruence.
  - split; [done|]. exists (bert (app w)). by rewrite request_from_serve.
Qed.

Lemma inv_encode w t hs p k :
  Inv w -> threads w !! t = Some (ReqWaiting hs p k) ->
  (t, Read) ∈ holders (lock (app w)) -> worker_free k (threads w) = true ->
  Inv (do_encode w t hs p k).
Proof.
  intros Hinv Ht Hr Hfree.
  pose proof (inv_cell w Hinv (reader_no_half w t Hinv Hr)) as Hcell.
  split; simpl; [apply (inv_lock w Hinv) | | done |].
  - apply lookup_insert_forall; [intros; by apply (inv_threads w Hinv)|].
    pose proof (inv_threads w Hinv t _ Ht). simpl. done.
  - intros t1 t2 th1 th2 k' H1 H2 B1 B2.
    apply list_lookup_insert_Some in H1 as [(<- & <- & _)|(_ & H1)];
    apply list_lookup_insert_Some in H2 as [(<- & <- & _)|(_ & H2)]; try done;
      simpl in *; simplify_eq;
      [ destruct (worker_free_spec _ _ _ _ Hfree H2 B2)
      | destruct (worker_free_spec _ _ _ _ Hfree H1 B1)
      | by apply (inv_worker w Hinv t1 t2 th1 th2 k') ].
Qed.

Lemma inv_write_half w t nb :
  Inv w -> threads w !! t = Some (WrWaiting nb) -> (t, Write) ∈ holders (lock (app w)) ->
  Inv (do_write_half w t nb).
Proof.
  intros Hinv Ht Hw. split; simpl; [apply (inv_lock w Hinv) | | |].
  - apply lookup_insert_forall; [|done]. intros j th Hj _.
    apply (thread_ok_mono (lock (app w)) _ (bert (app w)) _ (versions w));
      [by apply (inv_threads w Hinv) | auto | done |].
    by rewrite (writer_no_busy w t j th Hinv Hw Hj); intros [? ?].
  - rewrite Forall_lookup. intros Hall. exfalso.
    assert (t < length (threads w)) as Hlt by (by eapply lookup_lt_Some).
    by specialize (Hall t (WrHalf nb) (proj2 (list_lookup_insert_Some _ _ _ _ _) (or_introl (conj eq_refl (conj eq_refl Hlt))))).
  - apply inv_worker_insert; [apply (inv_worker w Hinv) | done].
Qed.

Lemma inv_write_done w t nb :
  Inv w -> threads w !! t = Some (WrHalf nb) ->
  Inv (do_write_done max_reads w t nb).
Proof.
  intros Hinv Ht. pose proof (inv_threads w Hinv t _ Ht) as Hw. simpl in Hw.
  split; simpl.
  - by apply lock_inv_release; [|apply (inv_lock w Hinv)|].
  - apply lookup_insert_forall; [|done]. intros j th Hj Hne.
    apply (thread_ok_mono (lock (app w)) _ (bert (app w)) _ (versions w));
      [by apply (inv_threads w Hinv) | | by right |].
    + intros k' ?. apply release_keeps; [congruence | done].
    + by rewrite (writer_no_busy w t j th Hinv Hw Hj); intros [? ?].
  - intros _. by left.
  - apply inv_worker_insert; [apply (inv_worker w Hinv) | done].
Qed.

Lemma inv_step w w' : Inv w -> cstep max_reads w w' -> Inv w'.
Proof.
  intros Hinv Hs. destruct Hs.
  - by apply inv_read.
  - by apply inv_encode.
  - by eapply inv_finish.
  - by apply inv_write.
  - by apply inv_write_half.
  - by apply inv_write_done.
Qed.

Lemma inv_reach w0 w : initial max_reads workers w0 -> creach max_reads w0 w -> Inv w.
Proof.
  intros H0. induction 1; [by apply inv_initial | by eapply inv_step].
Qed.

End Invariant.

Definition is_request (th : Thread) : bool :=
  match th with ReqNew _ _ _ | ReqWaiting _ _ _ | ReqBusy _ _ _ _ _ | ReqDone _ _ _ _ => true
  | _ => false end.

(** Without writer tasks the cell is never replaced: the complete
    versions stay those of the start. *)
Lemma no_writer_versions max_reads w0 w :
  creach max_reads w0 w -> Forall (fun th => is_request th = true) (threads w0) ->
  versions w = versions w0 /\ Forall (fun th => is_request th = true) (threads w).
Proof.
  intros Hr Hreq. induction Hr as [|w w' _ IH Hs]; [done|].
  destruct IH as [Hv Hall]. pose proof Hall as Hall'. rewrite Forall_lookup in Hall'.
  destruct Hs as [w t ? ? ? Ht|w t ? ? ? Ht _ _|w t ? ? ? ? ? Ht|w t nb Ht|w t nb Ht _|w t nb Ht];
    specialize (Hall' t _ Ht); try discriminate; simpl;
    (split; [done | by apply Forall_insert]).
Qed.

(** tokio's [MAX_READS] is positive (computed in binary, not in unary). *)
Lemma MAX_READS_pos : 0 < MAX_READS.
Proof.
  unfold MAX_READS. apply Nat.lt_add_lt_sub_r. simpl Nat.add.
  apply (Nat.pow_lt_mono_r 2 0 29); lia.
Qed.

(** What a successful [main] hands to the workers. *)
(** ** The scheduler runs the steps of [cstep] *)

Lemma run_step_cstep max_reads w t w' : run_step max_reads w t = Some w' -> cstep max_reads w w'.
Proof.
  unfold run_step.
  destruct (threads w !! t) as [[hs p k|hs p k|hs p k enc b|hs p k out|nb|nb|nb|nb]|] eqn:Ht;
    try discriminate.
  - intros [= <-]. by apply cs_read.
  - destruct (bool_decide _) eqn:Hb; destruct (worker_free _ _) eqn:Hf; simpl; try discriminate.
    intros [= <-]. apply bool_decide_eq_true in Hb. by apply cs_encode.
  - intros [= <-]. exact (cs_finish max_reads w t hs p k enc b Ht).
  - intros [= <-]. by apply cs_write.
  - destruct (bool_decide _) eqn:Hb; try discriminate.
    intros [= <-]. apply bool_decide_eq_true in Hb. by apply cs_write_half.
  - intros [= <-]. by apply cs_write_done.
Qed.

Lemma creach_run max_reads w0 w sched :
  creach max_reads w0 w -> creach max_reads w0 (run max_reads w sched).
Proof.
  revert w. induction sched as [|t sched IH]; intros w Hr; simpl; [done|].
  apply IH. destruct (run_step max_reads w t) as [w'|] eqn:E; simpl; [|done].
  apply (cr_step max_reads w0 w w'); [done | exact (run_step_cstep max_reads w t w' E)].
Qed.

(** The scheduler can take exactly the steps of [cstep]. *)
Lemma cstep_run_step max_reads w w' :
  cstep max_reads w w' -> exists t, run_step max_reads w t = Some w'.
Proof.
  intros Hs. destruct Hs as [w t hs p k Ht|w t hs p k Ht Hr Hf|w t hs p k enc b Ht
    |w t nb Ht|w t nb Ht Hw|w t nb Ht]; exists t; unfold run_step; rewrite Ht; try done.
  - by rewrite bool_decide_true, Hf by done.
  - by rewrite bool_decide_true by done.
Qed.

(** The scheduler is the step relation: the tasks' possible next
    states are exactly what [run_step] computes for one of them. *)
Lemma run_step_spec max_reads w w' :
  cstep max_reads w w' <-> exists t, run_step max_reads w t = Some w'.
Proof.
  split; [apply cstep_run_step|]. intros [t Ht]. exact (run_step_cstep max_reads w t w' Ht).
Qed.


Section Claims.
Variables max_reads workers : nat.
Hypothesis max_reads_pos : 0 < max_reads.

(** C4. No torn read: in every state reachable from the start, a request
    inside [Bert::predict] finds in the cell, when it reads the model and
    the device, the same complete version whose tokenizer it encoded with;
    a reload cannot change the model under it. *)
Theorem concurrent_no_torn_read w0 w t hs p k enc b :
  initial max_reads workers w0 -> creach max_reads w0 w ->
  threads w !! t = Some (ReqBusy hs p k enc b) ->
  bert (app w) = b /\ enc = encode (tokenizer b) (text p) true /\ b ∈ versions w.
Proof.
  intros H0 Hr Ht.
  destruct (inv_threads max_reads workers w (inv_reach max_reads workers max_reads_pos w0 w H0 Hr) t _ Ht)
    as (_ & _ & -> & -> & ?).
  done.
Qed.

(** C3. No cross-talk: whatever the interleaving of the requests and of
    reloads, every finished request's result (response or panic, with its
    printed lines) is [serve_request b hs p] for its own headers and prompt
    and a complete version [b] of the model. *)
Theorem concurrent_no_cross_talk w0 w t hs p k out :
  initial max_reads workers w0 -> creach max_reads w0 w ->
  threads w !! t = Some (ReqDone hs p k out) ->
  exists b, b ∈ versions w /\ out = serve_request b hs p.
Proof.
  intros H0 Hr Ht.
  exact (proj2 (inv_threads max_reads workers w (inv_reach max_reads workers max_reads_pos w0 w H0 Hr) t _ Ht)).
Qed.

(** Determinism as the program runs: with no writer task, every
    finished request's result is [serve_request] of the model the run
    started with, a function of the request alone. *)
Theorem concurrent_no_reload_same_model w0 w t hs p k out :
  initial max_reads workers w0 -> Forall (fun th => is_request th = true) (threads w0) ->
  creach max_reads w0 w -> threads w !! t = Some (ReqDone hs p k out) ->
  out = serve_request (bert (app w0)) hs p.
Proof.
  intros H0 Hreq Hr Ht.
  destruct (inv_threads max_reads workers w (inv_reach max_reads workers max_reads_pos w0 w H0 Hr) t _ Ht)
    as (_ & b & Hb & ->).
  destruct (no_writer_versions max_reads w0 w Hr Hreq) as [Hv _].
  destruct H0 as (_ & Hv0 & _). rewrite Hv, Hv0 in Hb. by apply list_elem_of_singleton in Hb as ->.
Qed.

(** C5. A half-done write is never observed: while a writer is between
    its copy of the model and its copy of the rest, no request is inside
    [Bert::predict]. *)
Theorem concurrent_write_excludes_predict w0 w t nb t' th :
  initial max_reads workers w0 -> creach max_reads w0 w ->
  threads w !! t = Some (WrHalf nb) -> threads w !! t' = Some th -> busy_worker th = None.
Proof.
  intros H0 Hr Ht Ht'. pose proof (inv_reach max_reads workers max_reads_pos w0 w H0 Hr) as Hinv.
  apply (writer_no_busy max_reads workers max_reads_pos w t t' th Hinv); [|done].
  exact (inv_threads max_reads workers w Hinv t _ Ht).
Qed.

End Claims.

(** C2. End to end: when [main] has started the server, every request
    answered by any of its 8 workers, in any interleaving, gets
    [serve_request b hs p] for the [Bert] [b] that [Bert::new] loaded:
    construction happens before every read, and the result depends only on
    the request. *)
Theorem main_requests_served env bind l cfg ths w t hs p k out :
  main env bind = (l, Ok cfg) ->
  Forall (fun th => fresh 8 th = true /\ is_request th = true) ths ->
  creach MAX_READS (mkWorld (app_data cfg) [bert (app_data cfg)] ths) w ->
  threads w !! t = Some (ReqDone hs p k out) ->
  exists l' b, Model.new env None None false false = (l', Ok b) /\ out = serve_request b hs p.
Proof.
  intros Hmain Hths Hr Ht. destruct (main_Ok env bind l cfg Hmain) as (l' & b & Hnew & ->).
  exists l', b. split; [done|].
  assert (Hinit : initial MAX_READS 8 (mkWorld (mkAppModel (init MAX_READS) b) [b] ths)).
  { split; [done|split; [done|]]. eapply Forall_impl; [exact Hths|]. by intros ? [? ?]. }
  pose proof (inv_reach MAX_READS 8 MAX_READS_pos _ w Hinit Hr) as Hinv.
  destruct (inv_threads MAX_READS 8 w Hinv t _ Ht) as (_ & b' & Hb & ->).
  destruct (no_writer_versions MAX_READS _ w Hr) as [Hv _];
    [eapply Forall_impl; [exact Hths|]; by intros ? [? ?]|].
  simpl in Hv. rewrite Hv in Hb. by apply list_elem_of_singleton in Hb as ->.
Qed.

End WithBackend.

(** ** Concrete runs: the demo service of [Model.v], a lock of 3 permits and
    2 workers *)

(** A reload with another tokenizer. *)
Definition reloaded : @Bert EmbeddingBackend :=
  mkBert (model demo_bert) (prepared demo_tokenizer) Cpu.

Definition demo_start : @World EmbeddingBackend :=
  mkWorld (mkAppModel (init 3) demo_bert) [demo_bert]
    [ReqNew req_headers hello 0; ReqNew req_headers too_long 1; WrNew reloaded].

Definition solo_start : @World EmbeddingBackend :=
  mkWorld (mkAppModel (init 3) demo_bert) [demo_bert]
    [ReqNew req_headers hello 0; ReqNew req_headers too_long 1].

Lemma demo_start_initial : initial 3 2 demo_start.
Proof. split; [done | split; [done | apply (bool_decide_unpack _); vm_compute; reflexivity]]. Qed.

Lemma solo_start_initial : initial 3 2 solo_start.
Proof. split; [done | split; [done | apply (bool_decide_unpack _); vm_compute; reflexivity]]. Qed.

(** Request 0 takes its guard, the writer queues behind it, request 0
    encodes: it is inside [Bert::predict] while the writer waits. *)
Lemma concurrent_no_torn_read_witness :
  creach 3 demo_start (run 3 demo_start [0; 2; 0]) /\
  threads (run 3 demo_start [0; 2; 0]) !! 0 =
    Some (ReqBusy req_headers hello 0 (encode (tokenizer demo_bert) (text hello) true) demo_bert) /\
  (bert (app (run 3 demo_start [0; 2; 0])) = demo_bert /\
   encode (tokenizer demo_bert) (text hello) true = encode (tokenizer demo_bert) (text hello) true /\
   demo_bert ∈ versions (run 3 demo_start [0; 2; 0])).
Proof.
  pose proof (creach_run 3 demo_start demo_start [0; 2; 0] (cr_refl _ _)) as Hr.
  assert (Ht : threads (run 3 demo_start [0; 2; 0]) !! 0 =
    Some (ReqBusy req_headers hello 0 (encode (tokenizer demo_bert) (text hello) true) demo_bert))
    by (vm_compute; reflexivity).
  exact (conj Hr (conj Ht (concurrent_no_torn_read 3 2 three_pos _ _ _ _ _ _ _ _
    demo_start_initial Hr Ht))).
Defined.

(** Request 0 finishes and wakes the writer, which replaces the model;
    then request 1 runs on the reloaded model. *)
Definition demo_sched : list nat := [0; 2; 0; 1; 0; 2; 2; 1; 1].

Lemma concurrent_no_cross_talk_witness :
  creach 3 demo_start (run 3 demo_start demo_sched) /\
  threads (run 3 demo_start demo_sched) !! 1 =
    Some (ReqDone req_headers too_long 1 (serve_request reloaded req_headers too_long)) /\
  exists b, b ∈ versions (run 3 demo_start demo_sched) /\
    serve_request reloaded req_headers too_long = serve_request b req_headers too_long.
Proof.
  pose proof (creach_run 3 demo_start demo_start demo_sched (cr_refl _ _)) as Hr.
  assert (Ht : threads (run 3 demo_start demo_sched) !! 1 =
    Some (ReqDone req_headers too_long 1 (serve_request reloaded req_headers too_long)))
    by (vm_compute; reflexivity).
  exact (conj Hr (conj Ht (concurrent_no_cross_talk 3 2 three_pos _ _ _ _ _ _ _
    demo_start_initial Hr Ht))).
Defined.

Definition solo_sched : list nat := [0; 1; 0; 1; 0; 1].

Lemma concurrent_no_reload_same_model_witness :
  Forall (fun th => is_request th = true) (threads solo_start) /\
  creach 3 solo_start (run 3 solo_start solo_sched) /\
  threads (run 3 solo_start solo_sched) !! 1 =
    Some (ReqDone req_headers too_long 1 (serve_request demo_bert req_headers too_long)) /\
  serve_request demo_bert req_headers too_long = serve_request (bert (app solo_start)) req_headers too_long.
Proof.
  assert (Hreq : Forall (fun th => is_request th = true) (threads solo_start))
    by (apply (bool_decide_unpack _); vm_compute; reflexivity).
  pose proof (creach_run 3 solo_start solo_start solo_sched (cr_refl _ _)) as Hr.
  assert (Ht : threads (run 3 solo_start solo_sched) !! 1 =
    Some (ReqDone req_headers too_long 1 (serve_request demo_bert req_headers too_long)))
    by (vm_compute; reflexivity).
  exact (conj Hreq (conj Hr (conj Ht (concurrent_no_reload_same_model 3 2 three_pos _ _ _ _ _ _ _
    solo_start_initial Hreq Hr Ht)))).
Defined.

(** The writer copies the model field once request 0 has dropped its
    guard. *)
Definition half_sched : list nat := [0; 2; 0; 0; 2].

Lemma concurrent_write_excludes_predict_witness :
  creach 3 demo_start (run 3 demo_start half_sched) /\
  threads (run 3 demo_start half_sched) !! 2 = Some (WrHalf reloaded) /\
  threads (run 3 demo_start half_sched) !! 0 =
    Some (ReqDone req_headers hello 0 (serve_request demo_bert req_headers hello)) /\
  @busy_worker EmbeddingBackend (ReqDone req_headers hello 0 (serve_request demo_bert req_headers hello)) = None.
Proof.
  pose proof (creach_run 3 demo_start demo_start half_sched (cr_refl _ _)) as Hr.
  assert (Ht : threads (run 3 demo_start half_sched) !! 2 = Some (WrHalf reloaded))
    by (vm_compute; reflexivity).
  assert (Ht' : threads (run 3 demo_start half_sched) !! 0 =
    Some (ReqDone req_headers hello 0 (serve_request demo_bert req_headers hello)))
    by (vm_compute; reflexivity).
  exact (conj Hr (conj Ht (conj Ht' (concurrent_write_excludes_predict 3 2 three_pos _ _ _ _ _ _
    demo_start_initial Hr Ht Ht')))).
Defined.

(** The server [main] starts on the demo service: its lock has tokio's
    [MAX_READS] permits (reduced lazily, never written out in unary). *)
Definition served_start : @World EmbeddingBackend :=
  mkWorld (mkAppModel (init MAX_READS) demo_bert) [demo_bert]
    [ReqNew req_headers hello 0; ReqNew req_headers too_long 1].

Lemma main_requests_served_witness :
  main demo_env bind_ok =
    (map LoadEvent (Model.new demo_env None None false false).1 ++
       [CurrentPid; Serving 8 "127.0.0.1" 8080%Z],
     Ok (mkServerConfig (mkAppModel (init MAX_READS) demo_bert) 8 "127.0.0.1" 8080%Z)) /\
  Forall (fun th => fresh 8 th = true /\ is_request th = true) (threads served_start) /\
  creach MAX_READS served_start (run MAX_READS served_start [1; 0; 1; 0; 1]) /\
  threads (run MAX_READS served_start [1; 0; 1; 0; 1]) !! 1 =
    Some (ReqDone req_headers too_long 1 (serve_request demo_bert req_headers too_long)) /\
  exists l' b, Model.new demo_env None None false false = (l', Ok b) /\
    serve_request demo_bert req_headers too_long = serve_request b req_headers too_long.
Proof.
  assert (Hnew : Model.new demo_env None None false false =
    ((Model.new demo_env None None false false).1, Ok demo_bert)) by (vm_compute; reflexivity).
  assert (Hmain : main demo_env bind_ok =
    (map LoadEvent (Model.new demo_env None None false false).1 ++
       [CurrentPid; Serving 8 "127.0.0.1" 8080%Z],
     Ok (mkServerConfig (mkAppModel (init MAX_READS) demo_bert) 8 "127.0.0.1" 8080%Z)))
    by (unfold main; rewrite Hnew; reflexivity).
  assert (Hths : Forall (fun th => fresh 8 th = true /\ is_request th = true) (threads served_start))
    by (repeat constructor).
  pose proof (creach_run MAX_READS served_start served_start [1; 0; 1; 0; 1] (cr_refl _ _)) as Hr.
  assert (Ht : threads (run MAX_READS served_start [1; 0; 1; 0; 1]) !! 1 =
    Some (ReqDone req_headers too_long 1 (serve_request demo_bert req_headers too_long)))
    by (lazy; reflexivity).
  exact (conj Hmain (conj Hths (conj Hr (conj Ht
    (main_requests_served demo_env bind_ok _ _ _ _ _ _ _ _ _ Hmain Hths Hr Ht))))).
Defined.

End Concurrent.
