(* ===== verification/Progress.v ===== *)
(** * Progress: the server never deadlocks and every task can finish

    [Concurrent.v] shows what a finished request computes; this file shows
    that requests do finish.  Each task of the concurrent model has at most
    three actions left ([remaining]), and every step of [cstep] takes one
    of them; this measure drives the search for a completing schedule.
    A state in which no task can act has
    every request answered and every reload done: a task waits only for its
    guard or for its worker, a task inside [Bert::predict] or in the
    middle of a write can always act, and a guard that is alive belongs to
    a task that can act.  This needs a second invariant relating the lock
    to the tasks: the lock's entries (guards alive and queued requests)
    belong to tasks that asked for them, at most one per task, and every
    task that called [read()] or [write()] and has not dropped its guard
    has an entry.  For the program this is the absence of deadlock on
    [model.bert.read()] (main.rs line 33) with the 8 workers (line 86). *)

From S2P Require Import Prelude Tensor Tokenizer Encoder Model Middleware RwLock Server Concurrent.
From Stdlib Require Import ZArith.
Import Tensor Tokenizer Encoder Model Middleware RwLock Server Concurrent.

Module Progress.

Section WithBackend.
Context {BB : BertBackend}.

(** The guard a task holds or has asked for. *)
Definition holds_kind (th : Thread) : option Kind :=
  match th with
  | ReqWaiting _ _ _ | ReqBusy _ _ _ _ _ => Some Read
  | WrWaiting _ | WrHalf _ => Some Write
  | _ => None
  end.

(** The guard a task waits for at [read().await] or [write().await]. *)
Definition wait_kind (th : Thread) : option Kind :=
  match th with ReqWaiting _ _ _ => Some Read | WrWaiting _ => Some Write | _ => None end.

Definition final (th : Thread) : bool :=
  match th with ReqDone _ _ _ _ | WrDone _ => true | _ => false end.

(** The actions a task has left. *)
Definition remaining (th : Thread) : nat :=
  match th with
  | ReqNew _ _ _ | WrNew _ => 3
  | ReqWaiting _ _ _ | WrWaiting _ => 2
  | ReqBusy _ _ _ _ _ | WrHalf _ => 1
  | ReqDone _ _ _ _ | WrDone _ => 0
  end.

Definition pending (w : World) : nat := sum_list (map remaining (threads w)).

(** ** Every step takes one action *)

Lemma run_step_pending max_reads w t w' :
  run_step max_reads w t = Some w' -> pending w' < pending w.
Proof.
  unfold run_step, pending.
  destruct (threads w !! t) as [[hs p k|hs p k|hs p k enc b|hs p k out|nb|nb|nb|nb]|] eqn:Ht;
    try discriminate;
    repeat match goal with |- context [if ?c then _ else _] => destruct c end;
    intros; simplify_eq; simpl;
    match goal with |- sum_list (map remaining (<[t := ?y]> _)) < _ =>
      pose proof (sum_list_map_insert remaining (threads w) t _ y Ht) end;
    simpl in *; lia.
Qed.

(** ** The lock and the tasks *)

Section Corr.
Variables max_reads workers : nat.
Hypothesis max_reads_pos : 0 < max_reads.

(** The lock's entries belong to tasks that asked for that guard, one
    entry per task, and a task waiting at [read()] or [write()] has its
    entry. *)
Record Corr (l : Lock) (ths : list Thread) : Prop := {
  corr_entries : forall x, x ∈ entries l ->
    exists th, ths !! x.1 = Some th /\ holds_kind th = Some x.2;
  corr_waiting : forall t th k, ths !! t = Some th -> wait_kind th = Some k -> (t, k) ∈ entries l;
  corr_nodup : NoDup (map fst (entries l))
}.

(** A task with no entry is not among the entries' threads. *)
Lemma corr_fresh l ths t th :
  Corr l ths -> ths !! t = Some th -> holds_kind th = None -> t ∉ map fst (entries l).
Proof.
  intros Hc Ht Hk (x & -> & Hx)%list_elem_of_fmap.
  destruct (corr_entries l ths Hc x Hx) as (th' & Ht' & Hk'). congruence.
Qed.

(** A task that was not an entry calls [acquire]. *)
Lemma corr_acquire l ths t th th' k :
  Corr l ths -> ths !! t = Some th -> holds_kind th = None ->
  holds_kind th' = Some k -> wait_kind th' = Some k ->
  Corr (acquire max_reads l t k) (<[t := th']> ths).
Proof.
  intros Hc Ht Hk Hk' Hw'. pose proof (entries_acquire max_reads l t k) as Hp.
  pose proof (corr_fresh l ths t th Hc Ht Hk) as Hfresh. split.
  - intros x Hx. rewrite Hp in Hx. apply elem_of_cons in Hx as [->|Hx].
    + exists th'. split; [by eapply lookup_insert_here | done].
    + destruct (corr_entries l ths Hc x Hx) as (th0 & H0 & Hk0). exists th0.
      rewrite list_lookup_insert_ne; [done|]. intros E. apply Hfresh.
      apply list_elem_of_fmap. exists x. by rewrite E.
  - intros t' th0 k' H0 Hk0. rewrite Hp.
    apply list_lookup_insert_Some in H0 as [(<- & <- & _)|(_ & H0)].
    + rewrite Hw' in Hk0. injection Hk0 as <-. by left.
    + right. by apply (corr_waiting l ths Hc t' th0).
  - rewrite Hp. simpl. constructor; [done | apply (corr_nodup l ths Hc)].
Qed.

(** A task changes phase keeping its guard, and stops waiting. *)
Lemma corr_phase l ths t th th' :
  Corr l ths -> ths !! t = Some th -> holds_kind th' = holds_kind th -> wait_kind th' = None ->
  Corr l (<[t := th']> ths).
Proof.
  intros Hc Ht Hk Hw. split; [| |apply (corr_nodup l ths Hc)].
  - intros x Hx. destruct (corr_entries l ths Hc x Hx) as (th0 & H0 & Hk0).
    destruct (decide (x.1 = t)) as [E|E].
    + rewrite E in H0 |- *. rewrite Ht in H0. injection H0 as <-.
      exists th'. split; [by eapply lookup_insert_here | congruence].
    + exists th0. by rewrite list_lookup_insert_ne by congruence.
  - intros t' th0 k' H0 Hk0.
    apply list_lookup_insert_Some in H0 as [(<- & <- & _)|(_ & H0)]; [congruence|].
    by apply (corr_waiting l ths Hc t' th0).
Qed.

(** A task drops its guard and has no entry any more. *)
Lemma corr_release l ths t th th' k :
  Corr l ths -> ths !! t = Some th -> (t, k) ∈ holders l ->
  holds_kind th' = None -> wait_kind th' = None ->
  Corr (release max_reads l t k) (<[t := th']> ths).
Proof.
  intros Hc Ht Hin Hk' Hw'.
  set (E := remove_first (t, k) (holders l) ++ map wk (waiters l)).
  pose proof (entries_release max_reads l t k) as Hp. fold E in Hp.
  assert (Hq : entries l ≡ₚ (t, k) :: E).
  { unfold entries, E. by rewrite (remove_first_perm (t, k) (holders l)) at 1. }
  pose proof (corr_nodup l ths Hc) as Hnd. rewrite Hq in Hnd. simpl in Hnd.
  apply NoDup_cons in Hnd as [Hnot Hnd]. split.
  - intros x Hx. rewrite Hp in Hx.
    destruct (corr_entries l ths Hc x) as (th0 & H0 & Hk0); [rewrite Hq; by right|].
    exists th0. rewrite list_lookup_insert_ne; [done|]. intros Ex. apply Hnot.
    apply list_elem_of_fmap. exists x. by rewrite Ex.
  - intros t' th0 k' H0 Hk0.
    apply list_lookup_insert_Some in H0 as [(<- & <- & _)|(Hne & H0)]; [congruence|].
    pose proof (corr_waiting l ths Hc t' th0 k' H0 Hk0) as Hin'. rewrite Hq in Hin'.
    rewrite Hp. apply elem_of_cons in Hin' as [Eq|Hin']; [congruence | done].
  - by rewrite Hp.
Qed.

Lemma corr_initial w0 : initial max_reads workers w0 -> Corr (lock (app w0)) (threads w0).
Proof.
  intros (Hl & _ & Hfresh). rewrite Forall_lookup in Hfresh. rewrite Hl. split.
  - intros x Hx. unfold entries, init in Hx. simpl in Hx. by apply not_elem_of_nil in Hx.
  - intros t th k Ht Hk. specialize (Hfresh t th Ht). by destruct th.
  - constructor.
Qed.

Lemma corr_step w w' :
  Inv max_reads workers w -> Corr (lock (app w)) (threads w) -> cstep max_reads w w' ->
  Corr (lock (app w')) (threads w').
Proof.
  intros Hinv Hc Hs. destruct Hs as [w t hs p k Ht|w t hs p k Ht _ _|w t hs p k enc b Ht
    |w t nb Ht|w t nb Ht _|w t nb Ht]; simpl.
  - by eapply corr_acquire.
  - by eapply corr_phase.
  - destruct (inv_threads max_reads workers w Hinv t _ Ht) as (_ & Hr & _).
    by eapply corr_release.
  - by eapply corr_acquire.
  - by eapply corr_phase.
  - pose proof (inv_threads max_reads workers w Hinv t _ Ht) as Hw. simpl in Hw.
    by eapply corr_release.
Qed.

Lemma corr_reach w0 w :
  initial max_reads workers w0 -> creach max_reads w0 w -> Corr (lock (app w)) (threads w).
Proof.
  intros H0 Hr. induction Hr as [|w w' Hr IH Hs]; [by apply corr_initial|].
  apply (corr_step w w'); [by eapply inv_reach | done | done].
Qed.

End Corr.

(** ** A task that cannot act waits for its guard *)

Lemma stuck_phase max_reads w t th :
  run_step max_reads w t = None -> threads w !! t = Some th ->
  is_Some (wait_kind th) \/ final th = true.
Proof.
  unfold run_step. intros Hn Ht. rewrite Ht in Hn.
  destruct th; simpl in *; try discriminate; first [left; by eexists | by right].
Qed.

Lemma run_step_lookup max_reads w t w' :
  run_step max_reads w t = Some w' -> t < length (threads w).
Proof.
  unfold run_step. destruct (threads w !! t) eqn:Ht; [|done]. intros _. by eapply lookup_lt_Some.
Qed.

Section Stuck.
Variables max_reads workers : nat.
Hypothesis max_reads_pos : 0 < max_reads.

(** If no task can act, no guard is alive (its task could act), so no
    request is queued, so every task has finished. *)
Lemma stuck_final w :
  Inv max_reads workers w -> Corr (lock (app w)) (threads w) ->
  (forall t, run_step max_reads w t = None) -> Forall (fun th => final th = true) (threads w).
Proof.
  intros Hinv Hc Hstuck.
  assert (Hph : forall t th, threads w !! t = Some th -> is_Some (wait_kind th) \/ final th = true)
    by (intros t th; apply (stuck_phase max_reads), Hstuck).
  assert (Hfree : forall k, worker_free k (threads w) = true).
  { intros k. unfold worker_free. apply forallb_forall. intros th Hin.
    apply list_elem_of_In, list_elem_of_lookup in Hin as [t Ht].
    destruct (Hph t th Ht) as [[? Hk]|Hf]; by destruct th. }
  assert (Hh : holders (lock (app w)) = []).
  { destruct (holders (lock (app w))) as [|x hs] eqn:E; [done|]. exfalso.
    assert (Hx : x ∈ holders (lock (app w))) by (rewrite E; left).
    destruct (corr_entries _ _ Hc x) as (th & Ht & Hk);
      [unfold entries; apply elem_of_app; by left|].
    pose proof (Hstuck x.1) as Hn. unfold run_step in Hn. rewrite Ht in Hn.
    destruct x as [t k]. simpl in *.
    destruct th; simpl in Hk; try discriminate; injection Hk as <-; try discriminate Hn;
      rewrite bool_decide_true in Hn by done; rewrite ?Hfree in Hn; discriminate. }
  assert (Hq : waiters (lock (app w)) = []).
  { eapply no_holders_no_waiters; [done | apply (inv_lock _ _ _ Hinv) | done]. }
  apply Forall_lookup. intros t th Ht. destruct (Hph t th Ht) as [[k Hk]|Hf]; [|done].
  pose proof (corr_waiting _ _ Hc t th k Ht Hk) as Hin.
  unfold entries in Hin. rewrite Hh, Hq in Hin. by apply not_elem_of_nil in Hin.
Qed.

End Stuck.

Section Claims.
Variables max_reads workers : nat.
Hypothesis max_reads_pos : 0 < max_reads.

(** C6. No deadlock: in every state reachable from the start in which no
    task can take a step, every request has been answered (or has
    panicked) and every reload is done. *)
Theorem concurrent_no_deadlock w0 w :
  initial max_reads workers w0 -> creach max_reads w0 w ->
  (forall t, run_step max_reads w t = None) -> Forall (fun th => final th = true) (threads w).
Proof.
  intros H0 Hr. apply (stuck_final max_reads workers max_reads_pos).
  - exact (inv_reach max_reads workers max_reads_pos w0 w H0 Hr).
  - exact (corr_reach max_reads workers max_reads_pos w0 w H0 Hr).
Qed.

(** C7. Every request completes: from every reachable state there is a
    schedule of the tasks after which all requests are answered and all
    reloads done. *)
Theorem concurrent_all_complete w0 w :
  initial max_reads workers w0 -> creach max_reads w0 w ->
  exists sched, Forall (fun th => final th = true) (threads (run max_reads w sched)).
Proof.
  intros H0. remember (S (pending w)) as n eqn:En. assert (Hn : pending w < n) by lia.
  clear En. revert w Hn. induction n as [|n IH]; intros w Hn Hr; [lia|].
  destruct (decide (Exists (fun t => is_Some (run_step max_reads w t))
                      (seq 0 (length (threads w))))) as [Hex|Hnex].
  - apply Exists_exists in Hex as (t & _ & [w' Hw']).
    destruct (IH w') as [sched Hs].
    + pose proof (run_step_pending max_reads w t w' Hw'). lia.
    + exact (cr_step max_reads w0 w w' Hr (run_step_cstep max_reads w t w' Hw')).
    + exists (t :: sched). simpl. by rewrite Hw'.
  - exists []. simpl. apply (stuck_final max_reads workers max_reads_pos).
    + exact (inv_reach max_reads workers max_reads_pos w0 w H0 Hr).
    + exact (corr_reach max_reads workers max_reads_pos w0 w H0 Hr).
    + intros t. destruct (run_step max_reads w t) as [w'|] eqn:E; [|done]. exfalso.
      apply Hnex, Exists_exists. exists t. split; [|by eexists].
      apply list_elem_of_In, in_seq. pose proof (run_step_lookup max_reads w t w' E). lia.
Qed.

End Claims.

End WithBackend.

(** ** Concrete runs *)

Lemma concurrent_no_deadlock_witness :
  creach 3 demo_start (run 3 demo_start demo_sched) /\
  (forall t, run_step 3 (run 3 demo_start demo_sched) t = None) /\
  Forall (fun th => final th = true) (threads (run 3 demo_start demo_sched)).
Proof.
  pose proof (creach_run 3 demo_start demo_start demo_sched (cr_refl _ _)) as Hr.
  assert (Hs : forall t, run_step 3 (run 3 demo_start demo_sched) t = None)
    by (intros [|[|[|t]]]; vm_compute; reflexivity).
  exact (conj Hr (conj Hs (concurrent_no_deadlock 3 2 three_pos _ _ demo_start_initial Hr Hs))).
Defined.

Lemma concurrent_all_complete_witness :
  initial 3 2 demo_start /\ creach 3 demo_start demo_start /\
  exists sched, Forall (fun th => final th = true) (threads (run 3 demo_start sched)).
Proof.
  exact (conj demo_start_initial (conj (cr_refl _ _)
    (concurrent_all_complete 3 2 three_pos _ _ demo_start_initial (cr_refl _ _)))).
Defined.

End Progress.
