(* ===== verification/Atomic.v ===== *)
(** * The guard's contract, and the server refines it

    Sections 4.4 and 5 of the specification say what the Concurrency Guard
    promises: [withReadAccess f] runs [f] on the model as it is, any number
    of them at once, and [withWriteAccess] replaces the model, excluding all
    reads; so each request behaves as if it ran in one atomic step on the
    current model.  [AWorld] and [astep] are that contract: one model, and
    tasks that either serve a request atomically ([as_serve]) or replace
    the model atomically ([as_write]).

    [absr] maps a state of the concurrent model of [Concurrent.v] to the
    contract's state, as an abstraction function: the model is the last
    complete version; a request that has not started [Bert::predict] is
    pending; one inside it or finished is served with the version it read;
    a writer is pending until its copy is complete.  Every step of the
    server is either invisible in the contract (its image does not change)
    or one step of the contract: the read guard makes [Bert::predict] the
    linearisation point of a request, and the end of the copy under the
    write guard the one of a reload.  So every run of the server is a run
    of the contract. *)

From S2P Require Import Prelude Tensor Tokenizer Encoder Model Middleware RwLock Server Concurrent.
From stdpp Require Import relations.
Import Tensor Tokenizer Encoder Model Middleware RwLock Server Concurrent.

Module Atomic.

Section WithBackend.
Context {BB : BertBackend}.

(** ** The contract *)

Inductive ATask :=
| APending (hs : Headers) (p : Prompt)
| AServed (hs : Headers) (p : Prompt)
    (out : logged (Middleware.Event HandlerEvent) Model.Error Embeddings)
| AWPending (nb : Bert)
| AWDone (nb : Bert).

Record AWorld := mkAWorld {
  amodel : Bert;
  atasks : list ATask
}.

Inductive astep : AWorld -> AWorld -> Prop :=
| as_serve aw t hs p :
    atasks aw !! t = Some (APending hs p) ->
    astep aw (mkAWorld (amodel aw)
                (<[t := AServed hs p (serve_request (amodel aw) hs p)]> (atasks aw)))
| as_write aw t nb :
    atasks aw !! t = Some (AWPending nb) ->
    astep aw (mkAWorld nb (<[t := AWDone nb]> (atasks aw))).

(** ** The abstraction function *)

Definition abs_task (th : Thread) : ATask :=
  match th with
  | ReqNew hs p _ | ReqWaiting hs p _ => APending hs p
  | ReqBusy hs p _ _ b => AServed hs p (serve_request b hs p)
  | ReqDone hs p _ out => AServed hs p out
  | WrNew nb | WrWaiting nb | WrHalf nb => AWPending nb
  | WrDone nb => AWDone nb
  end.

Definition absr (w : World) : AWorld :=
  mkAWorld (hd (bert (app w)) (versions w)) (map abs_task (threads w)).

(** An update of a task that its image does not see. *)
Lemma map_insert_same {A B} (f : A -> B) (l : list A) (i : nat) (x y : A) :
  l !! i = Some x -> f y = f x -> map f (<[i := y]> l) = map f l.
Proof.
  intros Hi Hf. rewrite map_insert, Hf.
  apply list_insert_id. by apply map_insert_lookup.
Qed.

Section Refinement.
Variables max_reads workers : nat.
Hypothesis max_reads_pos : 0 < max_reads.

(** There is always a complete version, and outside a write the cell
    holds the last one. *)
Definition cell_current (w : World) : Prop :=
  versions w <> [] /\
  (Forall (fun th => is_half th = false) (threads w) -> hd (bert (app w)) (versions w) = bert (app w)).

Lemma cell_current_step w w' : cell_current w -> cstep max_reads w w' -> cell_current w'.
Proof.
  unfold cell_current. intros [Hne Hc] Hs.
  destruct Hs as [w t hs p k Ht|w t hs p k Ht _ _|w t hs p k enc b Ht
    |w t nb Ht|w t nb Ht _|w t nb Ht]; simpl; (split; [done|]); intros Hall;
    try (apply Hc; by eapply Forall_insert_inv; [exact Hall | exact Ht | done]).
  - exfalso. rewrite Forall_lookup in Hall.
    by specialize (Hall t (WrHalf nb) (lookup_insert_here _ _ _ _ Ht)).
  - done.
Qed.

Lemma cell_current_reach w0 w :
  initial max_reads workers w0 -> creach max_reads w0 w -> cell_current w.
Proof.
  intros (_ & Hv & _) Hr. induction Hr as [|w w' _ IH Hs].
  - unfold cell_current. rewrite Hv. by split.
  - by eapply cell_current_step.
Qed.

(** The simulation diagram: every step of the server is invisible in the
    contract or is one step of it. *)
Lemma cstep_simulation w w' :
  Inv max_reads workers w -> cell_current w -> cstep max_reads w w' ->
  absr w' = absr w \/ astep (absr w) (absr w').
Proof.
  intros Hinv [Hne Hc] Hs. unfold absr.
  destruct Hs as [w t hs p k Ht|w t hs p k Ht Hr _|w t hs p k enc b Ht
    |w t nb Ht|w t nb Ht _|w t nb Ht]; cbn -[hd].
  - left. by rewrite (map_insert_same _ _ t _ _ Ht).
  - right. rewrite (Hc (reader_no_half max_reads workers max_reads_pos w t Hinv Hr)).
    rewrite map_insert. cbn -[hd].
    apply (as_serve (mkAWorld _ _) t hs p). cbn -[hd].
    by rewrite (map_insert_lookup _ _ t _ Ht).
  - left. destruct (inv_threads max_reads workers w Hinv t _ Ht) as (_ & _ & -> & -> & _).
    f_equal. apply (map_insert_same _ _ t _ _ Ht). cbn -[hd]. by rewrite request_from_serve.
  - left. by rewrite (map_insert_same _ _ t _ _ Ht).
  - left. f_equal; [by destruct (versions w) | by rewrite (map_insert_same _ _ t _ _ Ht)].
  - right. rewrite map_insert. simpl.
    apply (as_write (mkAWorld _ _) t nb). simpl.
    by rewrite (map_insert_lookup _ _ t _ Ht).
Qed.

(** C8. Refinement of the guard's contract: every run of the server, in
    any interleaving of requests and reloads, is seen through [absr] as a
    run of the atomic contract of sections 4.4 and 5, where each request
    is served in one step on the current model and each reload replaces it
    in one step. *)
Theorem concurrent_refines_atomic w0 w :
  initial max_reads workers w0 -> creach max_reads w0 w -> rtc astep (absr w0) (absr w).
Proof.
  intros H0 Hr. induction Hr as [|w w' Hr IH Hs]; [apply rtc_refl|].
  destruct (cstep_simulation w w') as [E|S].
  - exact (inv_reach max_reads workers max_reads_pos w0 w H0 Hr).
  - exact (cell_current_reach w0 w H0 Hr).
  - done.
  - by rewrite E.
  - by eapply rtc_r.
Qed.

End Refinement.

End WithBackend.

(** ** A concrete run *)

(** The demo run of [Concurrent.v]: request 0, the reload, then request 1
    on the reloaded model, as three atomic steps of the contract. *)
Lemma concurrent_refines_atomic_witness :
  initial 3 2 demo_start /\ creach 3 demo_start (run 3 demo_start demo_sched) /\
  rtc astep (absr demo_start) (absr (run 3 demo_start demo_sched)).
Proof.
  pose proof (creach_run 3 demo_start demo_start demo_sched (cr_refl _ _)) as Hr.
  exact (conj demo_start_initial (conj Hr
    (concurrent_refines_atomic 3 2 three_pos _ _ demo_start_initial Hr))).
Defined.

End Atomic.
