(* ===== verification/Http.v ===== *)
(** * The route [POST /predict], from the request body to the response body

    actix's service for the handler [predict] (main.rs lines 28-44) first
    runs the extractors of its arguments: [Json<Prompt>] reads the body
    with [serde_json::from_slice] ([Json.v]); when that fails actix answers
    400 Bad Request with the error, and the handler does not run, so the
    read guard is never taken.  Otherwise the handler runs as in
    [Server.v], and its [Json(Embeddings { ys })] (line 43) is turned into a
    200 response whose body is [serde_json::to_string] of the embeddings.
    All of it runs inside [middleware_time_elapsed] (line 83), which prints
    the payload size before and the time after.  [JsonConfig]'s checks of
    the content type and of the payload size, and the text of the 400
    response, are not modelled: the body reaches [from_slice] as sent.

    [predict_route] is one request on a model [b].  The theorems: a body that
    does not decode is answered 400 without reading the model, and every
    200 body is one well-formed JSON value. *)

From S2P Require Import Prelude Tensor Tokenizer Encoder Model Middleware RwLock Server JsonScan Json.
From Stdlib Require Import ZArith PrimFloat Strings.Byte.
Import Tensor Tokenizer Encoder Model Middleware RwLock Server JsonScan Json.

Module Http.

(** The two responses of the route. *)
Inductive Response :=
| Ok200 (body : list byte)
| BadRequest400 (e : JsonError).

Section WithBackend.
Context {BB : BertBackend}.

(** [ryu]'s digits for a finite [f32], as in [Json.v]. *)
Variable write_f32 : float -> list byte.

(** The route on a model [b]: the middleware around the extraction of the
    body and the handler. *)
Definition predict_route (b : Bert) (hs : Headers) (body : list byte)
  : logged (Middleware.Event HandlerEvent) Model.Error Response :=
  middleware_time_elapsed hs
    (match from_slice body with
     | Err e => lret (BadRequest400 e)
     | Ok p => e <~ predict_body b p ;; lret (Ok200 (embeddings_to_vec write_f32 e))
     end).

(** C12. A malformed body is answered 400 Bad Request with serde_json's error:
    the payload size and the request time are printed, the handler does
    not run, and the answer does not depend on the model. *)
Theorem predict_route_bad_body b hs body e :
  from_slice body = Err e ->
  predict_route b hs body = ([PayloadSize (payload_size hs); RequestTook], Ok (BadRequest400 e)).
Proof. intros He. unfold predict_route. by rewrite He. Qed.

Section JsonBody.

Hypothesis write_f32_value :
  forall x, PrimFloat.is_finite x = true -> ignore_value (write_f32 x) = Ok [].

(** C13. Every 200 response of the route carries one well-formed JSON value
    and nothing after it, whatever the model computed: NaN and infinite
    values are written as [null]. *)
Theorem predict_route_json_body b hs body log out :
  predict_route b hs body = (log, Ok (Ok200 out)) -> ignore_value out = Ok [].
Proof.
  unfold predict_route. intros H. destruct (from_slice body) as [p|e].
  - destruct (predict_body b p) as [evs [v|[x|m]]];
      cbn [lbind lret middleware_time_elapsed] in H; inversion H; subst.
    by apply embeddings_json_valid.
  - cbn [lret middleware_time_elapsed] in H. inversion H.
Qed.

End JsonBody.

End WithBackend.

(** ** The request of the comment at main.rs line 92 *)

(** A writer that prints every value as [0]: enough to run the route; the
    theorems hold for every writer that prints JSON numbers. *)
Definition zero_writer (x : float) : list byte := ["0"%byte].

(** [curl -d '{"text":"hello world"}']. *)
Definition curl_body : list byte := prompt_json (String.list_byte_of_string hello_text).

Definition empty_body : list byte := ["{"; "}"]%byte.

Lemma predict_route_bad_body_witness :
  from_slice empty_body = Err (MissingField "text") /\
  predict_route zero_writer demo_bert req_headers empty_body =
    ([PayloadSize (payload_size req_headers); RequestTook], Ok (BadRequest400 (MissingField "text"))).
Proof.
  assert (H : from_slice empty_body = Err (MissingField "text")) by (vm_compute; reflexivity).
  exact (conj H (predict_route_bad_body zero_writer demo_bert req_headers _ _ H)).
Defined.

Definition curl_response : list byte :=
  match (predict_route zero_writer demo_bert req_headers curl_body).2 with
  | Ok (Ok200 out) => out
  | _ => []
  end.

Lemma predict_route_json_body_witness :
  (forall x, PrimFloat.is_finite x = true -> ignore_value (zero_writer x) = Ok []) /\
  predict_route zero_writer demo_bert req_headers curl_body =
    ((predict_route zero_writer demo_bert req_headers curl_body).1, Ok (Ok200 curl_response)) /\
  ignore_value curl_response = Ok [].
Proof.
  assert (H1 : forall x, PrimFloat.is_finite x = true -> ignore_value (zero_writer x) = Ok [])
    by (intros; reflexivity).
  assert (H2 : predict_route zero_writer demo_bert req_headers curl_body =
    ((predict_route zero_writer demo_bert req_headers curl_body).1, Ok (Ok200 curl_response)))
    by (vm_compute; reflexivity).
  exact (conj H1 (conj H2 (predict_route_json_body zero_writer H1 _ _ _ _ _ H2))).
Defined.

End Http.

