(* ===== verification/Timing.v ===== *)
(** * The timing lines: [Instant::now] and [Instant::elapsed]

    Three places read the monotonic clock: [Bert::predict] takes
    [start = Instant::now()] (model.rs line 91) and prints
    [start.elapsed()] after encoding (line 103) and after the forward pass
    (line 106); [middleware_time_elapsed] takes [now = Instant::now()]
    before calling the service (main.rs line 59) and prints [now.elapsed()]
    after it (line 63).  The untimed model ([Model.v], [Server.v],
    [Middleware.v]) keeps these lines as events without their durations;
    this file gives them their values.

    A run's clock is the sequence of the values [Instant::now()] returns,
    one per call, in nanoseconds: [Clock] is [nat -> N], read at an index
    the computation threads ([timed] is the logged monad of [Prelude.v]
    with that index as state).  [Instant] is monotonic: [monotone] is the
    hypothesis std documents.  [Instant::elapsed] is [Instant::now() - self],
    which saturates at zero since Rust 1.60, as [N.sub] does.  The
    printed text of a [Duration] ([{:?}], e.g. [1.2ms]) is not modelled.

    The theorems: dropping the durations from the timed request gives the
    untimed one exactly ([serve_request_timed_erase], a refinement), and on
    a monotonic clock the durations a request prints never decrease, in
    every branch (errors and panics included). *)

From S2P Require Import Prelude Tensor Tokenizer Encoder Model Middleware Server.
From Stdlib Require Import ZArith PrimFloat Sorting.Sorted.
Import Tensor Tokenizer Encoder Model Middleware Server.

Module Timing.

(** ** The clock *)

(** The value of the [i]-th call to [Instant::now()] in a run. *)
Definition Clock : Type := nat -> N.

(** [Instant] is monotonic: a later call never returns an earlier instant. *)
Definition monotone (c : Clock) : Prop := forall i j, i <= j -> (c i <= c j)%N.

(** A computation that reads the clock: from the index of its first read
    to its log and result, and the index after its last read. *)
Definition timed (Ev E A : Type) : Type := Clock -> nat -> logged Ev E A * nat.

Definition tret {Ev E A} (a : A) : timed Ev E A := fun _ i => (lret a, i).

Definition tbind {Ev E A B} (m : timed Ev E A) (k : A -> timed Ev E B) : timed Ev E B :=
  fun c i =>
    match m c i with
    | ((l, Ok a), j) => let '((l', r), j') := k a c j in ((l ++ l', r), j')
    | ((l, Err e), j) => ((l, Err e), j)
    end.

Notation "x <@ m ;; k" := (tbind m (fun x => k))
  (at level 60, m at next level, right associativity) : hf_scope.

(** A step that does not read the clock. *)
Definition tlift {Ev E A} (m : logged Ev E A) : timed Ev E A := fun _ i => (m, i).

Definition tprint {Ev E} (ev : Ev) : timed Ev E unit := tlift (tell ev).

(** [Instant::now()] *)
Definition instant_now {Ev E} : timed Ev E N := fun c i => (lret (c i), S i).

(** [start.elapsed()], i.e. [Instant::now() - start], saturating. *)
Definition elapsed {Ev E} (start : N) : timed Ev E N := fun c i => (lret (c i - start)%N, S i).

(** [.unwrap()] on a timed call whose events are mapped by [f]. *)
Definition tunwrap_sub {Ev Ev' E E' A} (f : Ev' -> Ev) (m : timed Ev' E' A) : timed Ev E A :=
  fun c i => (lunwrap_sub f (m c i).1, (m c i).2).

(** ** The lines with their durations *)

(** The lines [Bert::predict] prints (model.rs lines 103 and 106). *)
Inductive ModelLine :=
| TLoadedAndEncoded (d : N)
| TForwardPassTook (d : N).

(** The lines of the handler (main.rs line 35) and of [Bert::predict]. *)
Inductive HandlerLine :=
| TPredicting (text : string)
| TModelEvent (e : ModelLine).

(** The lines of [middleware_time_elapsed] (main.rs lines 57 and 63). *)
Inductive MiddlewareLine (Inner : Type) :=
| TPayloadSize (n : Z)
| TInnerEvent (e : Inner)
| TRequestTook (d : N).
Arguments TPayloadSize {Inner} n.
Arguments TInnerEvent {Inner} e.
Arguments TRequestTook {Inner} d.

Definition erase_model (e : ModelLine) : Model.Event :=
  match e with
  | TLoadedAndEncoded _ => LoadedAndEncoded
  | TForwardPassTook _ => ForwardPassTook
  end.

Definition erase_handler (e : HandlerLine) : HandlerEvent :=
  match e with
  | TPredicting t => Predicting t
  | TModelEvent e => ModelEvent (erase_model e)
  end.

Definition erase_event {I I'} (f : I -> I') (e : MiddlewareLine I) : Middleware.Event I' :=
  match e with
  | TPayloadSize n => PayloadSize n
  | TInnerEvent e => InnerEvent (f e)
  | TRequestTook _ => RequestTook
  end.

(** ** Erasing the durations *)

(** [t] is [m] with durations: whatever the clock, its lines mapped by
    [f] and its result are those of [m]. *)
Definition erases {Ev Ev' E A} (f : Ev -> Ev') (t : timed Ev E A) (m : logged Ev' E A) : Prop :=
  forall c i, (map f (t c i).1.1, (t c i).1.2) = m.

Section Erasure.
Context {Ev Ev' E : Type} (f : Ev -> Ev').

Lemma erases_ret {A} (a : A) : erases (E:=E) f (tret a) (lret a).
Proof. done. Qed.

Lemma erases_ltry {A E'} (conv : E' -> E) (m : result A E') :
  erases f (tlift (ltry conv m)) (ltry conv m).
Proof. by intros c i; destruct m. Qed.

Lemma erases_lunwrap {A E'} (m : result A E') :
  erases (E:=E) f (tlift (lunwrap m)) (lunwrap m).
Proof. by intros c i; destruct m. Qed.

Lemma erases_print ev : erases (E:=E) f (tprint ev) (tell (f ev)).
Proof. done. Qed.

Lemma erases_bind {A B} t m (k : A -> timed Ev E B) k' :
  erases f t m -> (forall a, erases f (k a) (k' a)) -> erases f (tbind t k) (lbind m k').
Proof.
  intros Ht Hk c i. specialize (Ht c i). unfold tbind.
  destruct (t c i) as [[l [a|x]] j]; cbn in *; subst m; [|done].
  specialize (Hk a c j). destruct (k a c j) as [[l' r] j']; cbn in *. rewrite <- Hk. by rewrite map_app.
Qed.

(** A clock read leaves no line: the rest erases as if it were not there. *)
Lemma erases_read {B} (t : timed Ev E N) (k : N -> timed Ev E B) m :
  (forall c i, exists x j, t c i = (lret x, j)) -> (forall x, erases f (k x) m) ->
  erases f (tbind t k) m.
Proof.
  intros Ht Hk c i. destruct (Ht c i) as (x & j & Hx). unfold tbind. rewrite Hx. cbn [lret].
  specialize (Hk x c j). destruct (k x c j) as [[l r] j']; cbn in *. by rewrite <- Hk.
Qed.

Lemma instant_now_read c i : exists x j, @instant_now Ev E c i = (lret x, j).
Proof. by eexists _, _. Qed.

Lemma elapsed_read s c i : exists x j, @elapsed Ev E s c i = (lret x, j).
Proof. by eexists _, _. Qed.

Lemma erases_unwrap {Ev0 Ev0' E' A} (g : Ev0 -> Ev0') (h : Ev0 -> Ev) (h' : Ev0' -> Ev')
    (t : timed Ev0 E' A) m :
  (forall e, f (h e) = h' (g e)) -> erases g t m ->
  erases f (tunwrap_sub (E:=E) h t) (lunwrap_sub h' m).
Proof.
  intros Hfg Ht c i. specialize (Ht c i). unfold tunwrap_sub, lunwrap_sub. subst m; cbn.
  rewrite !map_map. f_equal. by apply map_ext.
Qed.

End Erasure.

Create HintDb timing discriminated.
#[export] Hint Resolve instant_now_read elapsed_read : timing.

(** One step of an erasure proof: a clock read, a line, a lifted step, a
    bind. *)
Ltac erase_step :=
  first [ lazymatch goal with |- forall _, _ => intro end
        | eapply erases_read; [solve [eauto with timing]|]
        | lazymatch goal with |- erases ?f _ _ => apply (erases_print f) end
        | apply erases_ret
        | apply erases_ltry
        | apply erases_lunwrap
        | eapply erases_bind ].

(** The durations a request prints, in the order of its lines. *)
Definition line_durations (e : MiddlewareLine HandlerLine) : list N :=
  match e with
  | TInnerEvent (TModelEvent (TLoadedAndEncoded d))
  | TInnerEvent (TModelEvent (TForwardPassTook d))
  | TRequestTook d => [d]
  | _ => []
  end.

Definition durations (l : list (MiddlewareLine HandlerLine)) : list N := flat_map line_durations l.

(** ** The timed request *)

Section WithBackend.
Context {BB : BertBackend}.

(** [Bert::predict] (model.rs lines 90-109) with its clock reads. *)
Definition predict_timed (b : Bert) (prompt : string) : timed ModelLine Model.Error Tensor :=
  start <@ instant_now ;;
  enc <@ tlift (ltry TokenizerError (encode (tokenizer b) prompt true)) ;;
  t <@ tlift (ltry CandleErr (new_u32 (ids enc) (device b))) ;;
  token_ids <@ tlift (ltry CandleErr (unsqueeze t 0)) ;;
  token_type_ids <@ tlift (ltry CandleErr (zeros_like token_ids)) ;;
  d <@ elapsed start ;;
  _ <@ tprint (TLoadedAndEncoded d) ;;
  ys <@ tlift (ltry CandleErr (forward (model b) token_ids token_type_ids)) ;;
  d' <@ elapsed start ;;
  _ <@ tprint (TForwardPassTook d') ;;
  tret ys.

(** The body of the handler (main.rs lines 35-43). *)
Definition predict_body_timed (b : Bert) (p : Prompt) : timed HandlerLine Model.Error Embeddings :=
  _ <@ tprint (TPredicting (text p)) ;;
  t <@ tunwrap_sub TModelEvent (predict_timed b (text p)) ;;
  v <@ tlift (lunwrap (to_vec3 t)) ;;
  tret (mkEmbeddings v).

(** [middleware_time_elapsed] (main.rs lines 46-66): the payload line, the
    clock read of line 59, the service, and the clock read and line of
    line 63 unless the service panicked. *)
Definition middleware_timed {Inner E A} (hs : Headers) (next : timed Inner E A)
  : timed (MiddlewareLine Inner) E A :=
  fun c i =>
    let now := c i in
    match next c (S i) with
    | ((evs, Err (Panic m)), j) =>
        ((TPayloadSize (payload_size hs) :: map TInnerEvent evs, Err (Panic m)), j)
    | ((evs, r), j) =>
        ((TPayloadSize (payload_size hs) :: map TInnerEvent evs ++ [TRequestTook (c j - now)%N], r), S j)
    end.

Definition serve_request_timed (b : Bert) (hs : Headers) (p : Prompt)
  : timed (MiddlewareLine HandlerLine) Model.Error Embeddings :=
  middleware_timed hs (predict_body_timed b p).

(** ** Refinement of the untimed request *)

Lemma erases_middleware {I I' E A} (f : I -> I') hs (t : timed I E A) m :
  erases f t m -> erases (erase_event f) (middleware_timed hs t) (middleware_time_elapsed hs m).
Proof.
  intros Ht c i. specialize (Ht c (S i)). unfold middleware_timed.
  destruct (t c (S i)) as [[evs r] j]; cbn in Ht; subst m.
  destruct r as [a|[x|msg]]; cbn; by rewrite ?map_app, ?map_map.
Qed.


Lemma predict_timed_erase b s : erases erase_model (predict_timed b s) (Model.predict b s).
Proof. unfold predict_timed, Model.predict. repeat erase_step. Qed.

Lemma predict_body_timed_erase b p : erases erase_handler (predict_body_timed b p) (predict_body b p).
Proof.
  unfold predict_body_timed, predict_body.
  repeat first [erase_step | eapply erases_unwrap; [done | apply predict_timed_erase]].
Qed.

(** Refinement of the untimed request: on every clock, the timed
    request prints the lines of [serve_request] with their durations and
    returns its result.  The untimed model of [Server.v], on which every
    other theorem about a request is proved, is this one with the
    durations erased. *)
Lemma serve_request_timed_erase b hs p c i :
  (map (erase_event erase_handler) (serve_request_timed b hs p c i).1.1,
   (serve_request_timed b hs p c i).1.2) = serve_request b hs p.
Proof. exact (erases_middleware erase_handler hs _ _ (predict_body_timed_erase b p) c i). Qed.

(** ** The order of the durations *)

(** [Bert::predict] reads the clock at [i] for [start], prints a prefix of
    its two lines, each measured from [start], and on success has read the
    clock three times. *)
Lemma predict_timed_log b s c i :
  exists k, (predict_timed b s c i).1.1 =
      take k [TLoadedAndEncoded (c (S i) - c i)%N; TForwardPassTook (c (S (S i)) - c i)%N] /\
    (forall ys, (predict_timed b s c i).1.2 = Ok ys -> k = 2 /\ (predict_timed b s c i).2 = S (S (S i))).
Proof.
  unfold predict_timed, tbind, instant_now, elapsed, tprint, tlift, tret, ltry, tell, lret.
  destruct (encode (tokenizer b) s true) as [enc|x]; cbn [fst snd app]; [|by exists 0].
  destruct (new_u32 (ids enc) (device b)) as [t|x]; cbn [fst snd app]; [|by exists 0].
  destruct (unsqueeze t 0) as [t1|x]; cbn [fst snd app]; [|by exists 0].
  destruct (zeros_like t1) as [t2|x]; cbn [fst snd app]; [|by exists 0].
  destruct (forward (model b) t1 t2) as [ys|x]; cbn [fst snd app]; [by exists 2|by exists 1].
Qed.

(** C22. On a monotonic clock the durations a request prints never
    decrease: [Loaded and encoded] and [Forward pass took] are measured
    from the same [start] (model.rs lines 91, 103, 106), and [Request
    took] from the middleware's [now] (main.rs line 59), taken before
    [start] and read after the forward pass.  This holds in every branch:
    a failing tokenizer, tensor or forward call, or a panic, only cuts the
    list short. *)
Theorem serve_request_durations_sorted b hs p c i :
  monotone c -> Sorted N.le (durations (serve_request_timed b hs p c i).1.1).
Proof.
  intros Hc.
  pose proof (Hc i (S i) ltac:(lia)). pose proof (Hc (S i) (S (S i)) ltac:(lia)).
  pose proof (Hc (S (S i)) (S (S (S i))) ltac:(lia)).
  pose proof (Hc (S (S (S i))) (S (S (S (S i)))) ltac:(lia)).
  unfold serve_request_timed, middleware_timed, predict_body_timed, tbind, tprint, tlift,
    tret, tunwrap_sub, tell, lunwrap.
  destruct (predict_timed_log b (text p) c (S i)) as (k & Hl & Hok).
  destruct (predict_timed b (text p) c (S i)) as [[l r] j]; cbn [fst snd] in Hl, Hok; subst l.
  destruct r as [ys|[x|m]]; cbn [lunwrap_sub fst snd tell lret app].
  - destruct (Hok ys eq_refl) as [-> ->]. destruct (to_vec3 ys); cbn; repeat constructor; lia.
  - destruct k as [|[|k]]; cbn; rewrite ?take_nil; cbn; repeat constructor; lia.
  - destruct k as [|[|k]]; cbn; rewrite ?take_nil; cbn; repeat constructor; lia.
Qed.

End WithBackend.

(** ** The request of the comment at main.rs line 92 *)

(** A clock that advances one microsecond between reads. *)
Definition demo_clock : Clock := fun i => N.of_nat (1000 * i).

Lemma demo_clock_monotone : monotone demo_clock.
Proof. intros i j Hij. unfold demo_clock. lia. Qed.

(** The middleware reads the clock first, [predict] next: the request
    prints 1, 2 and 4 microseconds. *)
Lemma serve_request_durations_sorted_witness :
  monotone demo_clock /\
  durations (serve_request_timed demo_bert req_headers hello demo_clock 0).1.1 = [1000; 2000; 4000]%N /\
  Sorted N.le (durations (serve_request_timed demo_bert req_headers hello demo_clock 0).1.1).
Proof.
  split; [exact demo_clock_monotone|]. split; [vm_compute; reflexivity|].
  exact (serve_request_durations_sorted demo_bert req_headers hello demo_clock 0 demo_clock_monotone).
Defined.

End Timing.
